(** * Session state machine and voice coordinator

    A shallow embedding of [src/stateManager.js] (class [StateManager]) and of
    the class [VoiceEngine] of [src/lessonEngine.js], with the properties the
    specification states about them; then of the classes [LanguageEngine]
    ([src/languageEngine.js]) and [LessonEngine] ([src/lessonEngine.js]) and
    of the way [LinguaBridgeApp] ([src/unnamed/part_000]) answers a
    transcript, with further properties of the code.

    JavaScript strings are byte strings in UTF-8 ([string]); numbers that the
    code only compares and subtracts (milliseconds) are [Z]; the recogniser's
    confidence is a rational.  Methods run in a state-and-exception monad over
    the object's fields and the world outside it (clock, console, callbacks,
    the two browser capabilities): a JavaScript exception keeps every
    mutation made before it was raised, so the monad returns the state on
    both completions. *)

From Stdlib Require Import ZArith List String Ascii Bool Lia QArith DecimalString.
Import ListNotations.
Local Open Scope Z_scope.
Local Open Scope string_scope.
Local Open Scope list_scope.


(** ** JavaScript values, completions, and the world *)

(** A function value is known by its reference: [===] on functions compares
    references. *)
Definition FnRef := nat.

Inductive JsValue :=
| VUndefined
| VNull
| VString (s : string)
| VNumber (q : Q)
| VFunction (f : FnRef)
| VError (name message : string).

(** A promise as [speak] returns it: still pending, or already rejected.
    (It is resolved or rejected later by the utterance's events.) *)
Inductive Promise :=
| Pending
| Rejected (reason : JsValue).

(** The completion of a call: a normal return or a thrown value. *)
Inductive Completion (A : Type) :=
| Normal (a : A)
| Abrupt (thrown : JsValue).
Arguments Normal {A} a.
Arguments Abrupt {A} thrown.

Inductive Level := Info | Warn | Error.

(** What leaves the two objects, in the order it happens. *)
Inductive Event :=
| Console (level : Level) (prefix : string) (timestamp : Z) (message : string)
| Call (f : FnRef) (args : list JsValue)
| RecognitionStart (lang : string)
| RecognitionStop
| SynthesisCancel
| SynthesisSpeak (text lang : string)
| PromiseResolve
| PromiseReject (reason : JsValue).

(** The capture capability ([SpeechRecognition]): a session is opened by
    [start()], asked to finish by [stop()], and closed by its [end] or
    [error] event. *)
Inductive CaptureSession := CaptureIdle | Capturing | CaptureStopping.

(** The rendering capability ([speechSynthesis]): [speaking] is true while
    an utterance is rendered; [cancel()] stops the audio and leaves the
    utterance's completion event to be delivered. *)
Inductive RenderSession := RenderIdle | Rendering | RenderCancelled.

Record World := mkWorld {
  clock : Z;                    (* Date.now(), milliseconds *)
  trace : list Event;
  capture : CaptureSession;
  recognition_lang : string;    (* recognition.lang *)
  render : RenderSession;
  (* What a function value does when it is called: it returns or throws.
     The outcome may depend on everything that happened before the call and
     on the arguments.  Callbacks are code outside the two classes; they
     are taken not to call back into them while they run. *)
  fnBody : FnRef -> list Event -> list JsValue -> Completion unit
}.

Definition emit (e : Event) (w : World) : World :=
  mkWorld (clock w) (trace w ++ [e]) (capture w) (recognition_lang w)
          (render w) (fnBody w).

(** [new Date().toLocaleTimeString()] shows the time of day to the second;
    the model keeps that number of seconds (time zone offset 0). *)
Definition toLocaleTimeString (ms : Z) : Z := (ms / 1000) mod 86400.

(** ** The monad of methods *)

Definition M (S A : Type) : Type := S -> World -> Completion A * S * World.

Definition ret {S A} (a : A) : M S A := fun s w => (Normal a, s, w).

Definition bind {S A B} (m : M S A) (k : A -> M S B) : M S B :=
  fun s w =>
    match m s w with
    | (Normal a, s', w') => k a s' w'
    | (Abrupt v, s', w') => (Abrupt v, s', w')
    end.

Definition throw {S A} (v : JsValue) : M S A := fun s w => (Abrupt v, s, w).

(** [try { body } catch (error) { handler }] *)
Definition try_catch {S A} (body : M S A) (handler : JsValue -> M S A) : M S A :=
  fun s w =>
    match body s w with
    | (Normal a, s', w') => (Normal a, s', w')
    | (Abrupt v, s', w') => handler v s' w'
    end.

Definition get {S} : M S S := fun s w => (Normal s, s, w).
Definition put {S} (s : S) : M S unit := fun _ w => (Normal tt, s, w).
Definition world {S} : M S World := fun s w => (Normal w, s, w).
Definition effect {S} (f : World -> World) : M S unit := fun s w => (Normal tt, s, f w).

Declare Scope js_scope.
Delimit Scope js_scope with js.
Notation "x <- m ;; k" := (bind m (fun x => k))
  (at level 61, m at next level, right associativity) : js_scope.
Notation "m ;; k" := (bind m (fun _ => k))
  (at level 61, right associativity) : js_scope.
Local Open Scope js_scope.

(** [array.forEach(f)] for an [f] that does not change the array. *)
Fixpoint forEach {S A} (f : A -> M S unit) (l : list A) : M S unit :=
  match l with
  | [] => ret tt
  | a :: l' => f a ;; forEach f l'
  end.

(** Reading [error.message] from a caught value.  On [null] and [undefined]
    the read raises a [TypeError]; on a value without that property it
    gives [undefined], which a template literal prints as such. *)
Definition dquote : string := String (ascii_of_nat 34) EmptyString.

Definition message_of {S} (error : JsValue) : M S string :=
  match error with
  | VError _ message => ret message
  | VNull =>
      throw (VError "TypeError" "Cannot read properties of null (reading 'message')")
  | VUndefined =>
      throw (VError "TypeError" "Cannot read properties of undefined (reading 'message')")
  | _ => ret "undefined"
  end.

(** ** Property reads on object literals

    [obj[key]] finds an own property, or else a property inherited from
    [Object.prototype]; every inherited value is a function or an object. *)
Definition objectPrototypeKeys : list string :=
  [ "constructor"; "__proto__"; "hasOwnProperty"; "isPrototypeOf";
    "propertyIsEnumerable"; "toLocaleString"; "toString"; "valueOf";
    "__defineGetter__"; "__defineSetter__"; "__lookupGetter__";
    "__lookupSetter__" ].

Inductive PropRead (A : Type) :=
| Own (a : A)
| Inherited
| Missing.
Arguments Own {A} a.
Arguments Inherited {A}.
Arguments Missing {A}.

Fixpoint ownProp {A} (obj : list (string * A)) (key : string) : option A :=
  match obj with
  | [] => None
  | (k, a) :: obj' => if String.eqb k key then Some a else ownProp obj' key
  end.

Definition readProp {A} (obj : list (string * A)) (key : string) : PropRead A :=
  match ownProp obj key with
  | Some a => Own a
  | None => if existsb (String.eqb key) objectPrototypeKeys then Inherited else Missing
  end.

(** [Array.prototype.includes] on an array of strings. *)
Definition includes (arr : list string) (x : string) : bool :=
  existsb (String.eqb x) arr.

Definition call {S} (f : FnRef) (args : list JsValue) : M S unit :=
  fun s w => (fnBody w f (trace w) args, s, emit (Call f args) w).

(** ** [class StateManager] *)
Module StateManager.

Record t := mk {
  currentState : string;
  listeners : list FnRef;
  debugMode : bool
}.

Definition STATES : list (string * string) :=
  [ ("IDLE", "IDLE"); ("LISTENING", "LISTENING");
    ("PROCESSING", "PROCESSING"); ("SPEAKING", "SPEAKING") ].

Definition TRANSITIONS : list (string * list string) :=
  [ ("IDLE", ["LISTENING"]);
    ("LISTENING", ["PROCESSING"; "IDLE"]);
    ("PROCESSING", ["SPEAKING"; "IDLE"]);
    ("SPEAKING", ["IDLE"]) ].

(** [constructor()] *)
Definition new : t := mk "IDLE" [] true.

(** [log(message, level)] *)
Definition log (message : string) (level : Level) : M t unit :=
  this <- get ;;
  if negb (debugMode this) then ret tt
  else
    w <- world ;;
    effect (emit (Console level "[StateManager]" (toLocaleTimeString (clock w)) message)).

(** [getState()] *)
Definition getState : M t string :=
  this <- get ;; ret (currentState this).

(** [is(state)] ([is] is a keyword here) *)
Definition is_ (state : string) : M t bool :=
  this <- get ;; ret (String.eqb (currentState this) state).

(** Truthiness of [StateManager.STATES[key]]: an own entry is a string,
    truthy unless empty; an inherited one is a function or an object. *)
Definition truthy (p : PropRead string) : bool :=
  match p with
  | Own s => negb (String.eqb s EmptyString)
  | Inherited => true
  | Missing => false
  end.

(** [allowedTransitions.includes(newState)] on what
    [StateManager.TRANSITIONS[this.currentState]] gave. *)
Definition allowedTransitions_includes (p : PropRead (list string)) (newState : string)
  : M t bool :=
  match p with
  | Own arr => ret (includes arr newState)
  | Inherited =>
      throw (VError "TypeError" "allowedTransitions.includes is not a function")
  | Missing =>
      throw (VError "TypeError" "Cannot read properties of undefined (reading 'includes')")
  end.

(** The arrow function [notifyListeners] passes to [forEach]. *)
Definition notifyOne (previousState newState : string) (callback : FnRef) : M t unit :=
  try_catch
    (call callback [VString previousState; VString newState])
    (fun error =>
       message <- message_of error ;;
       log ("Listener error: " ++ message) Error).

(** [notifyListeners(previousState, newState)] *)
Definition notifyListeners (previousState newState : string) : M t unit :=
  this <- get ;;
  forEach (notifyOne previousState newState) (listeners this).

(** [transition(newState)] *)
Definition transition (newState : string) : M t bool :=
  if negb (truthy (readProp STATES newState)) then
    log ("ERROR: Invalid state " ++ dquote ++ newState ++ dquote) Error ;;
    ret false
  else
    this <- get ;;
    allowed <- allowedTransitions_includes
                 (readProp TRANSITIONS (currentState this)) newState ;;
    if negb allowed then
      log ("ERROR: Cannot transition from " ++ currentState this ++ " to " ++ newState)
          Error ;;
      ret false
    else
      let previousState := currentState this in
      put (mk newState (listeners this) (debugMode this)) ;;
      log ("State: " ++ previousState ++ " → " ++ newState) Info ;;
      notifyListeners previousState newState ;;
      ret true.

(** [forceTransition(newState)] *)
Definition forceTransition (newState : string) : M t unit :=
  if negb (truthy (readProp STATES newState)) then
    log ("ERROR: Cannot force transition to invalid state "
           ++ dquote ++ newState ++ dquote) Error
  else
    this <- get ;;
    let previousState := currentState this in
    put (mk newState (listeners this) (debugMode this)) ;;
    log ("FORCED State: " ++ previousState ++ " → " ++ newState) Warn ;;
    notifyListeners previousState newState.

(** [reset()] *)
Definition reset : M t unit := forceTransition "IDLE".

(** [addListener(callback)] *)
Definition addListener (callback : JsValue) : M t unit :=
  match callback with
  | VFunction f =>
      this <- get ;;
      put (mk (currentState this) (listeners this ++ [f]) (debugMode this))
  | _ => ret tt
  end.

(** [cb !== callback] for a registered function [cb]. *)
Definition strict_neq (cb : FnRef) (callback : JsValue) : bool :=
  match callback with
  | VFunction f => negb (Nat.eqb cb f)
  | _ => true
  end.

(** [removeListener(callback)] *)
Definition removeListener (callback : JsValue) : M t unit :=
  this <- get ;;
  put (mk (currentState this)
          (filter (fun cb => strict_neq cb callback) (listeners this))
          (debugMode this)).

(** [getInfo()] *)
Record Info := mkInfo {
  infoCurrentState : string;
  allowedTransitions : PropRead (list string);
  listenerCount : nat
}.

Definition getInfo : M t Info :=
  this <- get ;;
  ret (mkInfo (currentState this) (readProp TRANSITIONS (currentState this))
              (List.length (listeners this))).

End StateManager.

(** ** String helpers of the voice engine *)

(** [String.prototype.trim] removes leading and trailing WhiteSpace and
    LineTerminator code points: TAB, LF, VT, FF, CR, SP, U+00A0, U+1680,
    U+2000 to U+200A, U+2028, U+2029, U+202F, U+205F, U+3000 and U+FEFF,
    here in their UTF-8 encodings of one, two and three bytes. *)
Definition ws1 (c : ascii) : bool :=
  let n := nat_of_ascii c in
  ((9 <=? n) && (n <=? 13))%nat || (n =? 32)%nat.

Definition ws2 (c1 c2 : ascii) : bool :=
  ((nat_of_ascii c1 =? 194) && (nat_of_ascii c2 =? 160))%nat.

Definition ws3 (c1 c2 c3 : ascii) : bool :=
  let a := nat_of_ascii c1 in
  let b := nat_of_ascii c2 in
  let c := nat_of_ascii c3 in
  (((a =? 225) && (b =? 154) && (c =? 128))
   || ((a =? 226) && (b =? 128)
       && (((128 <=? c) && (c <=? 138)) || (c =? 168) || (c =? 169) || (c =? 175)))
   || ((a =? 226) && (b =? 129) && (c =? 159))
   || ((a =? 227) && (b =? 128) && (c =? 128))
   || ((a =? 239) && (b =? 187) && (c =? 191)))%nat.

(** Dropping leading white space from a list of bytes; with [backwards] the
    list is a reversed string and each encoding is met last byte first. *)
Fixpoint dropWhiteSpace (backwards : bool) (l : list ascii) : list ascii :=
  match l with
  | [] => []
  | c1 :: r1 =>
      if ws1 c1 then dropWhiteSpace backwards r1
      else
        match r1 with
        | [] => l
        | c2 :: r2 =>
            if (if backwards then ws2 c2 c1 else ws2 c1 c2)
            then dropWhiteSpace backwards r2
            else
              match r2 with
              | [] => l
              | c3 :: r3 =>
                  if (if backwards then ws3 c3 c2 c1 else ws3 c1 c2 c3)
                  then dropWhiteSpace backwards r3
                  else l
              end
        end
  end.

Definition trim (s : string) : string :=
  string_of_list_ascii
    (rev (dropWhiteSpace true (rev (dropWhiteSpace false (list_ascii_of_string s))))).

(** [Number.prototype.toFixed(2)] for a number below 10^21 in size: the
    nearest multiple of 1/100, the larger one on a tie, written with two
    decimals. *)
Definition toFixed2 (x : Q) : string :=
  let negative := (Qnum x <? 0)%Z in
  let num := Z.abs (Qnum x) in
  let den := Z.pos (Qden x) in
  let n := ((200 * num + den) / (2 * den))%Z in
  let m := NilEmpty.string_of_uint (N.to_uint (Z.to_N n)) in
  let m := if (String.length m <=? 2)%nat
           then (string_of_list_ascii (repeat "0"%char (3 - String.length m)%nat)
                   ++ m)%string
           else m in
  let k := String.length m in
  ((if negative then "-" else EmptyString)
     ++ substring 0 (k - 2)%nat m ++ "." ++ substring (k - 2)%nat 2 m)%string.

(** [text.substring(0, n)] counts UTF-16 code units.  In UTF-8 a character
    of four bytes is a surrogate pair, two code units, and every other
    character is one.  [utf8Bytes] is the number of bytes of the character
    a byte starts. *)
Definition utf8Bytes (lead : ascii) : nat :=
  let b := nat_of_ascii lead in
  if (b <? 192)%nat then 1%nat
  else if (b <? 224)%nat then 2%nat
  else if (b <? 240)%nat then 3%nat
  else 4%nat.

(** A cut inside a surrogate pair leaves its first half alone.  A string
    of bytes has no UTF-8 for that; the half is written here as the three
    bytes generalised UTF-8 gives the code unit.  It is computed from the
    first byte [lead] of the character and the two that follow. *)
Definition highSurrogate (lead : ascii) (rest : string) : string :=
  let byte (i : nat) :=
    match String.get i rest with
    | Some b => nat_of_ascii b
    | None => 128%nat
    end in
  let x := ((nat_of_ascii lead mod 8) * 256 + (byte 0%nat mod 64) * 4
            + (byte 1%nat mod 64) / 16 - 64)%nat in
  String (ascii_of_nat 237)
    (String (ascii_of_nat (160 + x / 64))
       (String (ascii_of_nat (128 + x mod 64)) EmptyString)).

(** The first [n] code units of [s]; [pending] bytes of [s] continue a
    character that is already taken. *)
Fixpoint substring16 (n pending : nat) (s : string) : string :=
  match s with
  | EmptyString => EmptyString
  | String c s' =>
      match pending with
      | S pending' => String c (substring16 n pending' s')
      | O =>
          match n with
          | O => EmptyString
          | S n' =>
              if (utf8Bytes c =? 4)%nat then
                match n' with
                | O => highSurrogate c s'
                | S n'' => String c (substring16 n'' 3 s')
                end
              else String c (substring16 n' (utf8Bytes c - 1) s')
          end
      end
  end.

(** ** What the two capabilities do when the engine calls them *)

(** [recognition.start()] on a session that is closed. *)
Definition captureStarted (w : World) : World :=
  emit (RecognitionStart (recognition_lang w))
       (mkWorld (clock w) (trace w) Capturing (recognition_lang w) (render w)
                (fnBody w)).

(** [recognition.stop()]: the capability stops listening to audio; there
    is nothing to stop in a session that is not capturing. *)
Definition captureStopped (w : World) : World :=
  emit RecognitionStop
       (mkWorld (clock w) (trace w)
                (match capture w with
                 | Capturing => CaptureStopping
                 | c => c
                 end)
                (recognition_lang w) (render w) (fnBody w)).

(** [speechSynthesis.cancel()] *)
Definition renderCancelled (w : World) : World :=
  emit SynthesisCancel
       (mkWorld (clock w) (trace w) (capture w) (recognition_lang w)
                (match render w with
                 | Rendering => RenderCancelled
                 | r => r
                 end)
                (fnBody w)).

(** [speechSynthesis.speak(utterance)] *)
Definition renderStarted (text lang : string) (w : World) : World :=
  emit (SynthesisSpeak text lang)
       (mkWorld (clock w) (trace w) (capture w) (recognition_lang w) Rendering
                (fnBody w)).

(** ** [class VoiceEngine] *)
Module VoiceEngine.

Record t := mk {
  stateManager : StateManager.t;
  recognition : bool;               (* this.recognition is an object, not null *)
  recognitionAvailable : bool;
  synthesisAvailable : bool;        (* and this.synthesis is the capability *)
  lastTranscript : string;
  lastTranscriptTime : Z;
  onTranscriptCallback : option FnRef;
  onErrorCallback : option FnRef;
  recognitionLang : string;
  synthesisLang : string;
  debugMode : bool
}.

(** The engine around another state of the manager it holds. *)
Definition withStateManager (sm : StateManager.t) (this : t) : t :=
  mk sm (recognition this) (recognitionAvailable this) (synthesisAvailable this)
     (lastTranscript this) (lastTranscriptTime this) (onTranscriptCallback this)
     (onErrorCallback this) (recognitionLang this) (synthesisLang this)
     (debugMode this).

(** A method of [this.stateManager] run from the engine. *)
Definition onStateManager {A} (m : M StateManager.t A) : M t A :=
  fun this w =>
    match m (stateManager this) w with
    | (r, sm, w') => (r, withStateManager sm this, w')
    end.

(** [log(message, level)] *)
Definition log (message : string) (level : Level) : M t unit :=
  this <- get ;;
  if negb (debugMode this) then ret tt
  else
    w <- world ;;
    effect (emit (Console level "[VoiceEngine]" (toLocaleTimeString (clock w)) message)).

(** *** The capture capability, as [this.recognition] *)

Definition nullRecognition {A} : M t A :=
  throw (VError "TypeError" "Cannot read properties of null").

(** [this.recognition.lang = lang] *)
Definition recognition_set_lang (lang : string) : M t unit :=
  this <- get ;;
  if recognition this then
    effect (fun w => mkWorld (clock w) (trace w) (capture w) lang (render w) (fnBody w))
  else nullRecognition.

(** [this.recognition.start()]: raises [InvalidStateError] when a session is
    open (started, and neither ended nor failed since). *)
Definition recognition_start : M t unit :=
  this <- get ;;
  if recognition this then
    w <- world ;;
    match capture w with
    | CaptureIdle => effect captureStarted
    | _ => throw (VError "InvalidStateError" "recognition has already started")
    end
  else nullRecognition.

(** [this.recognition.stop()] *)
Definition recognition_stop : M t unit := effect captureStopped.

(** *** The rendering capability, as [this.synthesis] *)

(** [this.synthesis.speaking] *)
Definition synthesis_speaking : M t bool :=
  this <- get ;;
  if synthesisAvailable this then
    w <- world ;;
    ret (match render w with Rendering => true | _ => false end)
  else throw (VError "TypeError" "Cannot read properties of undefined (reading 'speaking')").

(** [this.synthesis.cancel()] *)
Definition synthesis_cancel : M t unit := effect renderCancelled.

(** [this.synthesis.speak(utterance)] *)
Definition synthesis_speak (text lang : string) : M t unit :=
  effect (renderStarted text lang).

(** [resolve()] and [reject(reason)] of the promise [speak] returns. *)
Definition resolve : M t unit := effect (emit PromiseResolve).
Definition reject (reason : JsValue) : M t Promise :=
  effect (emit (PromiseReject reason)) ;; ret (Rejected reason).

(** [constructor(stateManager)], given whether the browser offers the two
    capabilities.  [initializeRecognition] runs before [debugMode] and
    [recognitionLang] are set: its log lines are not written, and what it
    assigns to [recognition.lang] is replaced by [startListening] before
    any session is started. *)
Definition constructor (stateManager : StateManager.t)
    (recognitionSupported synthesisSupported : bool) : World -> t * World :=
  fun w =>
    match log "Voice Engine initialized" Info
            (mk stateManager recognitionSupported recognitionSupported
                synthesisSupported EmptyString 0 None None "es-ES" "es-ES" true)
            w with
    | (_, this, w') => (this, w')
    end.

(** [if (this.onErrorCallback) this.onErrorCallback(message)] *)
Definition notifyError (message : string) : M t unit :=
  this <- get ;;
  match onErrorCallback this with
  | Some callback => call callback [VString message]
  | None => ret tt
  end.

(** [this.recognition.onstart] *)
Definition recognition_onstart : M t unit :=
  log "Recognition started" Info.

(** [this.recognition.onend] *)
Definition recognition_onend : M t unit :=
  log "Recognition ended" Info ;;
  listening <- onStateManager (StateManager.is_ "LISTENING") ;;
  if listening then
    onStateManager (StateManager.transition "IDLE") ;; ret tt
  else ret tt.

(** [this.recognition.onresult], for the event's first alternative
    [event.results[0][0]] with its [transcript] and [confidence]. *)
Definition recognition_onresult (text : string) (confidence : Q) : M t unit :=
  let transcript := trim text in
  log ("Transcript: " ++ dquote ++ transcript ++ dquote
         ++ " (confidence: " ++ toFixed2 confidence ++ ")") Info ;;
  w <- world ;;
  let now := clock w in
  this <- get ;;
  if String.eqb transcript (lastTranscript this)
     && (now - lastTranscriptTime this <? 2000)%Z
  then log "Duplicate transcript ignored" Warn
  else
    put (mk (stateManager this) (recognition this) (recognitionAvailable this)
            (synthesisAvailable this) transcript now (onTranscriptCallback this)
            (onErrorCallback this) (recognitionLang this) (synthesisLang this)
            (debugMode this)) ;;
    listening <- onStateManager (StateManager.is_ "LISTENING") ;;
    if listening then
      onStateManager (StateManager.transition "PROCESSING") ;;
      match onTranscriptCallback this with
      | Some callback => call callback [VString transcript; VNumber confidence]
      | None => ret tt
      end
    else ret tt.

(** [this.recognition.onerror], for [event.error] *)
Definition recognition_onerror (error : string) : M t unit :=
  log ("Recognition error: " ++ error) Error ;;
  (if String.eqb error "no-speech" then
     log "No speech detected" Warn
   else if String.eqb error "audio-capture" then
     log "No microphone found" Error ;;
     notifyError "No microphone detected. Please check your device."
   else if String.eqb error "not-allowed" then
     log "Microphone permission denied" Error ;;
     notifyError "Microphone access denied. Please allow microphone access."
   else ret tt) ;;
  onStateManager StateManager.reset.

(** [startListening()] *)
Definition startListening : M t bool :=
  idle <- onStateManager (StateManager.is_ "IDLE") ;;
  if negb idle then
    log "Cannot start listening - not in IDLE state" Warn ;;
    ret false
  else
    this <- get ;;
    if negb (recognitionAvailable this) then
      log "Speech Recognition not available" Error ;;
      notifyError "Speech recognition is not supported in your browser." ;;
      ret false
    else
      try_catch
        (ok <- onStateManager (StateManager.transition "LISTENING") ;;
         if negb ok then ret false
         else
           recognition_set_lang (recognitionLang this) ;;
           recognition_start ;;
           log ("Started listening in " ++ recognitionLang this) Info ;;
           ret true)
        (fun error =>
           message <- message_of error ;;
           log ("Failed to start recognition: " ++ message) Error ;;
           onStateManager StateManager.reset ;;
           ret false).

(** [stopListening()] *)
Definition stopListening : M t unit :=
  this <- get ;;
  if recognition this then
    listening <- onStateManager (StateManager.is_ "LISTENING") ;;
    if listening then
      recognition_stop ;;
      log "Stopped listening (manual)" Info
    else ret tt
  else ret tt.

(** [utterance.onstart] of the utterance [speak] creates *)
Definition utterance_onstart (text : string) : M t unit :=
  log ("Started speaking: " ++ dquote ++ substring16 50 0 text ++ "..." ++ dquote) Info.

(** [utterance.onend] *)
Definition utterance_onend : M t unit :=
  log "Finished speaking" Info ;;
  onStateManager (StateManager.transition "IDLE") ;;
  resolve.

(** [utterance.onerror], for [event.error] *)
Definition utterance_onerror (error : string) : M t unit :=
  log ("Speech error: " ++ error) Error ;;
  onStateManager StateManager.reset ;;
  reject (VError "Error" error) ;;
  ret tt.

(** [lang || this.synthesisLang] *)
Definition langOrDefault (lang : option string) (default : string) : string :=
  match lang with
  | Some l => if String.eqb l EmptyString then default else l
  | None => default
  end.

(** [speak(text, lang = null)]: the executor of the promise, and the promise
    as it is when [speak] returns.  An exception that leaves the executor
    rejects the promise. *)
Definition speak (text : string) (lang : option string) : M t Promise :=
  try_catch
    (processing <- onStateManager (StateManager.is_ "PROCESSING") ;;
     if negb processing then
       log "Cannot speak - not in PROCESSING state" Warn ;;
       reject (VError "Error" "Invalid state for speaking")
     else
       this <- get ;;
       if negb (synthesisAvailable this) then
         log "Speech Synthesis not available" Error ;;
         reject (VError "Error" "Speech synthesis not available")
       else
         speaking <- synthesis_speaking ;;
         (if speaking then
            synthesis_cancel ;;
            log "Cancelled previous speech" Info
          else ret tt) ;;
         (if recognition this then
            try_catch recognition_stop (fun _ => ret tt)
          else ret tt) ;;
         ok <- onStateManager (StateManager.transition "SPEAKING") ;;
         if negb ok then
           reject (VError "Error" "Failed to transition to SPEAKING state")
         else
           synthesis_speak text (langOrDefault lang (synthesisLang this)) ;;
           ret Pending)
    (fun error => reject error).

(** [cancelSpeech()] *)
Definition cancelSpeech : M t unit :=
  speaking <- synthesis_speaking ;;
  if speaking then
    synthesis_cancel ;;
    log "Speech cancelled" Info
  else ret tt.

(** [setRecognitionLanguage(langCode)] *)
Definition setRecognitionLanguage (langCode : string) : M t unit :=
  this <- get ;;
  put (mk (stateManager this) (recognition this) (recognitionAvailable this)
          (synthesisAvailable this) (lastTranscript this) (lastTranscriptTime this)
          (onTranscriptCallback this) (onErrorCallback this) langCode
          (synthesisLang this) (debugMode this)) ;;
  (if recognition this then recognition_set_lang langCode else ret tt) ;;
  log ("Recognition language set to " ++ langCode) Info.

(** [setSynthesisLanguage(langCode)] *)
Definition setSynthesisLanguage (langCode : string) : M t unit :=
  this <- get ;;
  put (mk (stateManager this) (recognition this) (recognitionAvailable this)
          (synthesisAvailable this) (lastTranscript this) (lastTranscriptTime this)
          (onTranscriptCallback this) (onErrorCallback this) (recognitionLang this)
          langCode (debugMode this)) ;;
  log ("Synthesis language set to " ++ langCode) Info.

(** [onTranscript(callback)] *)
Definition onTranscript (callback : FnRef) : M t unit :=
  this <- get ;;
  put (mk (stateManager this) (recognition this) (recognitionAvailable this)
          (synthesisAvailable this) (lastTranscript this) (lastTranscriptTime this)
          (Some callback) (onErrorCallback this) (recognitionLang this)
          (synthesisLang this) (debugMode this)).

(** [onError(callback)] *)
Definition onError (callback : FnRef) : M t unit :=
  this <- get ;;
  put (mk (stateManager this) (recognition this) (recognitionAvailable this)
          (synthesisAvailable this) (lastTranscript this) (lastTranscriptTime this)
          (onTranscriptCallback this) (Some callback) (recognitionLang this)
          (synthesisLang this) (debugMode this)).

End VoiceEngine.

(** ** [class LinguaBridgeApp], where it drives the engine and the manager

    The application keeps the state manager and the engine built on it; the
    two references are to one object, which the model holds once, in the
    engine.  Of the application's methods, this is the part that calls the
    engine or the state manager; what they write to the console, to the
    page and to the lesson store is left out. *)
Module LinguaBridgeApp.

(** The [catch] block of [speakResponse]: it logs [error.message], then
    resets. *)
Definition speakResponse_catch (error : JsValue) : M VoiceEngine.t unit :=
  message_of error ;;
  VoiceEngine.onStateManager StateManager.reset.

(** [speakResponse(text)], up to the moment [speak] has returned and a
    promise rejected by then has reached the [catch] block. *)
Definition speakResponse (text : string) : M VoiceEngine.t unit :=
  promise <- VoiceEngine.speak text None ;;
  match promise with
  | Pending => ret tt
  | Rejected error => speakResponse_catch error
  end.

(** [startListening()], given what [validateLanguageSelections()] says. *)
Definition startListening (languagesValid : bool) : M VoiceEngine.t unit :=
  if negb languagesValid then ret tt
  else VoiceEngine.startListening ;; ret tt.

(** [handleMicClick()] *)
Definition handleMicClick (languagesValid : bool) : M VoiceEngine.t unit :=
  currentState <- VoiceEngine.onStateManager StateManager.getState ;;
  if String.eqb currentState "IDLE" then startListening languagesValid
  else if String.eqb currentState "LISTENING" then VoiceEngine.stopListening
  else ret tt.

(** [handleTranscript(transcript, confidence)]: its last statement, which
    speaks the response it has computed. *)
Definition handleTranscript (responseText : string) : M VoiceEngine.t unit :=
  speakResponse responseText.

(** [switchLesson(lessonKey)], given whether the lesson engine accepted the
    key and the introduction it has for it. *)
Definition switchLesson (success : bool) (intro : string) : M VoiceEngine.t unit :=
  idle <- VoiceEngine.onStateManager (StateManager.is_ "IDLE") ;;
  if negb idle then ret tt
  else if success then
    VoiceEngine.onStateManager (StateManager.transition "PROCESSING") ;;
    speakResponse intro
  else ret tt.

End LinguaBridgeApp.

(** ** Observing a run *)

(** The events a call added to the trace of the world it started in. *)
Definition emitted (w w' : World) : list Event :=
  skipn (List.length (trace w)) (trace w').

(** The calls of function values among some events, in order. *)
Fixpoint calls (evs : list Event) : list (FnRef * list JsValue) :=
  match evs with
  | [] => []
  | Call f args :: evs' => (f, args) :: calls evs'
  | _ :: evs' => calls evs'
  end.

(** The notifications observers received between two worlds. *)
Definition notifications (w w' : World) : list (FnRef * list JsValue) :=
  calls (emitted w w').

(** The world after some more events, nothing else of it moved. *)
Definition addEvents (w : World) (evs : list Event) : World :=
  mkWorld (clock w) (trace w ++ evs) (capture w) (recognition_lang w)
          (render w) (fnBody w).

Definition extends (w w' : World) : Prop :=
  exists evs, w' = addEvents w evs.

(** A function value that never throws [null] or [undefined]. *)
Definition throwsNullish (c : Completion unit) : bool :=
  match c with
  | Abrupt VNull | Abrupt VUndefined => true
  | _ => false
  end.

Definition safe (w : World) (f : FnRef) : Prop :=
  forall history args, throwsNullish (fnBody w f history args) = false.

(** A function value that always returns. *)
Definition returns (w : World) (f : FnRef) : Prop :=
  forall history args, fnBody w f history args = Normal tt.

(** ** The transition table as the specification words it *)

Inductive Phase := Idle | Listening | Processing | Speaking.

Definition phaseName (p : Phase) : string :=
  match p with
  | Idle => "IDLE"
  | Listening => "LISTENING"
  | Processing => "PROCESSING"
  | Speaking => "SPEAKING"
  end.

(** Idle -> {Listening}, Listening -> {Processing, Idle},
    Processing -> {Speaking, Idle}, Speaking -> {Idle}. *)
Definition table (p : Phase) : list Phase :=
  match p with
  | Idle => [Listening]
  | Listening => [Processing; Idle]
  | Processing => [Speaking; Idle]
  | Speaking => [Idle]
  end.

Definition inTable (p : Phase) (target : string) : Prop :=
  exists q, In q (table p) /\ target = phaseName q.

(** ** Runs of the state machine *)

(** The state and world a method leaves, whatever its completion. *)
Definition after {S A} (m : M S A) (s : S * World) : S * World :=
  match m (fst s) (snd s) with
  | (_, s', w') => (s', w')
  end.

Definition setClock (ms : Z) (w : World) : World :=
  mkWorld ms (trace w) (capture w) (recognition_lang w) (render w) (fnBody w).

(** What the rest of the program can do to a state manager, and time
    passing. *)
Inductive Op :=
| OpTransition (newState : string)
| OpForceTransition (newState : string)
| OpReset
| OpAddListener (callback : JsValue)
| OpRemoveListener (callback : JsValue)
| OpTick (ms : Z).

Definition runOp (o : Op) (s : StateManager.t * World) : StateManager.t * World :=
  match o with
  | OpTransition newState => after (StateManager.transition newState) s
  | OpForceTransition newState => after (StateManager.forceTransition newState) s
  | OpReset => after StateManager.reset s
  | OpAddListener callback => after (StateManager.addListener callback) s
  | OpRemoveListener callback => after (StateManager.removeListener callback) s
  | OpTick ms => (fst s, setClock ms (snd s))
  end.

Definition runOps (ops : list Op) (s : StateManager.t * World) : StateManager.t * World :=
  fold_left (fun s o => runOp o s) ops s.

(** The console line that records a committed transition. *)
Definition commitLine (forced : bool) (previousState newState : string) (now : Z) : Event :=
  if forced then
    Console Warn "[StateManager]" (toLocaleTimeString now)
            ("FORCED State: " ++ previousState ++ " → " ++ newState)
  else
    Console Info "[StateManager]" (toLocaleTimeString now)
            ("State: " ++ previousState ++ " → " ++ newState).

(** A requested transition passes both guards of [transition]. *)
Definition validated (sm : StateManager.t) (newState : string) : bool :=
  StateManager.truthy (readProp StateManager.STATES newState)
  && match readProp StateManager.TRANSITIONS (StateManager.currentState sm) with
     | Own arr => includes arr newState
     | _ => false
     end.

(** The line an operation has to write when it commits a transition in
    state [s]; [None] when it commits none. *)
Definition commits (o : Op) (s : StateManager.t * World) : option Event :=
  let previousState := StateManager.currentState (fst s) in
  let now := clock (snd s) in
  match o with
  | OpTransition newState =>
      if validated (fst s) newState
      then Some (commitLine false previousState newState now) else None
  | OpForceTransition newState =>
      if StateManager.truthy (readProp StateManager.STATES newState)
      then Some (commitLine true previousState newState now) else None
  | OpReset => Some (commitLine true previousState "IDLE" now)
  | _ => None
  end.

(** Everything a committed transition leaves behind: the manager's fields
    after it and the events of the call. *)
Definition observe (o : Op) (s : StateManager.t * World)
  : StateManager.t * list Event :=
  (fst (runOp o s), emitted (snd s) (snd (runOp o s))).

(** The operation does not register the function [f]. *)
Definition registers (f : FnRef) (o : Op) : bool :=
  match o with
  | OpAddListener (VFunction g) => Nat.eqb f g
  | _ => false
  end.

(** ** Runs of the voice coordinator *)

(** What can happen to a coordinator: any method of the engine called at any
    time, the events the two capabilities deliver to its handlers,
    observers registered on the shared state manager, the application's
    own entry points with their calls on the state manager, and time
    passing. *)
Inductive Action :=
| StartListening
| StopListening
| Speak (text : string) (lang : option string)
| CancelSpeech
| SetRecognitionLanguage (langCode : string)
| SetSynthesisLanguage (langCode : string)
| OnTranscript (callback : FnRef)
| OnError (callback : FnRef)
| AddListener (callback : JsValue)
| RemoveListener (callback : JsValue)
| RecognitionStarted
| RecognitionEnded
| RecognitionResult (text : string) (confidence : Q)
| RecognitionError (error : string)
| UtteranceStarted (text : string)
| UtteranceEnded
| UtteranceError (error : string)
| AppMicClick (languagesValid : bool)
| AppSwitchLesson (success : bool) (intro : string)
| AppHandleTranscript (responseText : string)
| AppUtteranceError (error : string)
| Tick (ms : Z).

(** When an action can happen.  A result, an error or the end of
    recognition may arrive at any time: the handlers of the engine are
    called by the browser, also for a session that was asked to stop.  The
    rendering capability completes an utterance only while one is in
    flight.  The application answers a transcript from its transcript
    callback, which the engine calls once it has entered PROCESSING.
    [AppUtteranceError] is the failure of an utterance the application
    asked for: the engine's handler, then the [catch] block of
    [speakResponse]. *)
Definition enabled (a : Action) (s : VoiceEngine.t * World) : bool :=
  match a with
  | UtteranceStarted _ =>
      match render (snd s) with Rendering => true | _ => false end
  | UtteranceEnded | UtteranceError _ | AppUtteranceError _ =>
      match render (snd s) with RenderIdle => false | _ => true end
  | AppHandleTranscript _ =>
      String.eqb
        (StateManager.currentState (VoiceEngine.stateManager (fst s)))
        "PROCESSING"
  | _ => true
  end.

(** What the capability itself does when it delivers the event: an ended
    or failed recognition has closed its session, a completed utterance is
    no longer rendered. *)
Definition deliver (a : Action) (w : World) : World :=
  match a with
  | RecognitionEnded | RecognitionError _ =>
      mkWorld (clock w) (trace w) CaptureIdle (recognition_lang w) (render w) (fnBody w)
  | UtteranceEnded | UtteranceError _ | AppUtteranceError _ =>
      mkWorld (clock w) (trace w) (capture w) (recognition_lang w) RenderIdle (fnBody w)
  | Tick ms => setClock ms w
  | _ => w
  end.

Definition handler (a : Action) : M VoiceEngine.t unit :=
  match a with
  | StartListening => VoiceEngine.startListening ;; ret tt
  | StopListening => VoiceEngine.stopListening
  | Speak text lang => VoiceEngine.speak text lang ;; ret tt
  | CancelSpeech => VoiceEngine.cancelSpeech
  | SetRecognitionLanguage langCode => VoiceEngine.setRecognitionLanguage langCode
  | SetSynthesisLanguage langCode => VoiceEngine.setSynthesisLanguage langCode
  | OnTranscript callback => VoiceEngine.onTranscript callback
  | OnError callback => VoiceEngine.onError callback
  | AddListener callback =>
      VoiceEngine.onStateManager (StateManager.addListener callback)
  | RemoveListener callback =>
      VoiceEngine.onStateManager (StateManager.removeListener callback)
  | RecognitionStarted => VoiceEngine.recognition_onstart
  | RecognitionEnded => VoiceEngine.recognition_onend
  | RecognitionResult text confidence => VoiceEngine.recognition_onresult text confidence
  | RecognitionError error => VoiceEngine.recognition_onerror error
  | UtteranceStarted text => VoiceEngine.utterance_onstart text
  | UtteranceEnded => VoiceEngine.utterance_onend
  | UtteranceError error => VoiceEngine.utterance_onerror error
  | AppMicClick languagesValid => LinguaBridgeApp.handleMicClick languagesValid
  | AppSwitchLesson success intro => LinguaBridgeApp.switchLesson success intro
  | AppHandleTranscript responseText => LinguaBridgeApp.handleTranscript responseText
  | AppUtteranceError error =>
      VoiceEngine.utterance_onerror error ;;
      LinguaBridgeApp.speakResponse_catch (VError "Error" error)
  | Tick _ => ret tt
  end.

Definition step (a : Action) (s : VoiceEngine.t * World) : VoiceEngine.t * World :=
  after (handler a) (fst s, deliver a (snd s)).

(** The states of a coordinator built on a fresh state manager while both
    capabilities are at rest, and driven by enabled actions from there.
    The phase is moved by the engine and by the application's entry points
    above; no other writer of the state manager is in the program. *)
Inductive reachable : VoiceEngine.t * World -> Prop :=
| reachable_new : forall recognitionSupported synthesisSupported w,
    capture w = CaptureIdle ->
    render w = RenderIdle ->
    reachable (VoiceEngine.constructor StateManager.new
                 recognitionSupported synthesisSupported w)
| reachable_step : forall a s,
    reachable s ->
    enabled a s = true ->
    reachable (step a s).

Definition phase (s : VoiceEngine.t * World) : string :=
  StateManager.currentState (VoiceEngine.stateManager (fst s)).

Definition captureActive (w : World) : bool :=
  match capture w with Capturing => true | _ => false end.

Definition renderingActive (w : World) : bool :=
  match render w with Rendering => true | _ => false end.

(** The strings a function value was called with, as sole argument, among
    some calls: the form in which the engine calls its error callback. *)
Fixpoint messagesTo (f : FnRef) (cs : list (FnRef * list JsValue)) : list string :=
  match cs with
  | [] => []
  | (g, [VString message]) :: cs' =>
      if Nat.eqb f g then message :: messagesTo f cs' else messagesTo f cs'
  | _ :: cs' => messagesTo f cs'
  end.

(** The line [log] writes, when [debugMode] is on. *)
Definition logged (debug : bool) (level : Level) (prefix : string) (now : Z)
    (message : string) : list Event :=
  if debug then [Console level prefix (toLocaleTimeString now) message] else [].

(** The notification a listener receives. *)
Definition notification (previousState newState : string) (f : FnRef)
  : FnRef * list JsValue :=
  (f, [VString previousState; VString newState]).

(** The record of a committed transition on the console, when [debugMode]
    is on. *)
Definition commitLogged (debug forced : bool) (previousState newState : string)
    (now : Z) : list Event :=
  if debug then [commitLine forced previousState newState now] else [].

(** ** Worlds and callbacks for the examples *)

(** Every function returns. *)
Definition quiet : FnRef -> list Event -> list JsValue -> Completion unit :=
  fun _ _ _ => Normal tt.

(** The function [bad] does [throw null]; every other function returns. *)
Definition throwsNull (bad : FnRef)
  : FnRef -> list Event -> list JsValue -> Completion unit :=
  fun f _ _ => if Nat.eqb f bad then Abrupt VNull else Normal tt.

(** The function [bad] does [throw new Error("boom")]; every other function
    returns. *)
Definition throwsError (bad : FnRef)
  : FnRef -> list Event -> list JsValue -> Completion unit :=
  fun f _ _ => if Nat.eqb f bad then Abrupt (VError "Error" "boom") else Normal tt.

(** A world at time [now] in which nothing has happened yet. *)
Definition freshWorld (now : Z)
    (body : FnRef -> list Event -> list JsValue -> Completion unit) : World :=
  mkWorld now [] CaptureIdle EmptyString RenderIdle body.

Definition runActions (actions : list Action) (s : VoiceEngine.t * World)
  : VoiceEngine.t * World :=
  fold_left (fun s a => step a s) actions s.

(** Every action is enabled when its turn comes. *)
Fixpoint allEnabled (actions : list Action) (s : VoiceEngine.t * World) : bool :=
  match actions with
  | [] => true
  | a :: actions' => enabled a s && allEnabled actions' (step a s)
  end.

(** A capture error that arrives while an utterance is in flight. *)
Definition errorDuringUtterance (a : Action) (s : VoiceEngine.t * World) : bool :=
  match a with
  | RecognitionError _ =>
      match render (snd s) with RenderIdle => false | _ => true end
  | _ => false
  end.

(** No action is such an error when its turn comes. *)
Fixpoint noErrorDuringUtterance (actions : list Action) (s : VoiceEngine.t * World)
  : bool :=
  match actions with
  | [] => true
  | a :: actions' =>
      negb (errorDuringUtterance a s) && noErrorDuringUtterance actions' (step a s)
  end.

(** An engine on a fresh state manager, its error callback set to function
    7 and its transcript callback to function 5, one listener (function 1)
    on the manager; [recognitionSupported] tells whether the browser has
    the capture capability. *)
Definition exampleEngine (recognitionSupported : bool) (now : Z)
    (body : FnRef -> list Event -> list JsValue -> Completion unit)
  : VoiceEngine.t * World :=
  runActions [OnError 7%nat; OnTranscript 5%nat; AddListener (VFunction 1%nat)]
    (VoiceEngine.constructor StateManager.new recognitionSupported true
       (freshWorld now body)).

Definition notSupportedMessage : string :=
  "Speech recognition is not supported in your browser.".

Definition noMicrophoneMessage : string :=
  "No microphone detected. Please check your device.".

Definition accessDeniedMessage : string :=
  "Microphone access denied. Please allow microphone access.".


(** ** Frame conditions and the invariant of the coordinator *)

(** A method relates the state and world it starts in to the ones it
    leaves by [R], whatever its completion. *)
Definition keeps {S A} (R : S * World -> S * World -> Prop) (m : M S A) : Prop :=
  forall s w, R (s, w) (after m (s, w)).

(** The engine still has, or still lacks, its recognition object, and the
    two capabilities are where they were. *)
Definition sameCapabilities (s s' : VoiceEngine.t * World) : Prop :=
  VoiceEngine.recognition (fst s') = VoiceEngine.recognition (fst s)
  /\ capture (snd s') = capture (snd s)
  /\ render (snd s') = render (snd s).

(** Moreover the phase is what it was. *)
Definition sameSession (s s' : VoiceEngine.t * World) : Prop :=
  sameCapabilities s s' /\ phase s' = phase s.

(** Capture may have been started, by an engine that has a recognition
    object; rendering is where it was. *)
Definition mayStartCapture (s s' : VoiceEngine.t * World) : Prop :=
  VoiceEngine.recognition (fst s') = VoiceEngine.recognition (fst s)
  /\ render (snd s') = render (snd s)
  /\ (capture (snd s') = capture (snd s) \/ VoiceEngine.recognition (fst s) = true).

(** Capture may have been stopped; nothing else moved. *)
Definition mayStopCapture (s s' : VoiceEngine.t * World) : Prop :=
  VoiceEngine.recognition (fst s') = VoiceEngine.recognition (fst s)
  /\ render (snd s') = render (snd s)
  /\ phase s' = phase s
  /\ (capture (snd s') = Capturing -> capture (snd s) = Capturing).

(** Rendering may have been cancelled; nothing else moved. *)
Definition mayCancelRender (s s' : VoiceEngine.t * World) : Prop :=
  VoiceEngine.recognition (fst s') = VoiceEngine.recognition (fst s)
  /\ capture (snd s') = capture (snd s)
  /\ phase s' = phase s
  /\ (render (snd s') <> RenderIdle -> render (snd s) <> RenderIdle).

(** Capture may have been started, by an engine that has a recognition
    object, or stopped; whatever else moved. *)
Definition mayCapture (s s' : VoiceEngine.t * World) : Prop :=
  VoiceEngine.recognition (fst s') = VoiceEngine.recognition (fst s)
  /\ (capture (snd s') = Capturing ->
      capture (snd s) = Capturing \/ VoiceEngine.recognition (fst s) = true).

(** While an utterance is in flight the phase is SPEAKING and capture is
    not active; capture is active only in an engine that has a recognition
    object.  (The first half is kept as long as no capture error arrives
    during an utterance; the second half always.) *)
Definition Inv (s : VoiceEngine.t * World) : Prop :=
  (render (snd s) <> RenderIdle ->
   phase s = "SPEAKING" /\ capture (snd s) <> Capturing)
  /\ (capture (snd s) = Capturing -> VoiceEngine.recognition (fst s) = true).

(** The events the state manager is the source of: console lines and calls
    of listeners. *)
Definition managerEvent (ev : Event) : Prop :=
  match ev with
  | Console _ _ _ _ | Call _ _ => True
  | _ => False
  end.

(** The world in which [speak] asks for the transition to SPEAKING: a
    rendering in progress has been cancelled, and capture stopped by an
    engine that has a recognition object. *)
Definition quiesced (e : VoiceEngine.t) (w : World) : World :=
  let w1 :=
    match render w with
    | Rendering =>
        addEvents (renderCancelled w)
          (logged (VoiceEngine.debugMode e) Info "[VoiceEngine]" (clock w)
                  "Cancelled previous speech")
    | _ => w
    end in
  if VoiceEngine.recognition e then captureStopped w1 else w1.

(** The events of getting there. *)
Definition quiescedEvents (e : VoiceEngine.t) (w : World) : list Event :=
  match render w with
  | Rendering =>
      SynthesisCancel
        :: logged (VoiceEngine.debugMode e) Info "[VoiceEngine]" (clock w)
                  "Cancelled previous speech"
  | _ => []
  end
  ++ (if VoiceEngine.recognition e then [RecognitionStop] else []).

Definition notSpeak (ev : Event) : Prop :=
  match ev with
  | SynthesisSpeak _ _ => False
  | _ => True
  end.

(** The arguments of the calls of one function, in order. *)
Definition argsTo (f : FnRef) (cs : list (FnRef * list JsValue)) : list (list JsValue) :=
  map snd (filter (fun c => Nat.eqb (fst c) f) cs).

(** A whole turn: listen, hear "hola" at confidence 0.9, answer while the
    recognition ends, finish speaking. *)
Definition holaTurn : list Action :=
  [StartListening; RecognitionResult "hola" (9 # 10); Speak "Muy bien" None;
   RecognitionEnded; UtteranceEnded].

(** The calls the engine makes on the two capabilities. *)
Definition isCapabilityCall (ev : Event) : bool :=
  match ev with
  | RecognitionStart _ | RecognitionStop | SynthesisCancel | SynthesisSpeak _ _ => true
  | _ => false
  end.

(** ** Keys that arrive from outside, and lists read at a random index *)

(** A language code or a lesson key comes from the page: a string.  The
    engines use it to index object literals and parsed JSON; the model
    follows them for every key that does not name a property of
    [Object.prototype]. *)
Definition isPrototypeKey (key : string) : bool :=
  existsb (String.eqb key) objectPrototypeKeys.

Record Key := mkKey {
  keyName : string;
  keyOrdinary : isPrototypeKey keyName = false
}.

(** Two keys the code writes as literals. *)
Definition en : Key := mkKey "en" eq_refl.
Definition es : Key := mkKey "es" eq_refl.

(** [obj[key]] for such a key: the own property, or [undefined]. *)
Definition prop {A} (obj : list (string * A)) (key : Key) : option A :=
  ownProp obj (keyName key).

(** An object whose keys are such keys, in the order of [Object.keys]:
    [obj[key]] and [obj[key] = a]. *)
Fixpoint getProp {A} (obj : list (Key * A)) (key : Key) : option A :=
  match obj with
  | [] => None
  | (k, a) :: obj' =>
      if String.eqb (keyName k) (keyName key) then Some a else getProp obj' key
  end.

Fixpoint setProp {A} (obj : list (Key * A)) (key : Key) (a : A) : list (Key * A) :=
  match obj with
  | [] => [(key, a)]
  | (k, b) :: obj' =>
      if String.eqb (keyName k) (keyName key) then (k, a) :: obj'
      else (k, b) :: setProp obj' key a
  end.

(** [Math.floor(Math.random() * n)] is some index below [n], and 0 when [n]
    is 0.  The number drawn is an input of the model: [draw] stands for the
    random number, and every index below [n] is the index of some draw. *)
Definition randomIndex (draw n : nat) : nat :=
  match n with
  | O => O
  | _ => (draw mod n)%nat
  end.

(** A value that may be [null] or [undefined]. *)
Inductive Maybe (A : Type) :=
| Just (a : A)
| Null
| Undefined.
Arguments Just {A} a.
Arguments Null {A}.
Arguments Undefined {A}.

(** [array[i]] *)
Definition at_ {A} (array : list A) (i : nat) : Maybe A :=
  match nth_error array i with
  | Some a => Just a
  | None => Undefined
  end.

(** How a template literal prints a string that may be [undefined]. *)
Definition show (s : option string) : string :=
  match s with
  | Some s => s
  | None => "undefined"
  end.

(** [if (s)] for a string that may be [null] or [undefined]. *)
Definition truthyString (s : option string) : bool :=
  match s with
  | Some s => negb (String.eqb s EmptyString)
  | None => false
  end.

(** [s.split(sep)] for a separator of one character. *)
Fixpoint split (sep : ascii) (s : string) : list string :=
  match s with
  | EmptyString => [EmptyString]
  | String c s' =>
      if Ascii.eqb c sep then EmptyString :: split sep s'
      else
        match split sep s' with
        | word :: words => String c word :: words
        | [] => [String c EmptyString]
        end
  end.

(** [s.includes(pattern)] on strings *)
Fixpoint string_includes (s pattern : string) : bool :=
  String.prefix pattern s
  || match s with
     | EmptyString => false
     | String _ s' => string_includes s' pattern
     end.

(** [x > y] on the quotients the language engine compares.  They are
    quotients of two word counts and the literals 0.8 and 0.5; on such
    numbers the comparison of the doubles is the comparison of the
    fractions (as long as a sentence has fewer than 2^50 words). *)
Definition Qgt_bool (x y : Q) : bool := negb (Qle_bool x y).

(** A completion computed without touching the state or the world. *)
Definition liftC {S A} (c : Completion A) : M S A := fun s w => (c, s, w).

(** A phrase of a lesson, as the JSON of the page gives it: the English
    [text] and one string per language code. *)
Definition Phrase := list (string * string).

(** ** [class LanguageEngine] *)
Module LanguageEngine.

Record HistoryEntry := mkEntry {
  input : string;
  timestamp : Z
}.

(** The fields the methods read or write.  ([translations] and
    [currentTopic] are set by the constructor and never read; the three
    tables of [initializePatterns] are never written again and stand below
    as constants.) *)
Record t := mk {
  nativeLanguage : Key;
  learningLanguage : Key;
  conversationHistory : list HistoryEntry
}.

Definition greetingPatterns : list (string * list string) :=
  [ ("en", ["hello"; "hi"; "hey"; "good morning"; "good evening"; "goodbye"; "bye"]);
    ("es", ["hola"; "buenos días"; "buenas tardes"; "buenas noches"; "adiós";
            "hasta luego"]);
    ("de", ["hallo"; "guten morgen"; "guten tag"; "guten abend"; "auf wiedersehen";
            "tschüss"]);
    ("fr", ["bonjour"; "salut"; "bonsoir"; "au revoir"; "à bientôt"]) ].

Definition introPatterns : list (string * list string) :=
  [ ("en", ["my name is"; "i am"; "i'm"; "what is your name"; "how are you"]);
    ("es", ["me llamo"; "soy"; "cómo te llamas"; "cómo estás"; "qué tal"]);
    ("de", ["ich heiße"; "ich bin"; "wie heißt du"; "wie geht es dir"]);
    ("fr", ["je m'appelle"; "je suis"; "comment tu t'appelles"; "comment ça va"]) ].

Definition encouragements : list (string * list string) :=
  [ ("en", ["Great job!"; "Well done!"; "Excellent!"; "You're doing great!";
            "Perfect!"; "Nice work!"; "Keep it up!"]);
    ("es", ["¡Muy bien!"; "¡Excelente!"; "¡Perfecto!"; "¡Buen trabajo!"; "¡Genial!";
            "¡Sigue así!"]);
    ("de", ["Sehr gut!"; "Ausgezeichnet!"; "Perfekt!"; "Gut gemacht!"; "Prima!";
            "Weiter so!"]);
    ("fr", ["Très bien!"; "Excellent!"; "Parfait!"; "Bien joué!"; "Génial!";
            "Continue comme ça!"]) ].

(** What [analyzeAndRespond] is given as [context]: the object
    [LessonEngine.getContext] builds, or [{}], whose properties are all
    [undefined]. *)
Record Context := mkContext {
  lessonKey : option Key;
  lessonTitle : option string;
  expectedPhrases : option (list Phrase);
  prompts : option (list string);
  phraseIndex : option nat;
  attempts : option nat
}.

Definition emptyContext : Context := mkContext None None None None None None.

(** The response object: [correction], [explanation] and [encouragement]
    are [null] or a string, [nextPrompt] is [undefined] until
    [analyzeAndRespond] sets it. *)
Record Response := mkResponse {
  correction : option string;
  explanation : option string;
  encouragement : option string;
  type : string;
  nextPrompt : option string
}.

(** [log(message, level)] *)
Definition log (message : string) (level : Level) : M t unit :=
  w <- world ;;
  effect (emit (Console level "[LanguageEngine]" (toLocaleTimeString (clock w)) message)).

(** [constructor()], once the translations are loaded *)
Definition constructor : World -> t * World :=
  fun w =>
    match log "Language Engine initialized" Info (mk en es []) w with
    | (_, this, w') => (this, w')
    end.

(** [calculateSimilarity(str1, str2)] *)
Definition calculateSimilarity (str1 str2 : string) : Q :=
  let words1 := split " " str1 in
  let words2 := split " " str2 in
  let matches :=
    fold_left (fun matches word => if includes words2 word then S matches else matches)
              words1 O in
  let maxLength := Nat.max (List.length words1) (List.length words2) in
  if (0 <? maxLength)%nat then (Z.of_nat matches # Pos.of_nat maxLength)%Q else 0%Q.

(** [getLanguageName(code)] *)
Definition getLanguageName (code : Key) : string :=
  let names := [("en", "English"); ("es", "Spanish"); ("de", "German");
                ("fr", "French")] in
  match prop names code with
  | Some name => name
  | None => keyName code
  end.

(** [getRandomEncouragement()] *)
Definition getRandomEncouragement (this : t) (draw : nat) : option string :=
  let phrases :=
    match prop encouragements (learningLanguage this) with
    | Some phrases => phrases
    | None =>
        match ownProp encouragements "en" with
        | Some phrases => phrases
        | None => []
        end
    end in
  nth_error phrases (randomIndex draw (List.length phrases)).

Section ToLowerCase.

(** [String.prototype.toLowerCase] is the built-in's: the model takes it as
    given. *)
Variable toLowerCase : string -> string.

(** The loop of [checkAgainstExpected] over the expected phrases, with
    [bestMatch] and [bestSimilarity] as it goes. *)
Fixpoint closestMatch (lang : Key) (input : string) (expectedPhrases : list Phrase)
    (best : option Phrase * Q) : Completion (option Phrase * Q) :=
  match expectedPhrases with
  | [] => Normal best
  | phrase :: rest =>
      match prop phrase lang with
      | None =>
          Abrupt (VError "TypeError"
                    "Cannot read properties of undefined (reading 'toLowerCase')")
      | Some target =>
          let targetText := toLowerCase target in
          let similarity := calculateSimilarity input targetText in
          closestMatch lang input rest
            (if Qgt_bool similarity (snd best) then (Some phrase, similarity) else best)
      end
  end.

(** [checkAgainstExpected(input, expectedPhrases)] *)
Definition checkAgainstExpected (this : t) (draw : nat) (input : string)
    (expectedPhrases : list Phrase) : Completion Response :=
  let lang := learningLanguage this in
  match closestMatch lang input expectedPhrases (None, 0%Q) with
  | Abrupt v => Abrupt v
  | Normal (bestMatch, bestSimilarity) =>
      if Qgt_bool bestSimilarity (8 # 10) then
        match bestMatch with
        | None => Abrupt (VError "TypeError" "Cannot read properties of null")
        | Some bestMatch =>
            Normal
              (mkResponse
                 (prop bestMatch lang)
                 (Some ("Perfect! That's how you say " ++ dquote
                          ++ show (ownProp bestMatch "text") ++ dquote ++ " in "
                          ++ getLanguageName lang ++ ".")%string)
                 (getRandomEncouragement this draw)
                 "practice" None)
        end
      else if Qgt_bool bestSimilarity (5 # 10) then
        match bestMatch with
        | None => Abrupt (VError "TypeError" "Cannot read properties of null")
        | Some bestMatch =>
            Normal
              (mkResponse
                 (prop bestMatch lang)
                 (Some ("Close! You said " ++ dquote ++ input ++ dquote
                          ++ ", but the correct phrase is " ++ dquote
                          ++ show (prop bestMatch lang) ++ dquote
                          ++ ". Remember to pay attention to pronunciation.")%string)
                 (Some "Don't worry, practice makes perfect!")
                 "practice" None)
        end
      else
        Normal
          (mkResponse
             None
             (Some ("I heard " ++ dquote ++ input ++ dquote
                      ++ ". That's interesting! Let me help you with the phrase we're practicing."
                      ++ match expectedPhrases with
                         | example :: _ =>
                             " Try saying: " ++ dquote ++ show (prop example lang)
                               ++ dquote
                         | [] => EmptyString
                         end)%string)
             (Some "Let's try again together!")
             "practice" None)
  end.

(** [patterns[this.learningLanguage].some(pattern => input.includes(pattern))] *)
Definition somePattern (patterns : list (string * list string)) (lang : Key)
    (input : string) : Completion bool :=
  match prop patterns lang with
  | Some patterns => Normal (existsb (string_includes input) patterns)
  | None =>
      Abrupt (VError "TypeError" "Cannot read properties of undefined (reading 'some')")
  end.

(** [generalAnalysis(input)] *)
Definition generalAnalysis (this : t) (draw : nat) (input : string)
  : Completion Response :=
  let lang := learningLanguage this in
  match somePattern greetingPatterns lang input with
  | Abrupt v => Abrupt v
  | Normal true =>
      Normal
        (mkResponse (Some input)
           (Some ("Nice! You greeted me in " ++ getLanguageName lang ++ ".")%string)
           (getRandomEncouragement this draw) "conversation" None)
  | Normal false =>
      match somePattern introPatterns lang input with
      | Abrupt v => Abrupt v
      | Normal true =>
          Normal
            (mkResponse (Some input)
               (Some ("Great! You're introducing yourself in "
                        ++ getLanguageName lang ++ ".")%string)
               (getRandomEncouragement this draw) "conversation" None)
      | Normal false =>
          Normal
            (mkResponse None
               (Some ("I heard you say: " ++ dquote ++ input ++ dquote
                        ++ ". That's a good attempt!")%string)
               (Some "Keep practicing, and you'll improve quickly!")
               "conversation" None)
      end
  end.

(** [generateNextPrompt(context)] *)
Definition generateNextPrompt (this : t) (draw : nat) (context : Context)
  : option string :=
  let prompts := match prompts context with Some prompts => prompts | None => [] end in
  if (0 <? List.length prompts)%nat then
    nth_error prompts (randomIndex draw (List.length prompts))
  else
    let defaultPrompts :=
      [("en", "Can you introduce yourself?"); ("es", "Try greeting me in Spanish!");
       ("de", "Try saying hello in German!"); ("fr", "Try greeting me in French!")] in
    match prop defaultPrompts (learningLanguage this) with
    | Some prompt => Some prompt
    | None => Some "What would you like to practice?"
    end.

(** [analyzeAndRespond(userInput, context)]; [encouragementDraw] and
    [promptDraw] stand for the two random numbers it may draw. *)
Definition analyzeAndRespond (encouragementDraw promptDraw : nat)
    (userInput : string) (context : Context) : M t Response :=
  log ("Analyzing: " ++ dquote ++ userInput ++ dquote) Info ;;
  let normalized := trim (toLowerCase userInput) in
  w <- world ;;
  this <- get ;;
  put (mk (nativeLanguage this) (learningLanguage this)
          (conversationHistory this ++ [mkEntry normalized (clock w)])) ;;
  this <- get ;;
  response <-
    liftC (match expectedPhrases context with
           | Some (phrase :: phrases) =>
               checkAgainstExpected this encouragementDraw normalized
                 (phrase :: phrases)
           | _ => generalAnalysis this encouragementDraw normalized
           end) ;;
  ret (mkResponse (correction response) (explanation response)
         (encouragement response) (type response)
         (generateNextPrompt this promptDraw context)).

End ToLowerCase.

(** [setNativeLanguage(langCode)] *)
Definition setNativeLanguage (langCode : Key) : M t unit :=
  this <- get ;;
  put (mk langCode (learningLanguage this) (conversationHistory this)) ;;
  log ("Native language set to " ++ keyName langCode) Info.

(** [setLearningLanguage(langCode)] *)
Definition setLearningLanguage (langCode : Key) : M t unit :=
  this <- get ;;
  put (mk (nativeLanguage this) langCode (conversationHistory this)) ;;
  log ("Learning language set to " ++ keyName langCode) Info.

(** [formatResponse(response)] *)
Definition formatResponse (response : Response) : string :=
  let formatted := EmptyString in
  let formatted :=
    if truthyString (correction response)
    then (formatted ++ show (correction response) ++ ". ")%string else formatted in
  let formatted :=
    if truthyString (explanation response)
    then (formatted ++ show (explanation response) ++ " ")%string else formatted in
  let formatted :=
    if truthyString (encouragement response)
    then (formatted ++ show (encouragement response) ++ " ")%string else formatted in
  let formatted :=
    if truthyString (nextPrompt response)
    then (formatted ++ show (nextPrompt response))%string else formatted in
  trim formatted.

(** [getHistory()] *)
Definition getHistory : M t (list HistoryEntry) :=
  this <- get ;; ret (conversationHistory this).

(** [clearHistory()] *)
Definition clearHistory : M t unit :=
  this <- get ;;
  put (mk (nativeLanguage this) (learningLanguage this) []) ;;
  log "Conversation history cleared" Info.

End LanguageEngine.

(** ** [class LessonEngine] *)
Module LessonEngine.

(** A lesson and the progress kept for it, as the JSON of the page and
    [initializeProgress] give them. *)
Record Lesson := mkLesson {
  title : string;
  icon : string;
  intro : string;
  phrases : list Phrase;
  prompts : list string
}.

Record Progress := mkProgress {
  started : bool;
  completed : bool;
  phrasesCompleted : nat;
  totalPhrases : nat;
  lastAccessed : option Z        (* null, or Date.now() *)
}.

(** [this.lessonProgress] holds a reference to an object that maps lesson
    keys to progress; [exportProgress] hands the same reference out, and
    [importProgress] takes one in.  The objects live in a heap; a reference
    is an index into it. *)
Definition ProgressObject := list (Key * Progress).
Definition Ref := nat.
Definition Heap := list ProgressObject.

Definition deref (heap : Heap) (r : Ref) : ProgressObject := nth r heap [].

Fixpoint store (heap : Heap) (r : Ref) (o : ProgressObject) : Heap :=
  match heap, r with
  | [], _ => []
  | _ :: heap', O => o :: heap'
  | o' :: heap', S r' => o' :: store heap' r' o
  end.

Record t := mk {
  lessons : list (Key * Lesson);
  currentLesson : Key;
  currentPhraseIndex : nat;
  practiceAttempts : nat;
  lessonProgress : Ref
}.

(** A method runs on the heap and the fields of [this]. *)
Definition read : M (Heap * t) t := s <- get ;; ret (snd s).

Definition write (this : t) : M (Heap * t) unit := s <- get ;; put (fst s, this).

Definition progressAt (r : Ref) : M (Heap * t) ProgressObject :=
  s <- get ;; ret (deref (fst s) r).

Definition setProgressAt (r : Ref) (o : ProgressObject) : M (Heap * t) unit :=
  s <- get ;; put (store (fst s) r o, snd s).

Definition newObject (o : ProgressObject) : M (Heap * t) Ref :=
  s <- get ;; put (fst s ++ [o], snd s) ;; ret (List.length (fst s)).

(** [log(message, level)] *)
Definition log (message : string) (level : Level) : M (Heap * t) unit :=
  w <- world ;;
  effect (emit (Console level "[LessonEngine]" (toLocaleTimeString (clock w)) message)).

(** The progress object of a lesson that has not been touched. *)
Definition untouched (lesson : Lesson) : Progress :=
  mkProgress false false 0 (List.length (phrases lesson)) None.

(** The loop of [initializeProgress] over [Object.keys(this.lessons)]. *)
Fixpoint freshProgress (lessons : list (Key * Lesson)) (keys : list Key)
    (progress : ProgressObject) : Completion ProgressObject :=
  match keys with
  | [] => Normal progress
  | lessonKey :: keys' =>
      match getProp lessons lessonKey with
      | Some lesson =>
          freshProgress lessons keys' (setProp progress lessonKey (untouched lesson))
      | None =>
          Abrupt (VError "TypeError"
                    "Cannot read properties of undefined (reading 'phrases')")
      end
  end.

(** [initializeProgress()]: the new object, filled. *)
Definition initializeProgress : M (Heap * t) Ref :=
  this <- read ;;
  progress <- liftC (freshProgress (lessons this) (map fst (lessons this)) []) ;;
  newObject progress.

Definition greetings : Key := mkKey "greetings" eq_refl.

(** [constructor()], for the lessons [loadLessons()] has read from the
    page.  ([lessonProgress] has no value until [initializeProgress] has
    returned one; nothing reads it before.) *)
Definition constructor (lessons : list (Key * Lesson)) (heap : Heap)
  : World -> Completion unit * (Heap * t) * World :=
  (progress <- initializeProgress ;;
   write (mk lessons greetings 0 0 progress) ;;
   log "Lesson Engine initialized" Info)
    (heap, mk lessons greetings 0 0 0%nat).

(** [getLesson(lessonKey)]; [None] is [null]. *)
Definition getLesson (this : t) (lessonKey : Key) : option Lesson :=
  getProp (lessons this) lessonKey.

(** [getCurrentLesson()] *)
Definition getCurrentLesson (this : t) : option Lesson :=
  getLesson this (currentLesson this).

(** [this.lessonProgress[lessonKey].field = value], for the field [field]
    that [update] sets. *)
Definition setProgressField (lessonKey : Key) (field : string)
    (update : Progress -> Progress) : M (Heap * t) unit :=
  this <- read ;;
  progress <- progressAt (lessonProgress this) ;;
  match getProp progress lessonKey with
  | Some p => setProgressAt (lessonProgress this) (setProp progress lessonKey (update p))
  | None =>
      throw (VError "TypeError"
               ("Cannot set properties of undefined (setting '" ++ field ++ "')"))
  end.

(** [switchLesson(lessonKey)] *)
Definition switchLesson (lessonKey : Key) : M (Heap * t) bool :=
  this <- read ;;
  match getProp (lessons this) lessonKey with
  | None =>
      log ("Lesson " ++ dquote ++ keyName lessonKey ++ dquote ++ " not found") Error ;;
      ret false
  | Some _ =>
      write (mk (lessons this) lessonKey 0 0 (lessonProgress this)) ;;
      setProgressField lessonKey "started"
        (fun p => mkProgress true (completed p) (phrasesCompleted p) (totalPhrases p)
                             (lastAccessed p)) ;;
      w <- world ;;
      setProgressField lessonKey "lastAccessed"
        (fun p => mkProgress (started p) (completed p) (phrasesCompleted p)
                             (totalPhrases p) (Some (clock w))) ;;
      log ("Switched to lesson: " ++ keyName lessonKey) Info ;;
      ret true
  end.

(** [getLessonIntro()] *)
Definition getLessonIntro (this : t) : string :=
  match getCurrentLesson this with
  | Some lesson => intro lesson
  | None => "Welcome! Let's start practicing."
  end.

(** [getLessonPhrases()] *)
Definition getLessonPhrases (this : t) : list Phrase :=
  match getCurrentLesson this with
  | Some lesson => phrases lesson
  | None => []
  end.

(** [getRandomPhrase()] *)
Definition getRandomPhrase (this : t) (draw : nat) : Maybe Phrase :=
  let phrases := getLessonPhrases this in
  if (List.length phrases =? 0)%nat then Null
  else at_ phrases (randomIndex draw (List.length phrases)).

(** [getNextPhrase()] *)
Definition getNextPhrase : M (Heap * t) (Maybe Phrase) :=
  this <- read ;;
  let phrases := getLessonPhrases this in
  if (List.length phrases =? 0)%nat then ret Null
  else
    let phrase := at_ phrases (currentPhraseIndex this) in
    write (mk (lessons this) (currentLesson this)
              ((currentPhraseIndex this + 1) mod List.length phrases)%nat
              (practiceAttempts this) (lessonProgress this)) ;;
    ret phrase.

(** [getLessonPrompts()] *)
Definition getLessonPrompts (this : t) : list string :=
  match getCurrentLesson this with
  | Some lesson => prompts lesson
  | None => []
  end.

(** [getRandomPrompt()] *)
Definition getRandomPrompt (this : t) (draw : nat) : Maybe string :=
  let prompts := getLessonPrompts this in
  if (List.length prompts =? 0)%nat then Just "What would you like to practice?"
  else at_ prompts (randomIndex draw (List.length prompts)).

(** [getContext()] *)
Definition getContext (this : t) : LanguageEngine.Context :=
  LanguageEngine.mkContext
    (Some (currentLesson this))
    (Some match getCurrentLesson this with
          | Some lesson => title lesson
          | None => EmptyString
          end)
    (Some (getLessonPhrases this))
    (Some (getLessonPrompts this))
    (Some (currentPhraseIndex this))
    (Some (practiceAttempts this)).

(** [recordAttempt(successful)] *)
Definition recordAttempt (successful : bool) : M (Heap * t) unit :=
  this <- read ;;
  write (mk (lessons this) (currentLesson this) (currentPhraseIndex this)
            (practiceAttempts this + 1)%nat (lessonProgress this)) ;;
  if successful then
    progress <- progressAt (lessonProgress this) ;;
    match getProp progress (currentLesson this) with
    | None =>
        throw (VError "TypeError"
                 "Cannot read properties of undefined (reading 'phrasesCompleted')")
    | Some p =>
        let p := mkProgress (started p) (completed p) (phrasesCompleted p + 1)%nat
                            (totalPhrases p) (lastAccessed p) in
        setProgressAt (lessonProgress this) (setProp progress (currentLesson this) p) ;;
        if (totalPhrases p <=? phrasesCompleted p)%nat then
          setProgressAt (lessonProgress this)
            (setProp progress (currentLesson this)
               (mkProgress (started p) true (phrasesCompleted p) (totalPhrases p)
                           (lastAccessed p))) ;;
          log ("Lesson " ++ dquote ++ keyName (currentLesson this) ++ dquote
                 ++ " completed!") Info
        else ret tt
    end
  else ret tt.

(** [getLessonProgress(lessonKey)]; [None] is [null]. *)
Definition getLessonProgress (lessonKey : Key) : M (Heap * t) (option Progress) :=
  this <- read ;;
  progress <- progressAt (lessonProgress this) ;;
  ret (getProp progress lessonKey).

(** [getAllLessonKeys()] *)
Definition getAllLessonKeys (this : t) : list Key := map fst (lessons this).

(** [resetLessonProgress(lessonKey)] *)
Definition resetLessonProgress (lessonKey : Key) : M (Heap * t) unit :=
  this <- read ;;
  progress <- progressAt (lessonProgress this) ;;
  match getProp progress lessonKey with
  | None => ret tt
  | Some _ =>
      match getProp (lessons this) lessonKey with
      | None =>
          throw (VError "TypeError"
                   "Cannot read properties of undefined (reading 'phrases')")
      | Some lesson =>
          setProgressAt (lessonProgress this)
            (setProp progress lessonKey (untouched lesson)) ;;
          log ("Progress reset for lesson: " ++ keyName lessonKey) Info
      end
  end.

(** [resetAllProgress()] *)
Definition resetAllProgress : M (Heap * t) unit :=
  progress <- initializeProgress ;;
  this <- read ;;
  write (mk (lessons this) (currentLesson this) 0 0 progress) ;;
  log "All progress reset" Info.

(** [getWelcomeMessage(lessonKey)] *)
Definition getWelcomeMessage (this : t) (lessonKey : Key) : string :=
  match getProp (lessons this) lessonKey with
  | None => "Let's start practicing!"
  | Some lesson =>
      icon lesson ++ " Welcome to " ++ title lesson ++ "! " ++ intro lesson
  end.

(** What [exportProgress] returns and [importProgress] takes: the progress
    object is there by reference. *)
Record ProgressData := mkData {
  dataCurrentLesson : option Key;
  dataLessonProgress : option Ref;
  dataTimestamp : option Z
}.

(** [exportProgress()] *)
Definition exportProgress : M (Heap * t) ProgressData :=
  this <- read ;;
  w <- world ;;
  ret (mkData (Some (currentLesson this)) (Some (lessonProgress this)) (Some (clock w))).

(** [importProgress(data)] *)
Definition importProgress (data : ProgressData) : M (Heap * t) unit :=
  this <- read ;;
  (match dataCurrentLesson data with
   | Some lessonKey =>
       if negb (String.eqb (keyName lessonKey) EmptyString)
          && match getProp (lessons this) lessonKey with Some _ => true | None => false end
       then write (mk (lessons this) lessonKey (currentPhraseIndex this)
                      (practiceAttempts this) (lessonProgress this))
       else ret tt
   | None => ret tt
   end) ;;
  this <- read ;;
  (match dataLessonProgress data with
   | Some progress =>
       write (mk (lessons this) (currentLesson this) (currentPhraseIndex this)
                 (practiceAttempts this) progress)
   | None => ret tt
   end) ;;
  log "Progress imported" Info.

End LessonEngine.

(** ** The phase of a coordinator *)

(** The name of one of the four phases. *)
Definition isPhase (state : string) : Prop := exists p, state = phaseName p.

(** A method that starts in one of the four phases ends in one of them. *)
Definition keepsPhases (s s' : VoiceEngine.t * World) : Prop :=
  isPhase (phase s) -> isPhase (phase s').

(** ** [class LinguaBridgeApp], where it answers a transcript

    The application with its state manager and voice engine (one object,
    held in the engine), its language engine and its lesson engine with
    the heap of progress objects.  As above, what the application writes to
    the console and to the page is left out. *)
Module Application.

Record t := mk {
  voiceEngine : VoiceEngine.t;
  languageEngine : LanguageEngine.t;
  lessonEngine : LessonEngine.t;
  heap : LessonEngine.Heap
}.

(** A method of one of the engines run from the application. *)
Definition onVoiceEngine {A} (m : M VoiceEngine.t A) : M t A :=
  fun this w =>
    match m (voiceEngine this) w with
    | (r, e, w') => (r, mk e (languageEngine this) (lessonEngine this) (heap this), w')
    end.

Definition onLanguageEngine {A} (m : M LanguageEngine.t A) : M t A :=
  fun this w =>
    match m (languageEngine this) w with
    | (r, e, w') => (r, mk (voiceEngine this) e (lessonEngine this) (heap this), w')
    end.

Definition onLessonEngine {A} (m : M (LessonEngine.Heap * LessonEngine.t) A) : M t A :=
  fun this w =>
    match m (heap this, lessonEngine this) w with
    | (r, (h, e), w') => (r, mk (voiceEngine this) (languageEngine this) e h, w')
    end.

(** [handleTranscript(transcript, confidence)]; the two draws are those of
    [analyzeAndRespond]. *)
Definition handleTranscript (toLowerCase : string -> string)
    (encouragementDraw promptDraw : nat) (transcript : string) (confidence : Q)
  : M t unit :=
  this <- get ;;
  let context := LessonEngine.getContext (lessonEngine this) in
  response <- onLanguageEngine
                (LanguageEngine.analyzeAndRespond toLowerCase encouragementDraw
                   promptDraw transcript context) ;;
  let successful := Qgt_bool confidence (7 # 10) in
  onLessonEngine (LessonEngine.recordAttempt successful) ;;
  let responseText := LanguageEngine.formatResponse response in
  onVoiceEngine (LinguaBridgeApp.handleTranscript responseText).

End Application.

(** ** Runs of the lesson engine *)

(** What a learner does in a lesson. *)
Inductive Practice :=
| Attempt (successful : bool)
| SwitchLesson (lessonKey : Key)
| ResetLessonProgress (lessonKey : Key)
| NextPhrase.

Definition practise (p : Practice) : M (LessonEngine.Heap * LessonEngine.t) unit :=
  match p with
  | Attempt successful => LessonEngine.recordAttempt successful
  | SwitchLesson lessonKey => LessonEngine.switchLesson lessonKey ;; ret tt
  | ResetLessonProgress lessonKey => LessonEngine.resetLessonProgress lessonKey
  | NextPhrase => LessonEngine.getNextPhrase ;; ret tt
  end.

Definition practiseAll (ps : list Practice)
    (s : (LessonEngine.Heap * LessonEngine.t) * World)
  : (LessonEngine.Heap * LessonEngine.t) * World :=
  fold_left (fun s p => after (practise p) s) ps s.

(** What [n] calls of [getNextPhrase] return, one after the other. *)
Fixpoint nextPhrases (n : nat) (s : (LessonEngine.Heap * LessonEngine.t) * World)
  : list (Completion (Maybe Phrase)) :=
  match n with
  | O => []
  | S n' =>
      fst (fst (LessonEngine.getNextPhrase (fst s) (snd s)))
        :: nextPhrases n' (after LessonEngine.getNextPhrase s)
  end.

(** Attempts recorded one after the other. *)
Definition recordAttempts (outcomes : list bool)
    (s : (LessonEngine.Heap * LessonEngine.t) * World)
  : (LessonEngine.Heap * LessonEngine.t) * World :=
  fold_left (fun s successful => after (LessonEngine.recordAttempt successful) s)
            outcomes s.

(** The progress object the engine holds, and the progress it has there
    for a lesson. *)
Definition progressObject (s : LessonEngine.Heap * LessonEngine.t)
  : LessonEngine.ProgressObject :=
  LessonEngine.deref (fst s) (LessonEngine.lessonProgress (snd s)).

Definition progressOf (s : LessonEngine.Heap * LessonEngine.t) (lessonKey : Key)
  : option LessonEngine.Progress :=
  getProp (progressObject s) lessonKey.

(** The reference the engine holds points into the heap. *)
Definition allocated (s : LessonEngine.Heap * LessonEngine.t) : Prop :=
  (LessonEngine.lessonProgress (snd s) < List.length (fst s))%nat.

(** A lower-casing of the letters A to Z, for the examples. *)
Definition asciiLowerCase (s : string) : string :=
  string_of_list_ascii
    (map (fun c =>
            let n := nat_of_ascii c in
            if ((65 <=? n) && (n <=? 90))%nat then ascii_of_nat (n + 32) else c)
         (list_ascii_of_string s)).

(** ** Lessons and engines for the examples *)

Definition introductions : Key := mkKey "introductions" eq_refl.

Definition exampleLessons : list (Key * LessonEngine.Lesson) :=
  [ (LessonEngine.greetings,
     LessonEngine.mkLesson "Greetings" "*" "Let's practice greetings."
       [ [("text", "Hello"); ("es", "Hola"); ("de", "Hallo"); ("fr", "Bonjour")];
         [("text", "Good morning"); ("es", "Buenos días"); ("de", "Guten Morgen");
          ("fr", "Bonjour")];
         [("text", "Goodbye"); ("es", "Adiós"); ("de", "Auf Wiedersehen");
          ("fr", "Au revoir")] ]
       ["Say hello!"; "Say goodbye!"]);
    (introductions,
     LessonEngine.mkLesson "Introductions" "*" "Let's practice introductions."
       [ [("text", "My name is"); ("es", "Me llamo"); ("de", "Ich heiße");
          ("fr", "Je m'appelle")] ]
       ["Tell me your name."]) ].

(** A lesson engine built on these lessons, in an empty heap. *)
Definition exampleLessonEngine : LessonEngine.Heap * LessonEngine.t :=
  snd (fst (LessonEngine.constructor exampleLessons [] (freshWorld 0 quiet))).

(** The application once "hola" has been heard: the voice engine is in
    PROCESSING; [learning] is the language learnt. *)
Definition exampleApplication (learning : Key) : Application.t * World :=
  let s := runActions [StartListening; RecognitionResult "hola" (9 # 10)]
             (exampleEngine true 0 quiet) in
  (Application.mk (fst s) (LanguageEngine.mk en learning [])
     (snd exampleLessonEngine) (fst exampleLessonEngine),
   snd s).

(** The response of [checkAgainstExpected], when it returns one. *)
Definition responseOf (c : Completion LanguageEngine.Response)
  : LanguageEngine.Response :=
  match c with
  | Normal response => response
  | Abrupt _ => LanguageEngine.mkResponse None None None EmptyString None
  end.

(** * Properties *)

(** ** Worlds and traces *)

Lemma addEvents_nil (w : World) : addEvents w [] = w.
Proof.
  destruct w; unfold addEvents; simpl. now rewrite app_nil_r.
Qed.

Lemma addEvents_app (w : World) (a b : list Event) :
  addEvents (addEvents w a) b = addEvents w (a ++ b).
Proof.
  unfold addEvents; simpl. now rewrite app_assoc.
Qed.

Lemma emit_addEvents (e : Event) (w : World) : emit e w = addEvents w [e].
Proof. reflexivity. Qed.

Lemma emitted_addEvents (w : World) (evs : list Event) :
  emitted w (addEvents w evs) = evs.
Proof.
  unfold emitted, addEvents; simpl.
  rewrite skipn_app, skipn_all, Nat.sub_diag. reflexivity.
Qed.

(** ** The state manager, method by method *)

Lemma StateManager_log_run (message : string) (level : Level)
    (sm : StateManager.t) (w : World) :
  StateManager.log message level sm w =
  (Normal tt, sm,
   addEvents w (logged (StateManager.debugMode sm) level "[StateManager]"
                       (clock w) message)).
Proof.
  unfold StateManager.log, bind, get, world, effect, ret, logged.
  destruct (StateManager.debugMode sm); simpl.
  - reflexivity.
  - now rewrite addEvents_nil.
Qed.

Lemma calls_app (a b : list Event) : calls (a ++ b) = calls a ++ calls b.
Proof.
  induction a as [|e a IH]; simpl; [reflexivity|].
  destruct e; simpl; now rewrite IH.
Qed.

Lemma calls_logged debug level prefix now message :
  calls (logged debug level prefix now message) = [].
Proof. now destruct debug. Qed.

(** One listener: it is called, and the call of the next one is reached
    unless the listener threw [null] or [undefined]. *)
Lemma notifyOne_run (p n : string) (f : FnRef) (sm : StateManager.t) (w : World) :
  exists r evs,
    StateManager.notifyOne p n f sm w =
    (r, sm, addEvents w (Call f [VString p; VString n] :: evs))
    /\ calls evs = []
    /\ (if throwsNullish (fnBody w f (trace w) [VString p; VString n])
        then exists name message, r = Abrupt (VError name message)
        else r = Normal tt).
Proof.
  unfold StateManager.notifyOne, try_catch, call.
  destruct (fnBody w f (trace w) [VString p; VString n]) as [[]|v] eqn:E.
  - exists (Normal tt), []. simpl. auto.
  - destruct v; simpl; unfold bind, message_of, throw, ret;
      try rewrite StateManager_log_run; rewrite ?emit_addEvents, ?addEvents_app;
      simpl; try (do 2 eexists; repeat split; eauto using calls_logged; fail).
    all: exists (Abrupt (VError "TypeError" _)), []; repeat split; eauto.
Qed.

Lemma safe_addEvents (w : World) (evs : list Event) (f : FnRef) :
  safe (addEvents w evs) f <-> safe w f.
Proof. reflexivity. Qed.

(** Listeners that never throw [null] or [undefined] are all called, once
    each and in the order of the list, whatever else they throw. *)
Lemma forEach_notifyOne_safe (p n : string) (ls : list FnRef) :
  forall (sm : StateManager.t) (w : World),
    (forall f, In f ls -> safe w f) ->
    exists evs,
      forEach (StateManager.notifyOne p n) ls sm w = (Normal tt, sm, addEvents w evs)
      /\ calls evs = map (notification p n) ls.
Proof.
  induction ls as [|f ls IH]; intros sm w Hsafe; simpl.
  - exists []. now rewrite addEvents_nil.
  - unfold bind.
    destruct (notifyOne_run p n f sm w) as (r & evs1 & -> & Hc1 & Hr).
    rewrite (Hsafe f (or_introl eq_refl)) in Hr. subst r.
    destruct (IH sm (addEvents w (Call f [VString p; VString n] :: evs1)))
      as (evs2 & -> & Hc2).
    { intros g Hg. apply safe_addEvents. apply Hsafe. now right. }
    rewrite addEvents_app.
    eexists; split; [reflexivity|].
    rewrite calls_app. simpl. now rewrite Hc1, Hc2.
Qed.

(** Whatever the listeners do, the manager's fields are as before, only
    events are added, and the listeners called are an initial part of the
    list, all of it when the loop completes. *)
Lemma forEach_notifyOne_any (p n : string) (ls : list FnRef) :
  forall (sm : StateManager.t) (w : World),
    exists r evs k,
      forEach (StateManager.notifyOne p n) ls sm w = (r, sm, addEvents w evs)
      /\ calls evs = map (notification p n) (firstn k ls)
      /\ (r = Normal tt -> calls evs = map (notification p n) ls).
Proof.
  induction ls as [|f ls IH]; intros sm w; simpl.
  - exists (Normal tt), [], 0%nat. now rewrite addEvents_nil.
  - unfold bind.
    destruct (notifyOne_run p n f sm w) as (r & evs1 & -> & Hc1 & Hr).
    destruct r as [[]|v].
    + destruct (IH sm (addEvents w (Call f [VString p; VString n] :: evs1)))
        as (r2 & evs2 & k & -> & Hc2 & Hall).
      rewrite addEvents_app.
      exists r2, ((Call f [VString p; VString n] :: evs1) ++ evs2), (S k).
      split; [reflexivity|].
      rewrite calls_app; simpl; rewrite Hc1; simpl. split.
      * now rewrite Hc2.
      * intros H. now rewrite (Hall H).
    + exists (Abrupt v), (Call f [VString p; VString n] :: evs1), 1%nat.
      split; [reflexivity|]. simpl. rewrite Hc1. split; [reflexivity|discriminate].
Qed.

Lemma notifyListeners_safe (p n : string) (sm : StateManager.t) (w : World) :
  (forall f, In f (StateManager.listeners sm) -> safe w f) ->
  exists evs,
    StateManager.notifyListeners p n sm w = (Normal tt, sm, addEvents w evs)
    /\ calls evs = map (notification p n) (StateManager.listeners sm).
Proof.
  intros H. unfold StateManager.notifyListeners, bind, get.
  now apply forEach_notifyOne_safe.
Qed.

Lemma notifyListeners_any (p n : string) (sm : StateManager.t) (w : World) :
  exists r evs k,
    StateManager.notifyListeners p n sm w = (r, sm, addEvents w evs)
    /\ calls evs = map (notification p n) (firstn k (StateManager.listeners sm))
    /\ (r = Normal tt -> calls evs = map (notification p n) (StateManager.listeners sm)).
Proof.
  unfold StateManager.notifyListeners, bind, get.
  apply forEach_notifyOne_any.
Qed.

(** [transition], guard by guard. *)
Lemma transition_run (newState : string) (sm : StateManager.t) (w : World) :
  StateManager.transition newState sm w =
  let debug := StateManager.debugMode sm in
  let previousState := StateManager.currentState sm in
  if negb (StateManager.truthy (readProp StateManager.STATES newState)) then
    (Normal false, sm,
     addEvents w (logged debug Error "[StateManager]" (clock w)
                    ("ERROR: Invalid state " ++ dquote ++ newState ++ dquote)))
  else
    match readProp StateManager.TRANSITIONS previousState with
    | Own arr =>
        if includes arr newState then
          match StateManager.notifyListeners previousState newState
                  (StateManager.mk newState (StateManager.listeners sm) debug)
                  (addEvents w (commitLogged debug false previousState newState
                                             (clock w)))
          with
          | (Normal _, sm', w') => (Normal true, sm', w')
          | (Abrupt v, sm', w') => (Abrupt v, sm', w')
          end
        else
          (Normal false, sm,
           addEvents w (logged debug Error "[StateManager]" (clock w)
                          ("ERROR: Cannot transition from " ++ previousState
                             ++ " to " ++ newState)))
    | Inherited =>
        (Abrupt (VError "TypeError" "allowedTransitions.includes is not a function"),
         sm, w)
    | Missing =>
        (Abrupt (VError "TypeError"
                   "Cannot read properties of undefined (reading 'includes')"),
         sm, w)
    end.
Proof.
  unfold StateManager.transition. cbv zeta.
  destruct (negb (StateManager.truthy (readProp StateManager.STATES newState))).
  - unfold bind. rewrite StateManager_log_run. reflexivity.
  - unfold bind at 1. unfold get at 1. unfold bind at 1.
    destruct (readProp StateManager.TRANSITIONS (StateManager.currentState sm))
      as [arr| |]; simpl; try reflexivity.
    destruct (includes arr newState); simpl.
    + unfold bind, put. rewrite StateManager_log_run. simpl.
      unfold commitLogged, commitLine, logged.
      destruct (StateManager.debugMode sm);
        destruct (StateManager.notifyListeners _ _ _ _) as [[[|] ?] ?]; reflexivity.
    + unfold bind. rewrite StateManager_log_run. reflexivity.
Qed.

(** [forceTransition], likewise. *)
Lemma forceTransition_run (newState : string) (sm : StateManager.t) (w : World) :
  StateManager.forceTransition newState sm w =
  let debug := StateManager.debugMode sm in
  let previousState := StateManager.currentState sm in
  if negb (StateManager.truthy (readProp StateManager.STATES newState)) then
    (Normal tt, sm,
     addEvents w (logged debug Error "[StateManager]" (clock w)
                    ("ERROR: Cannot force transition to invalid state "
                       ++ dquote ++ newState ++ dquote)))
  else
    StateManager.notifyListeners previousState newState
      (StateManager.mk newState (StateManager.listeners sm) debug)
      (addEvents w (commitLogged debug true previousState newState (clock w))).
Proof.
  unfold StateManager.forceTransition. cbv zeta.
  destruct (negb (StateManager.truthy (readProp StateManager.STATES newState))).
  - now rewrite StateManager_log_run.
  - unfold bind, get, put. rewrite StateManager_log_run. simpl.
    unfold commitLogged, commitLine, logged.
    destruct (StateManager.debugMode sm); reflexivity.
Qed.

(** ** The table of the code is the table of the specification *)

Lemma TRANSITIONS_phase (p : Phase) :
  readProp StateManager.TRANSITIONS (phaseName p) = Own (map phaseName (table p)).
Proof. destruct p; reflexivity. Qed.

Lemma STATES_phase (p : Phase) :
  StateManager.truthy (readProp StateManager.STATES (phaseName p)) = true.
Proof. destruct p; reflexivity. Qed.

Lemma includes_In (arr : list string) (x : string) :
  includes arr x = true <-> In x arr.
Proof.
  unfold includes. rewrite existsb_exists. split.
  - intros (y & Hy & E). apply String.eqb_eq in E. now subst.
  - intros H. exists x. split; [assumption|apply String.eqb_refl].
Qed.

Lemma includes_table (p : Phase) (target : string) :
  includes (map phaseName (table p)) target = true <-> inTable p target.
Proof.
  rewrite includes_In, in_map_iff. unfold inTable.
  split; intros (q & H1 & H2); exists q; auto.
Qed.

Lemma validated_table (p : Phase) (sm : StateManager.t) (target : string) :
  StateManager.currentState sm = phaseName p ->
  validated sm target = true <-> inTable p target.
Proof.
  intros E. unfold validated. rewrite E, TRANSITIONS_phase, andb_true_iff.
  rewrite includes_table. split; [tauto|].
  intros H. split; [|assumption].
  destruct H as (q & _ & ->). apply STATES_phase.
Qed.

Lemma calls_commitLogged debug forced p n now :
  calls (commitLogged debug forced p n now) = [].
Proof. now destruct debug, forced. Qed.

Lemma notifications_addEvents (w : World) (evs : list Event) :
  notifications w (addEvents w evs) = calls evs.
Proof. unfold notifications. now rewrite emitted_addEvents. Qed.

(** ** Validated transitions *)

(** C1.  From each of the four phases, [transition(target)] returns [true]
    exactly when [target] is in the table entry of the current phase.  When
    it does, the current phase is [target] and every listener has been
    notified with the previous and the new phase; when it does not, it
    returns [false], the manager is as it was and no listener was called.
    The listeners are taken not to throw [null] or [undefined]. *)
Theorem transition_iff_table (p : Phase) (target : string)
    (sm : StateManager.t) (w : World) :
  StateManager.currentState sm = phaseName p ->
  (forall f, In f (StateManager.listeners sm) -> safe w f) ->
  let '(r, sm', w') := StateManager.transition target sm w in
  (r = Normal true <-> inTable p target)
  /\ (r = Normal true ->
      StateManager.currentState sm' = target
      /\ StateManager.listeners sm' = StateManager.listeners sm
      /\ notifications w w'
         = map (notification (phaseName p) target) (StateManager.listeners sm))
  /\ (r <> Normal true ->
      r = Normal false /\ sm' = sm /\ notifications w w' = []).
Proof.
  intros E Hsafe. rewrite transition_run. cbv zeta.
  rewrite E, TRANSITIONS_phase.
  destruct (includes (map phaseName (table p)) target) eqn:Hinc.
  - assert (Hin : inTable p target) by now apply includes_table.
    destruct Hin as (q & Hq & ->).
    rewrite STATES_phase. simpl.
    destruct (notifyListeners_safe (phaseName p) (phaseName q)
                (StateManager.mk (phaseName q) (StateManager.listeners sm)
                                 (StateManager.debugMode sm))
                (addEvents w (commitLogged (StateManager.debugMode sm) false
                                (phaseName p) (phaseName q) (clock w))))
      as (evs & -> & Hc).
    { intros f Hf. apply safe_addEvents. now apply Hsafe. }
    rewrite addEvents_app, notifications_addEvents, calls_app,
      calls_commitLogged, Hc. simpl.
    repeat split; auto.
    + intros _. exists q. auto.
    + congruence.
    + congruence.
    + congruence.
  - assert (Hout : ~ inTable p target).
    { intros H. apply includes_table in H. congruence. }
    destruct (negb (StateManager.truthy (readProp StateManager.STATES target)));
      rewrite notifications_addEvents, calls_logged;
      (split; [split; [discriminate|tauto]|]); split; auto; discriminate.
Qed.

(** [transition] on any manager: what it leaves and whom it calls. *)
Lemma transition_any (newState : string) (sm : StateManager.t) (w : World) :
  let previousState := StateManager.currentState sm in
  let debug := StateManager.debugMode sm in
  exists r evs k,
    StateManager.transition newState sm w =
    (r,
     if validated sm newState
     then StateManager.mk newState (StateManager.listeners sm) debug
     else sm,
     addEvents w
       ((if validated sm newState
         then commitLogged debug false previousState newState (clock w)
         else []) ++ evs))
    /\ calls evs
       = map (notification previousState newState)
             (firstn (if validated sm newState then k else 0)
                     (StateManager.listeners sm))
    /\ (r = Normal true ->
        validated sm newState = true
        /\ calls evs
           = map (notification previousState newState) (StateManager.listeners sm))
    /\ (validated sm newState = true -> r <> Normal false).
Proof.
  cbv zeta. rewrite transition_run. cbv zeta. unfold validated.
  destruct (StateManager.truthy (readProp StateManager.STATES newState)); simpl.
  - destruct (readProp StateManager.TRANSITIONS (StateManager.currentState sm))
      as [arr| |].
    + destruct (includes arr newState).
      * destruct (notifyListeners_any (StateManager.currentState sm) newState
                    (StateManager.mk newState (StateManager.listeners sm)
                                     (StateManager.debugMode sm))
                    (addEvents w (commitLogged (StateManager.debugMode sm) false
                                    (StateManager.currentState sm) newState (clock w))))
          as (r & evs & k & -> & Hc & Hall).
        rewrite addEvents_app. simpl in Hc, Hall.
        destruct r as [[]|v].
        -- exists (Normal true), evs, k. repeat split; auto. discriminate.
        -- exists (Abrupt v), evs, k. repeat split; auto; discriminate.
      * eexists (Normal false), _, 0%nat. simpl. repeat split;
          auto using calls_logged; discriminate.
    + eexists (Abrupt _), [], 0%nat. simpl. rewrite addEvents_nil.
      repeat split; auto; discriminate.
    + eexists (Abrupt _), [], 0%nat. simpl. rewrite addEvents_nil.
      repeat split; auto; discriminate.
  - eexists (Normal false), _, 0%nat. simpl. repeat split;
      auto using calls_logged; discriminate.
Qed.

(** [forceTransition] on any manager. *)
Lemma forceTransition_any (newState : string) (sm : StateManager.t) (w : World) :
  let previousState := StateManager.currentState sm in
  let debug := StateManager.debugMode sm in
  let defined := StateManager.truthy (readProp StateManager.STATES newState) in
  exists r evs k,
    StateManager.forceTransition newState sm w =
    (r,
     if defined
     then StateManager.mk newState (StateManager.listeners sm) debug
     else sm,
     addEvents w
       ((if defined
         then commitLogged debug true previousState newState (clock w)
         else []) ++ evs))
    /\ calls evs
       = map (notification previousState newState)
             (firstn (if defined then k else 0) (StateManager.listeners sm))
    /\ (r = Normal tt -> defined = true ->
        calls evs
        = map (notification previousState newState) (StateManager.listeners sm)).
Proof.
  cbv zeta. rewrite forceTransition_run. cbv zeta.
  destruct (StateManager.truthy (readProp StateManager.STATES newState)); simpl.
  - destruct (notifyListeners_any (StateManager.currentState sm) newState
                (StateManager.mk newState (StateManager.listeners sm)
                                 (StateManager.debugMode sm))
                (addEvents w (commitLogged (StateManager.debugMode sm) true
                                (StateManager.currentState sm) newState (clock w))))
      as (r & evs & k & -> & Hc & Hall).
    rewrite addEvents_app. simpl in Hc, Hall.
    exists r, evs, k. repeat split; auto.
  - eexists (Normal tt), _, 0%nat. simpl. repeat split;
      auto using calls_logged. discriminate.
Qed.

(** ** Observers *)

(** A listener that throws an [Error] is logged and the next listener is
    called: both are notified and [transition] returns [true]. *)
Example listener_throwing_error_is_isolated :
  let sm := StateManager.mk "IDLE" [1; 2]%nat true in
  let w := freshWorld 0 (throwsError 1%nat) in
  let '(r, sm', w') := StateManager.transition "LISTENING" sm w in
  r = Normal true
  /\ StateManager.currentState sm' = "LISTENING"
  /\ notifications w w'
     = [notification "IDLE" "LISTENING" 1%nat; notification "IDLE" "LISTENING" 2%nat].
Proof. vm_compute. repeat split. Qed.

(** C9, at the input where the code departs from it.  The first of two
    listeners does [throw null].  The catch handler reads [error.message],
    which raises a [TypeError] on [null]; the exception leaves [forEach]
    and [transition]: the second listener is never called.  The phase
    committed before the notification stays committed. *)
Theorem listener_throwing_null_stops_notification :
  let sm := StateManager.mk "IDLE" [1; 2]%nat true in
  let w := freshWorld 0 (throwsNull 1%nat) in
  let '(r, sm', w') := StateManager.transition "LISTENING" sm w in
  r = Abrupt (VError "TypeError" "Cannot read properties of null (reading 'message')")
  /\ StateManager.currentState sm' = "LISTENING"
  /\ notifications w w' = [notification "IDLE" "LISTENING" 1%nat].
Proof. vm_compute. repeat split. Qed.

(** Short of that, the claim holds: on a committed transition every
    listener that is registered is called once per registration, in
    registration order, with the previous and the new phase, whether or not
    some of them throw, and the committed phase is the requested one. *)
Lemma committed_transition_notifies_all (newState : string)
    (sm : StateManager.t) (w : World) :
  validated sm newState = true ->
  (forall f, In f (StateManager.listeners sm) -> safe w f) ->
  let '(r, sm', w') := StateManager.transition newState sm w in
  r = Normal true
  /\ StateManager.currentState sm' = newState
  /\ notifications w w'
     = map (notification (StateManager.currentState sm) newState)
           (StateManager.listeners sm).
Proof.
  intros Hv Hsafe. rewrite transition_run. cbv zeta.
  unfold validated in Hv. apply andb_true_iff in Hv. destruct Hv as [Ht Hi].
  rewrite Ht. simpl.
  destruct (readProp StateManager.TRANSITIONS (StateManager.currentState sm))
    as [arr| |]; try discriminate.
  rewrite Hi.
  destruct (notifyListeners_safe (StateManager.currentState sm) newState
              (StateManager.mk newState (StateManager.listeners sm)
                               (StateManager.debugMode sm))
              (addEvents w (commitLogged (StateManager.debugMode sm) false
                              (StateManager.currentState sm) newState (clock w))))
    as (evs & -> & Hc).
  { intros f Hf. apply safe_addEvents. now apply Hsafe. }
  rewrite addEvents_app, notifications_addEvents, calls_app, calls_commitLogged.
  simpl. auto.
Qed.

Lemma In_firstn {A} (x : A) (k : nat) (l : list A) : In x (firstn k l) -> In x l.
Proof.
  intros H. rewrite <- (firstn_skipn k l). apply in_or_app. now left.
Qed.

Lemma emitted_trace (w w' : World) (evs : list Event) :
  trace w' = trace w ++ evs -> emitted w w' = evs.
Proof.
  intros E. unfold emitted. rewrite E, skipn_app, skipn_all, Nat.sub_diag.
  reflexivity.
Qed.

(** [filter(cb => cb !== callback)] deletes every occurrence. *)
Lemma filter_strict_neq (cb : FnRef) (ls : list FnRef) :
  filter (fun f => StateManager.strict_neq f (VFunction cb)) ls
  = remove Nat.eq_dec cb ls.
Proof.
  induction ls as [|f ls IH]; simpl in *; [reflexivity|].
  destruct (Nat.eq_dec cb f) as [->|Hne].
  - now rewrite Nat.eqb_refl.
  - destruct (Nat.eqb_spec f cb) as [->|_]; [congruence|].
    simpl. now rewrite IH.
Qed.

Lemma count_occ_remove_other (cb f : FnRef) (ls : list FnRef) :
  f <> cb ->
  count_occ Nat.eq_dec (remove Nat.eq_dec cb ls) f = count_occ Nat.eq_dec ls f.
Proof.
  intros Hne. induction ls as [|g ls IH]; simpl; [reflexivity|].
  destruct (Nat.eq_dec cb g) as [->|Hg]; simpl.
  - destruct (Nat.eq_dec g f); [congruence|assumption].
  - destruct (Nat.eq_dec g f); now rewrite IH.
Qed.

(** One operation on a manager: the trace only grows, the functions called
    are registered listeners, and a listener of afterwards was one before
    or has just been registered. *)
Lemma runOp_effect (o : Op) (sm : StateManager.t) (w : World) :
  exists evs,
    trace (snd (runOp o (sm, w))) = trace w ++ evs
    /\ fnBody (snd (runOp o (sm, w))) = fnBody w
    /\ (forall f args, In (f, args) (calls evs) -> In f (StateManager.listeners sm))
    /\ (forall g, In g (StateManager.listeners (fst (runOp o (sm, w)))) ->
                  In g (StateManager.listeners sm) \/ registers g o = true).
Proof.
  assert (Hnotified : forall p n k f args,
             In (f, args) (map (notification p n)
                               (firstn k (StateManager.listeners sm))) ->
             In f (StateManager.listeners sm)).
  { intros p n k f args H. apply in_map_iff in H.
    destruct H as (g & E & Hg). inversion E; subst. eapply In_firstn; eauto. }
  destruct o as [t|t| |v|v|ms]; unfold runOp, after, StateManager.reset; simpl.
  - destruct (transition_any t sm w) as (r & evs & k & -> & Hc & _).
    eexists; split; [reflexivity|]. split; [reflexivity|]. split.
    + intros f args. rewrite calls_app.
      replace (calls (if validated sm t then _ else [])) with (@nil (FnRef * list JsValue))
        by (destruct (validated sm t); now rewrite ?calls_commitLogged).
      simpl. rewrite Hc. apply Hnotified.
    + destruct (validated sm t); simpl; auto.
  - destruct (forceTransition_any t sm w) as (r & evs & k & -> & Hc & _).
    eexists; split; [reflexivity|]. split; [reflexivity|]. split.
    + intros f args. rewrite calls_app.
      replace (calls (if StateManager.truthy _ then _ else []))
        with (@nil (FnRef * list JsValue))
        by (destruct (StateManager.truthy _); now rewrite ?calls_commitLogged).
      simpl. rewrite Hc. apply Hnotified.
    + destruct (StateManager.truthy _); simpl; auto.
  - destruct (forceTransition_any "IDLE" sm w) as (r & evs & k & -> & Hc & _).
    eexists; split; [reflexivity|]. split; [reflexivity|]. split.
    + intros f args. rewrite calls_app. simpl.
      rewrite calls_commitLogged. simpl. rewrite Hc. apply Hnotified.
    + simpl; auto.
  - exists []. rewrite app_nil_r.
    destruct v; simpl; repeat split; auto; try contradiction.
    intros g Hg. apply in_app_or in Hg. destruct Hg as [Hg|[<-|[]]]; auto.
    right. apply Nat.eqb_refl.
  - exists []. rewrite app_nil_r. simpl. repeat split; auto; try contradiction.
    intros g Hg. apply filter_In in Hg. tauto.
  - exists []. rewrite app_nil_r. simpl. repeat split; auto; contradiction.
Qed.

(** A function that is not registered, and is not registered again, is
    never called. *)
Lemma runOps_never_calls (cb : FnRef) (ops : list Op) :
  forall (sm : StateManager.t) (w : World),
    ~ In cb (StateManager.listeners sm) ->
    Forall (fun o => registers cb o = false) ops ->
    exists evs,
      trace (snd (runOps ops (sm, w))) = trace w ++ evs
      /\ forall args, ~ In (cb, args) (calls evs).
Proof.
  induction ops as [|o ops IH]; intros sm w Hout Hops.
  - exists []. simpl. rewrite app_nil_r. auto.
  - inversion Hops as [|? ? Ho Hrest]; subst.
    destruct (runOp_effect o sm w) as (evs1 & Ht & _ & Hcalled & Hls).
    unfold runOps. simpl. fold (runOps ops (runOp o (sm, w))).
    destruct (runOp o (sm, w)) as [sm1 w1] eqn:E. simpl in *.
    destruct (IH sm1 w1) as (evs2 & Ht2 & Hc2); auto.
    { intros Hin. destruct (Hls cb Hin) as [H|H]; [auto|congruence]. }
    exists (evs1 ++ evs2). rewrite Ht2, Ht, app_assoc. split; [reflexivity|].
    intros args Hin. rewrite calls_app in Hin. apply in_app_or in Hin.
    destruct Hin as [Hin|Hin]; [|now apply (Hc2 args)].
    apply Hout. eapply Hcalled; eauto.
Qed.

(** C10.  [removeListener(cb)] removes every registration of [cb]: the
    listeners left are the others, as often as before and in their order;
    when [cb] was not registered nothing changes; and on whatever the
    manager is asked to do afterwards, short of registering [cb] again,
    [cb] is not called. *)
Theorem removeListener_removes_every_occurrence (cb : FnRef)
    (sm : StateManager.t) (w : World) (ops : list Op) :
  Forall (fun o => registers cb o = false) ops ->
  let '(r, sm', w') := StateManager.removeListener (VFunction cb) sm w in
  r = Normal tt
  /\ w' = w
  /\ StateManager.currentState sm' = StateManager.currentState sm
  /\ StateManager.listeners sm' = remove Nat.eq_dec cb (StateManager.listeners sm)
  /\ ~ In cb (StateManager.listeners sm')
  /\ (forall f, f <> cb ->
        count_occ Nat.eq_dec (StateManager.listeners sm') f
        = count_occ Nat.eq_dec (StateManager.listeners sm) f)
  /\ (~ In cb (StateManager.listeners sm) -> sm' = sm)
  /\ (forall args, ~ In (cb, args) (notifications w' (snd (runOps ops (sm', w'))))).
Proof.
  intros Hops. unfold StateManager.removeListener, bind, get, put.
  cbn [StateManager.currentState StateManager.listeners StateManager.debugMode].
  rewrite filter_strict_neq.
  split; [reflexivity|]. split; [reflexivity|]. split; [reflexivity|].
  split; [reflexivity|]. split; [apply remove_In|].
  split; [intros f Hf; now apply count_occ_remove_other|].
  split.
  - intros Hout. rewrite notin_remove by assumption. now destruct sm.
  - intros args.
    destruct (runOps_never_calls cb ops
                (StateManager.mk (StateManager.currentState sm)
                   (remove Nat.eq_dec cb (StateManager.listeners sm))
                   (StateManager.debugMode sm)) w) as (evs & Ht & Hc).
    { simpl. apply remove_In. }
    { assumption. }
    unfold notifications. rewrite (emitted_trace _ _ _ Ht). apply Hc.
Qed.

(** ** Forced transitions *)

(** C7, as stated, fails: a validated and a forced transition from
    LISTENING to IDLE hand the listener the same two arguments, so nothing
    computed from a notification is false on every validated transition
    and true on every forced one. *)
Lemma notification_carries_no_forced_flag :
  ~ exists forced : list JsValue -> bool,
      (forall sm w t f args,
          In (f, args)
             (notifications w (snd (after (StateManager.transition t) (sm, w)))) ->
          forced args = false)
      /\ (forall sm w t f args,
          In (f, args)
             (notifications w (snd (after (StateManager.forceTransition t) (sm, w)))) ->
          forced args = true).
Proof.
  intros (forced & Hvalidated & Hforced).
  pose (sm := StateManager.mk "LISTENING" [1%nat] true).
  pose (w := freshWorld 0 quiet).
  assert (H1 : forced [VString "LISTENING"; VString "IDLE"] = false).
  { apply (Hvalidated sm w "IDLE" 1%nat). vm_compute. now left. }
  assert (H2 : forced [VString "LISTENING"; VString "IDLE"] = true).
  { apply (Hforced sm w "IDLE" 1%nat). vm_compute. now left. }
  congruence.
Qed.

Lemma commitLine_tells_forced (p n p' n' : string) (now now' : Z) :
  commitLine false p n now <> commitLine true p' n' now'.
Proof. unfold commitLine. discriminate. Qed.

(** C7, amended.  A notification carries the previous and the new phase
    and nothing else, on a validated and on a forced transition alike.
    What tells the two apart is the console: a validated transition first
    writes [State: p -> n] at level info, a forced one first writes
    [FORCED State: p -> n] at level warn. *)
Theorem forced_is_told_by_the_console (sm : StateManager.t) (w : World)
    (t : string) :
  StateManager.debugMode sm = true ->
  let p := StateManager.currentState sm in
  let validatedRun := snd (after (StateManager.transition t) (sm, w)) in
  let forcedRun := snd (after (StateManager.forceTransition t) (sm, w)) in
  (forall f args,
      In (f, args) (notifications w validatedRun)
      \/ In (f, args) (notifications w forcedRun) ->
      args = [VString p; VString t])
  /\ (validated sm t = true ->
      exists evs, emitted w validatedRun = commitLine false p t (clock w) :: evs)
  /\ (StateManager.truthy (readProp StateManager.STATES t) = true ->
      exists evs, emitted w forcedRun = commitLine true p t (clock w) :: evs)
  /\ commitLine false p t (clock w) <> commitLine true p t (clock w).
Proof.
  intros Hdebug. cbv zeta. unfold after. simpl.
  destruct (transition_any t sm w) as (r1 & evs1 & k1 & -> & Hc1 & _).
  destruct (forceTransition_any t sm w) as (r2 & evs2 & k2 & -> & Hc2 & _).
  cbv zeta in *. simpl. rewrite !notifications_addEvents, !emitted_addEvents.
  rewrite Hdebug.
  assert (Hargs : forall k f args,
             In (f, args) (map (notification (StateManager.currentState sm) t)
                               (firstn k (StateManager.listeners sm))) ->
             args = [VString (StateManager.currentState sm); VString t]).
  { intros k f args H. apply in_map_iff in H. destruct H as (g & E & _).
    now inversion E. }
  split; [|split; [|split]].
  - intros f args [H|H]; rewrite calls_app in H; apply in_app_or in H.
    + destruct H as [H|H].
      * destruct (validated sm t); simpl in H; [|contradiction].
        unfold commitLine in H. simpl in H. contradiction.
      * rewrite Hc1 in H. eapply Hargs; eauto.
    + destruct H as [H|H].
      * destruct (StateManager.truthy _); simpl in H; [|contradiction].
        unfold commitLine in H. simpl in H. contradiction.
      * rewrite Hc2 in H. eapply Hargs; eauto.
  - intros Hv. rewrite Hv. simpl. eauto.
  - intros Hv. rewrite Hv. simpl. eauto.
  - apply commitLine_tells_forced.
Qed.

(** ** The order of committed transitions *)

(** C8, as stated, fails: the manager keeps no counter.  IDLE to LISTENING
    is committed twice within one second, with a return to IDLE between;
    the manager's fields after the two commits and the events of the two
    calls are the same, so no number read off them grows. *)
Lemma transitions_carry_no_sequence_number :
  ~ exists seqno : StateManager.t * list Event -> nat,
      forall s a ops b,
        commits a s <> None ->
        commits b (runOps ops (runOp a s)) <> None ->
        (seqno (observe a s) < seqno (observe b (runOps ops (runOp a s))))%nat.
Proof.
  intros (seqno & H).
  specialize (H (StateManager.new, freshWorld 5000 quiet)
                (OpTransition "LISTENING")
                [OpTick 5300; OpTransition "IDLE"; OpTick 5900]
                (OpTransition "LISTENING")).
  assert (E : observe (OpTransition "LISTENING")
                (runOps [OpTick 5300; OpTransition "IDLE"; OpTick 5900]
                   (runOp (OpTransition "LISTENING")
                      (StateManager.new, freshWorld 5000 quiet)))
              = observe (OpTransition "LISTENING")
                  (StateManager.new, freshWorld 5000 quiet))
    by (vm_compute; reflexivity).
  rewrite E in H.
  apply (Nat.lt_irrefl (seqno (observe (OpTransition "LISTENING")
                                 (StateManager.new, freshWorld 5000 quiet)))).
  apply H; vm_compute; discriminate.
Qed.

Lemma runOp_debugMode (o : Op) (sm : StateManager.t) (w : World) :
  StateManager.debugMode (fst (runOp o (sm, w))) = StateManager.debugMode sm.
Proof.
  destruct o as [t|t| |v|v|ms]; unfold runOp, after, StateManager.reset; simpl.
  - destruct (transition_any t sm w) as (r & evs & k & -> & _).
    now destruct (validated sm t).
  - destruct (forceTransition_any t sm w) as (r & evs & k & -> & _).
    now destruct (StateManager.truthy _).
  - destruct (forceTransition_any "IDLE" sm w) as (r & evs & k & -> & _).
    reflexivity.
  - now destruct v.
  - reflexivity.
  - reflexivity.
Qed.

Lemma runOps_effect (ops : list Op) :
  forall (sm : StateManager.t) (w : World),
    StateManager.debugMode (fst (runOps ops (sm, w))) = StateManager.debugMode sm
    /\ exists evs, trace (snd (runOps ops (sm, w))) = trace w ++ evs.
Proof.
  induction ops as [|o ops IH]; intros sm w.
  - split; [reflexivity|]. exists []. simpl. now rewrite app_nil_r.
  - unfold runOps. simpl. fold (runOps ops (runOp o (sm, w))).
    pose proof (runOp_debugMode o sm w) as Hd.
    destruct (runOp_effect o sm w) as (evs1 & Ht & _).
    destruct (runOp o (sm, w)) as [sm1 w1]. simpl in *.
    destruct (IH sm1 w1) as (Hd2 & evs2 & Ht2).
    split; [congruence|].
    exists (evs1 ++ evs2). now rewrite Ht2, Ht, app_assoc.
Qed.

(** An operation that commits a transition writes its line, first. *)
Lemma runOp_commit (o : Op) (sm : StateManager.t) (w : World) (line : Event) :
  StateManager.debugMode sm = true ->
  commits o (sm, w) = Some line ->
  exists evs, trace (snd (runOp o (sm, w))) = trace w ++ line :: evs.
Proof.
  intros Hdebug Hc.
  destruct o as [t|t| |v|v|ms]; unfold commits in Hc; simpl in Hc;
    try discriminate; unfold runOp, after, StateManager.reset; simpl.
  - destruct (transition_any t sm w) as (r & evs & k & -> & _).
    destruct (validated sm t); [|discriminate].
    injection Hc as <-. rewrite Hdebug. simpl. eauto.
  - destruct (forceTransition_any t sm w) as (r & evs & k & -> & _).
    destruct (StateManager.truthy _); [|discriminate].
    injection Hc as <-. rewrite Hdebug. simpl. eauto.
  - destruct (forceTransition_any "IDLE" sm w) as (r & evs & k & -> & _).
    injection Hc as <-. rewrite Hdebug. simpl. eauto.
Qed.

(** C8, amended.  No sequence number is assigned.  A committed transition,
    validated or forced, is recorded by a line on the console, and the
    console only grows: when a transition is committed before another in
    one session, its line stands before the line of the other. *)
Theorem commits_are_recorded_in_order (s0 : StateManager.t * World)
    (ops1 : list Op) (a : Op) (ops2 : list Op) (b : Op) (la lb : Event) :
  StateManager.debugMode (fst s0) = true ->
  commits a (runOps ops1 s0) = Some la ->
  commits b (runOps ops2 (runOp a (runOps ops1 s0))) = Some lb ->
  exists before between afterwards,
    trace (snd (runOp b (runOps ops2 (runOp a (runOps ops1 s0)))))
    = before ++ [la] ++ between ++ [lb] ++ afterwards.
Proof.
  intros Hdebug Ha Hb. destruct s0 as [sm0 w0]. simpl in Hdebug.
  destruct (runOps_effect ops1 sm0 w0) as (Hd1 & evs1 & Ht1).
  destruct (runOps ops1 (sm0, w0)) as [sm1 w1]. simpl in *.
  destruct (runOp_commit a sm1 w1 la) as (evsa & Hta); [congruence|assumption|].
  pose proof (runOp_debugMode a sm1 w1) as Hd2.
  destruct (runOp a (sm1, w1)) as [sm2 w2]. simpl in *.
  destruct (runOps_effect ops2 sm2 w2) as (Hd3 & evs2 & Ht2).
  destruct (runOps ops2 (sm2, w2)) as [sm3 w3]. simpl in *.
  destruct (runOp_commit b sm3 w3 lb) as (evsb & Htb); [congruence|assumption|].
  exists (trace w1), (evsa ++ evs2), evsb.
  rewrite Htb, Ht2, Hta. simpl. rewrite <- !app_assoc. simpl.
  reflexivity.
Qed.

(** ** The voice engine, method by method *)

Lemma VoiceEngine_log_run (message : string) (level : Level)
    (e : VoiceEngine.t) (w : World) :
  VoiceEngine.log message level e w =
  (Normal tt, e,
   addEvents w (logged (VoiceEngine.debugMode e) level "[VoiceEngine]"
                       (clock w) message)).
Proof.
  unfold VoiceEngine.log, bind, get, world, effect, ret, logged.
  destruct (VoiceEngine.debugMode e); simpl.
  - reflexivity.
  - now rewrite addEvents_nil.
Qed.

Lemma withStateManager_same (e : VoiceEngine.t) :
  VoiceEngine.withStateManager (VoiceEngine.stateManager e) e = e.
Proof. now destruct e. Qed.

Lemma onStateManager_is (state : string) (e : VoiceEngine.t) (w : World) :
  VoiceEngine.onStateManager (StateManager.is_ state) e w =
  (Normal (String.eqb (StateManager.currentState (VoiceEngine.stateManager e)) state),
   e, w).
Proof.
  unfold VoiceEngine.onStateManager, StateManager.is_, bind, get, ret.
  now rewrite withStateManager_same.
Qed.

(** ** Speaking out of turn *)

Lemma speak_elsewhere (text : string) (lang : option string)
    (e : VoiceEngine.t) (w : World) :
  StateManager.currentState (VoiceEngine.stateManager e) <> "PROCESSING" ->
  VoiceEngine.speak text lang e w =
  (Normal (Rejected (VError "Error" "Invalid state for speaking")), e,
   addEvents w
     (logged (VoiceEngine.debugMode e) Warn "[VoiceEngine]" (clock w)
             "Cannot speak - not in PROCESSING state"
      ++ [PromiseReject (VError "Error" "Invalid state for speaking")])).
Proof.
  intros Hphase. unfold VoiceEngine.speak, try_catch, bind at 1.
  rewrite onStateManager_is.
  apply String.eqb_neq in Hphase. rewrite Hphase. simpl.
  unfold bind. rewrite VoiceEngine_log_run.
  unfold VoiceEngine.reject, effect, bind, ret.
  now rewrite emit_addEvents, addEvents_app.
Qed.

Lemma not_speak_logged debug level prefix now message :
  Forall notSpeak (logged debug level prefix now message).
Proof. unfold logged. destruct debug; repeat constructor. Qed.

Lemma notSpeak_not_In (evs : list Event) (t l : string) :
  Forall notSpeak evs -> ~ In (SynthesisSpeak t l) evs.
Proof.
  intros H Hin. rewrite Forall_forall in H. exact (H _ Hin).
Qed.

(** C3.  In any phase but PROCESSING, [speak] returns a promise rejected
    with the error [Invalid state for speaking], after a warning on the
    console, and does nothing else: the rendering capability is not
    invoked, and the phase, the engine and both capabilities are as they
    were. *)
Theorem speak_outside_processing_is_rejected (text : string) (lang : option string)
    (e : VoiceEngine.t) (w : World) :
  StateManager.currentState (VoiceEngine.stateManager e) <> "PROCESSING" ->
  let '(r, e', w') := VoiceEngine.speak text lang e w in
  r = Normal (Rejected (VError "Error" "Invalid state for speaking"))
  /\ e' = e
  /\ phase (e', w') = phase (e, w)
  /\ extends w w'
  /\ emitted w w'
     = logged (VoiceEngine.debugMode e) Warn "[VoiceEngine]" (clock w)
              "Cannot speak - not in PROCESSING state"
       ++ [PromiseReject (VError "Error" "Invalid state for speaking")]
  /\ (forall t l, ~ In (SynthesisSpeak t l) (emitted w w')).
Proof.
  intros Hphase. rewrite (speak_elsewhere text lang e w Hphase).
  rewrite emitted_addEvents. split; [reflexivity|].
  split; [reflexivity|]. split; [reflexivity|]. split; [eexists; reflexivity|].
  split; [reflexivity|].
  intros t l. apply notSpeak_not_In. apply Forall_app.
  split; [apply not_speak_logged|repeat constructor].
Qed.

(** ** Starting a turn *)

Lemma notifyError_run (message : string) (e : VoiceEngine.t) (w : World) :
  VoiceEngine.notifyError message e w =
  match VoiceEngine.onErrorCallback e with
  | Some cb =>
      (fnBody w cb (trace w) [VString message], e,
       addEvents w [Call cb [VString message]])
  | None => (Normal tt, e, addEvents w [])
  end.
Proof.
  unfold VoiceEngine.notifyError, bind, get.
  destruct (VoiceEngine.onErrorCallback e); [reflexivity|].
  now rewrite addEvents_nil.
Qed.

Lemma startListening_not_idle (e : VoiceEngine.t) (w : World) :
  StateManager.currentState (VoiceEngine.stateManager e) <> "IDLE" ->
  VoiceEngine.startListening e w =
  (Normal false, e,
   addEvents w (logged (VoiceEngine.debugMode e) Warn "[VoiceEngine]" (clock w)
                       "Cannot start listening - not in IDLE state")).
Proof.
  intros H. apply String.eqb_neq in H.
  unfold VoiceEngine.startListening, bind at 1.
  rewrite onStateManager_is, H. simpl.
  unfold bind. now rewrite VoiceEngine_log_run.
Qed.

Lemma startListening_unavailable (e : VoiceEngine.t) (w : World) :
  StateManager.currentState (VoiceEngine.stateManager e) = "IDLE" ->
  VoiceEngine.recognitionAvailable e = false ->
  exists r,
    VoiceEngine.startListening e w =
    (r, e,
     addEvents w
       (logged (VoiceEngine.debugMode e) Error "[VoiceEngine]" (clock w)
               "Speech Recognition not available"
        ++ match VoiceEngine.onErrorCallback e with
           | Some cb => [Call cb [VString notSupportedMessage]]
           | None => []
           end))
    /\ r <> Normal true
    /\ ((forall cb, VoiceEngine.onErrorCallback e = Some cb -> returns w cb) ->
        r = Normal false).
Proof.
  intros Hidle Hrec.
  unfold VoiceEngine.startListening, bind at 1.
  rewrite onStateManager_is, Hidle. simpl.
  unfold bind at 1. unfold get at 1. rewrite Hrec. simpl.
  unfold bind. rewrite VoiceEngine_log_run, notifyError_run.
  fold notSupportedMessage.
  destruct (VoiceEngine.onErrorCallback e) as [cb|]; rewrite addEvents_app.
  - simpl fnBody.
    destruct (fnBody w cb _ [VString notSupportedMessage]) as [[]|v] eqn:E.
    + eexists; split; [reflexivity|]. split; [discriminate|reflexivity].
    + eexists; split; [reflexivity|]. split; [discriminate|].
      intros H. specialize (H cb eq_refl). unfold returns in H.
      rewrite H in E. discriminate.
  - eexists; split; [reflexivity|]. split; [discriminate|reflexivity].
Qed.

(** C6, as stated, fails in two respects.  Asked to start while the browser
    has no capture capability, the engine calls the error callback: the
    refusal has an effect outside the engine.  And this refusal returns
    [false], the same value as the refusal to start outside IDLE: the
    value returned does not tell the two failures apart. *)
Lemma startListening_refusal_calls_back :
  let unsupported := exampleEngine false 0 quiet in
  let listening := step StartListening (exampleEngine true 0 quiet) in
  let '(r, _, w') := VoiceEngine.startListening (fst unsupported) (snd unsupported) in
  let '(r', _, _) := VoiceEngine.startListening (fst listening) (snd listening) in
  phase unsupported = "IDLE"
  /\ phase listening = "LISTENING"
  /\ r = Normal false
  /\ r' = Normal false
  /\ calls (emitted (snd unsupported) w') = [(7%nat, [VString notSupportedMessage])].
Proof. vm_compute. repeat split. Qed.

Lemma logged_no_calls_no_start debug level prefix now message lang :
  ~ In (RecognitionStart lang) (logged debug level prefix now message).
Proof.
  unfold logged. destruct debug; simpl; [|tauto].
  intros [H|[]]. discriminate.
Qed.

(** C6, amended.  [startListening] called outside IDLE returns [false]
    after a warning on the console.  Called in IDLE while recognition is
    not available, it calls the error callback, when one is set, once with
    the message that recognition is not supported, and returns [false]
    (when that callback returns).  In both cases the engine with its state
    manager, so the phase, is as before, nothing of the world but the trace
    has moved, and the capture capability is not started. *)
Theorem startListening_refusals (e : VoiceEngine.t) (w : World) :
  StateManager.currentState (VoiceEngine.stateManager e) <> "IDLE"
  \/ VoiceEngine.recognitionAvailable e = false ->
  let '(r, e', w') := VoiceEngine.startListening e w in
  e' = e
  /\ extends w w'
  /\ r <> Normal true
  /\ (forall lang, ~ In (RecognitionStart lang) (emitted w w'))
  /\ (StateManager.currentState (VoiceEngine.stateManager e) <> "IDLE" ->
      r = Normal false /\ calls (emitted w w') = [])
  /\ (StateManager.currentState (VoiceEngine.stateManager e) = "IDLE" ->
      calls (emitted w w')
      = match VoiceEngine.onErrorCallback e with
        | Some cb => [(cb, [VString notSupportedMessage])]
        | None => []
        end
      /\ ((forall cb, VoiceEngine.onErrorCallback e = Some cb -> returns w cb) ->
          r = Normal false)).
Proof.
  intros H.
  destruct (String.eqb_spec
              (StateManager.currentState (VoiceEngine.stateManager e)) "IDLE")
    as [Hidle|Hbusy].
  - destruct H as [H|Hrec]; [contradiction|].
    destruct (startListening_unavailable e w Hidle Hrec) as (r & -> & Hr & Hret).
    rewrite emitted_addEvents.
    split; [reflexivity|]. split; [eexists; reflexivity|]. split; [assumption|].
    split; [|split; [contradiction|]].
    + intros lang Hin. apply in_app_or in Hin. destruct Hin as [Hin|Hin].
      * now apply logged_no_calls_no_start in Hin.
      * destruct (VoiceEngine.onErrorCallback e); simpl in Hin;
          [destruct Hin as [Hin|[]]; discriminate|contradiction].
    + intros _. split; [|assumption].
      rewrite calls_app, calls_logged.
      now destruct (VoiceEngine.onErrorCallback e).
  - rewrite (startListening_not_idle e w Hbusy). rewrite emitted_addEvents.
    split; [reflexivity|]. split; [eexists; reflexivity|]. split; [discriminate|].
    split; [intros lang; apply logged_no_calls_no_start|].
    split; [|contradiction].
    intros _. split; [reflexivity|apply calls_logged].
Qed.

(** ** Transcripts *)

Lemma transition_safe (newState : string) (sm : StateManager.t) (w : World) :
  validated sm newState = true ->
  (forall f, In f (StateManager.listeners sm) -> safe w f) ->
  exists evs,
    StateManager.transition newState sm w =
    (Normal true,
     StateManager.mk newState (StateManager.listeners sm) (StateManager.debugMode sm),
     addEvents w (commitLogged (StateManager.debugMode sm) false
                    (StateManager.currentState sm) newState (clock w) ++ evs))
    /\ calls evs
       = map (notification (StateManager.currentState sm) newState)
             (StateManager.listeners sm).
Proof.
  intros Hv Hsafe.
  pose proof (committed_transition_notifies_all newState sm w Hv Hsafe) as H.
  destruct (transition_any newState sm w) as (r & evs & k & E & Hc & Hall & _).
  cbv zeta in *. rewrite E in H. destruct H as (-> & _).
  rewrite Hv in E. exists evs. split; [assumption|].
  now apply Hall.
Qed.

(** C4.  A result whose trimmed text is the last transcript kept.  When it
    comes less than 2000 ms after that one it is dropped: the handler only
    writes to the console, the engine and its phase are as before and no
    callback runs.  When it comes 2000 ms after it or later it is kept, and
    in LISTENING the phase becomes PROCESSING and the transcript callback
    is called once, after the listeners, with the text and the
    confidence. *)
Theorem duplicate_transcripts_are_dropped (text : string) (confidence : Q)
    (e : VoiceEngine.t) (w : World) :
  trim text = VoiceEngine.lastTranscript e ->
  let '(r, e', w') := VoiceEngine.recognition_onresult text confidence e w in
  (clock w - VoiceEngine.lastTranscriptTime e < 2000 ->
   r = Normal tt /\ e' = e /\ extends w w' /\ calls (emitted w w') = [])
  /\ (2000 <= clock w - VoiceEngine.lastTranscriptTime e ->
      VoiceEngine.lastTranscript e' = trim text
      /\ VoiceEngine.lastTranscriptTime e' = clock w
      /\ (StateManager.currentState (VoiceEngine.stateManager e) = "LISTENING" ->
          (forall f, In f (StateManager.listeners (VoiceEngine.stateManager e)) ->
                     safe w f) ->
          phase (e', w') = "PROCESSING"
          /\ calls (emitted w w')
             = map (notification "LISTENING" "PROCESSING")
                   (StateManager.listeners (VoiceEngine.stateManager e))
               ++ match VoiceEngine.onTranscriptCallback e with
                  | Some cb => [(cb, [VString (trim text); VNumber confidence])]
                  | None => []
                  end)).
Proof.
  intros Hsame.
  unfold VoiceEngine.recognition_onresult. cbv zeta.
  unfold bind at 1. rewrite VoiceEngine_log_run.
  unfold bind at 1. unfold world at 1. unfold bind at 1. unfold get at 1.
  cbn [clock addEvents]. rewrite Hsame, String.eqb_refl. simpl andb.
  destruct (Z.ltb_spec (clock w - VoiceEngine.lastTranscriptTime e) 2000) as [Hlt|Hge];
    cbv beta iota delta [andb].
  - rewrite VoiceEngine_log_run, addEvents_app, emitted_addEvents.
    split; [|lia]. intros _.
    split; [reflexivity|]. split; [reflexivity|]. split; [eexists; reflexivity|].
    now rewrite calls_app, !calls_logged.
  - unfold bind at 1. unfold put at 1. unfold bind at 1.
    rewrite onStateManager_is.
    cbn [VoiceEngine.stateManager VoiceEngine.onTranscriptCallback].
    destruct (String.eqb_spec
                (StateManager.currentState (VoiceEngine.stateManager e))
                "LISTENING") as [Hl|Hn].
    + unfold bind at 1. unfold VoiceEngine.onStateManager at 1.
      cbn [VoiceEngine.stateManager].
      destruct (transition_any "PROCESSING" (VoiceEngine.stateManager e)
                  (addEvents w (logged (VoiceEngine.debugMode e) Info
                                  "[VoiceEngine]" (clock w)
                                  ("Transcript: " ++ dquote
                                     ++ VoiceEngine.lastTranscript e ++ dquote
                                     ++ " (confidence: " ++ toFixed2 confidence
                                     ++ ")"))))
        as (r & evs & k & Et & Hc & Hall & _).
      cbv zeta in Et. rewrite Et.
      assert (Hv : validated (VoiceEngine.stateManager e) "PROCESSING" = true)
        by (unfold validated; now rewrite Hl).
      rewrite Hv in *.
      assert (Hr : (forall f, In f (StateManager.listeners (VoiceEngine.stateManager e))
                              -> safe w f) -> r = Normal true).
      { intros Hsafe.
        destruct (transition_safe "PROCESSING" (VoiceEngine.stateManager e)
                    (addEvents w (logged (VoiceEngine.debugMode e) Info
                                    "[VoiceEngine]" (clock w)
                                    ("Transcript: " ++ dquote
                                       ++ VoiceEngine.lastTranscript e ++ dquote
                                       ++ " (confidence: " ++ toFixed2 confidence
                                       ++ ")"))))
          as (evs' & Et' & _); [assumption| |congruence].
        intros f Hf. apply safe_addEvents. now apply Hsafe. }
      destruct r as [b|v].
      * destruct (VoiceEngine.onTranscriptCallback e) as [cb|];
          unfold call, ret; cbv beta iota;
          (split; [lia|]); intros _;
          (split; [reflexivity|]); (split; [reflexivity|]);
          intros _ Hsafe; specialize (Hr Hsafe); injection Hr as ->;
          (split; [reflexivity|]);
          rewrite ?emit_addEvents, !addEvents_app, emitted_addEvents,
            !calls_app, calls_logged, calls_commitLogged,
            (proj2 (Hall eq_refl)), Hl.
        -- reflexivity.
        -- now rewrite app_nil_r.
      * cbv beta iota. split; [lia|]. intros _.
        split; [reflexivity|]. split; [reflexivity|].
        intros _ Hsafe. specialize (Hr Hsafe). discriminate.
    + unfold ret. split; [lia|]. intros _.
      split; [reflexivity|]. split; [reflexivity|].
      intros Hl. contradiction.
Qed.

(** ** Capture errors *)

Lemma messagesTo_app (f : FnRef) (a b : list (FnRef * list JsValue)) :
  messagesTo f (a ++ b) = messagesTo f a ++ messagesTo f b.
Proof.
  induction a as [|[g args] a IH]; simpl; [reflexivity|].
  destruct args as [|[| |s| | |] [|? ?]]; try assumption.
  destruct (Nat.eqb f g); simpl; now rewrite IH.
Qed.

Lemma messagesTo_notifications (f : FnRef) (p n : string) (ls : list FnRef) :
  messagesTo f (map (notification p n) ls) = [].
Proof. induction ls as [|g ls IH]; simpl; auto. Qed.

Lemma reset_run (e : VoiceEngine.t) (w : World) :
  exists r evs k,
    VoiceEngine.onStateManager StateManager.reset e w =
    (r,
     VoiceEngine.withStateManager
       (StateManager.mk "IDLE"
          (StateManager.listeners (VoiceEngine.stateManager e))
          (StateManager.debugMode (VoiceEngine.stateManager e))) e,
     addEvents w
       (commitLogged (StateManager.debugMode (VoiceEngine.stateManager e)) true
          (StateManager.currentState (VoiceEngine.stateManager e)) "IDLE" (clock w)
        ++ evs))
    /\ calls evs
       = map (notification (StateManager.currentState (VoiceEngine.stateManager e))
                           "IDLE")
             (firstn k (StateManager.listeners (VoiceEngine.stateManager e))).
Proof.
  unfold VoiceEngine.onStateManager, StateManager.reset.
  destruct (forceTransition_any "IDLE" (VoiceEngine.stateManager e) w)
    as (r & evs & k & -> & Hc & _).
  exists r, evs, k. split; [reflexivity|assumption].
Qed.

(** C5.  When the capture capability reports an error, the handler forces
    the phase to IDLE.  For [no-speech] the error callback is not called;
    for [audio-capture] (no microphone) and for [not-allowed] (permission
    denied) it is called once, with the message of that error.  The error
    callback is taken to return. *)
Theorem capture_errors_force_idle (error : string) (e : VoiceEngine.t) (w : World) :
  (forall cb, VoiceEngine.onErrorCallback e = Some cb -> returns w cb) ->
  let '(r, e', w') := VoiceEngine.recognition_onerror error e w in
  phase (e', w') = "IDLE"
  /\ extends w w'
  /\ (forall cb, VoiceEngine.onErrorCallback e = Some cb ->
        messagesTo cb (calls (emitted w w'))
        = if String.eqb error "no-speech" then []
          else if String.eqb error "audio-capture" then [noMicrophoneMessage]
          else if String.eqb error "not-allowed" then [accessDeniedMessage]
          else [])
  /\ noMicrophoneMessage <> accessDeniedMessage.
Proof.
  intros Hret.
  unfold VoiceEngine.recognition_onerror.
  unfold bind at 1. rewrite VoiceEngine_log_run.
  unfold bind at 1.
  assert (Hreset : forall w1 evs0,
             w1 = addEvents w evs0 ->
             let '(r, e', w') := VoiceEngine.onStateManager StateManager.reset e w1 in
             phase (e', w') = "IDLE" /\ extends w w'
             /\ forall cb, messagesTo cb (calls (emitted w w'))
                           = messagesTo cb (calls evs0)).
  { intros w1 evs0 ->.
    destruct (reset_run e (addEvents w evs0)) as (r & evs & k & -> & Hc).
    rewrite addEvents_app, emitted_addEvents.
    split; [reflexivity|]. split; [eexists; reflexivity|].
    intros cb. rewrite !calls_app, !messagesTo_app, calls_commitLogged, Hc,
      messagesTo_notifications. simpl. now rewrite app_nil_r. }
  assert (Hdistinct : noMicrophoneMessage <> accessDeniedMessage) by discriminate.
  destruct (String.eqb error "no-speech");
    [|destruct (String.eqb error "audio-capture");
      [|destruct (String.eqb error "not-allowed")]];
    try (unfold bind at 1); unfold ret;
    rewrite ?VoiceEngine_log_run, ?notifyError_run;
    fold noMicrophoneMessage; fold accessDeniedMessage;
    destruct (VoiceEngine.onErrorCallback e) as [cb|] eqn:Ecb;
    cbn [fnBody addEvents];
    try (pose proof (Hret cb eq_refl) as Hcb; unfold returns in Hcb;
         rewrite ?Hcb);
    fold (addEvents w); rewrite ?addEvents_app;
    match goal with
    | |- context [VoiceEngine.onStateManager StateManager.reset e (addEvents w ?evs)] =>
        specialize (Hreset (addEvents w evs) evs eq_refl);
        destruct (VoiceEngine.onStateManager StateManager.reset e (addEvents w evs))
          as [[r e'] w']
    end;
    destruct Hreset as (Hp & Hx & Hm);
    (split; [assumption|]); (split; [assumption|]); (split; [|assumption]);
    intros cb' E; try discriminate; injection E as <-; rewrite Hm;
    rewrite ?calls_app, ?calls_logged; simpl; now rewrite ?Nat.eqb_refl.
Qed.

(** ** Frame conditions *)

Section Keeps.

Context {S : Type} (R : S * World -> S * World -> Prop).
Hypothesis R_refl : forall s, R s s.
Hypothesis R_trans : forall a b c, R a b -> R b c -> R a c.

Lemma keeps_ret {A} (a : A) : keeps R (ret a).
Proof. intros s w. apply R_refl. Qed.

Lemma keeps_throw {A} (v : JsValue) : keeps R (@throw S A v).
Proof. intros s w. apply R_refl. Qed.

Lemma keeps_get : keeps R (@get S).
Proof. intros s w. apply R_refl. Qed.

Lemma keeps_world : keeps R (@world S).
Proof. intros s w. apply R_refl. Qed.

Lemma keeps_bind {A B} (m : M S A) (k : A -> M S B) :
  keeps R m -> (forall a, keeps R (k a)) -> keeps R (bind m k).
Proof.
  intros Hm Hk s w. specialize (Hm s w). unfold after, bind in *. simpl in *.
  destruct (m s w) as [[[a|v] s1] w1]; [|assumption].
  specialize (Hk a s1 w1). unfold after in Hk. simpl in Hk.
  destruct (k a s1 w1) as [[r s2] w2]. eapply R_trans; eauto.
Qed.

Lemma keeps_try_catch {A} (m : M S A) (h : JsValue -> M S A) :
  keeps R m -> (forall v, keeps R (h v)) -> keeps R (try_catch m h).
Proof.
  intros Hm Hh s w. specialize (Hm s w). unfold after, try_catch in *. simpl in *.
  destruct (m s w) as [[[a|v] s1] w1]; [assumption|].
  specialize (Hh v s1 w1). unfold after in Hh. simpl in Hh.
  destruct (h v s1 w1) as [[r s2] w2]. eapply R_trans; eauto.
Qed.

Lemma keeps_message_of (v : JsValue) : keeps R (@message_of S v).
Proof. destruct v; simpl; auto using keeps_ret, keeps_throw. Qed.

End Keeps.

Lemma sameSession_refl s : sameSession s s.
Proof. unfold sameSession, sameCapabilities. auto. Qed.

Lemma sameSession_trans a b c : sameSession a b -> sameSession b c -> sameSession a c.
Proof. unfold sameSession, sameCapabilities. intuition congruence. Qed.

Lemma sameCapabilities_refl s : sameCapabilities s s.
Proof. unfold sameCapabilities. auto. Qed.

Lemma sameCapabilities_trans a b c :
  sameCapabilities a b -> sameCapabilities b c -> sameCapabilities a c.
Proof. unfold sameCapabilities. intuition congruence. Qed.

Lemma mayStartCapture_refl s : mayStartCapture s s.
Proof. unfold mayStartCapture. auto. Qed.

Lemma mayStartCapture_trans a b c :
  mayStartCapture a b -> mayStartCapture b c -> mayStartCapture a c.
Proof.
  unfold mayStartCapture. intros (H1 & H2 & H3) (H4 & H5 & H6).
  repeat split; try congruence.
  destruct H3, H6; auto; [left|right]; congruence.
Qed.

Lemma mayStopCapture_refl s : mayStopCapture s s.
Proof. unfold mayStopCapture. auto. Qed.

Lemma mayStopCapture_trans a b c :
  mayStopCapture a b -> mayStopCapture b c -> mayStopCapture a c.
Proof. unfold mayStopCapture. intuition congruence. Qed.

Lemma mayCancelRender_refl s : mayCancelRender s s.
Proof. unfold mayCancelRender. auto. Qed.

Lemma mayCancelRender_trans a b c :
  mayCancelRender a b -> mayCancelRender b c -> mayCancelRender a c.
Proof. unfold mayCancelRender. intuition congruence. Qed.

Lemma sameSession_sameCapabilities s s' : sameSession s s' -> sameCapabilities s s'.
Proof. now intros [H _]. Qed.

Lemma sameSession_mayStartCapture s s' : sameSession s s' -> mayStartCapture s s'.
Proof. unfold sameSession, sameCapabilities, mayStartCapture. intuition. Qed.

Lemma sameCapabilities_mayStartCapture s s' :
  sameCapabilities s s' -> mayStartCapture s s'.
Proof. unfold sameCapabilities, mayStartCapture. intuition. Qed.

Lemma sameSession_mayStopCapture s s' : sameSession s s' -> mayStopCapture s s'.
Proof. unfold sameSession, sameCapabilities, mayStopCapture. intuition congruence. Qed.

Lemma sameSession_mayCancelRender s s' : sameSession s s' -> mayCancelRender s s'.
Proof. unfold sameSession, sameCapabilities, mayCancelRender. intuition congruence. Qed.

Lemma keeps_weaken {S A} (R R' : S * World -> S * World -> Prop) (m : M S A) :
  (forall s s', R s s' -> R' s s') -> keeps R m -> keeps R' m.
Proof. intros H Hm s w. apply H, Hm. Qed.

(** The primitives of the engine, each with the most it can move. *)

Ltac same :=
  unfold sameSession, sameCapabilities, mayStartCapture, mayStopCapture,
    mayCancelRender, phase; simpl; auto.

Lemma VoiceEngine_log_keeps message level :
  keeps sameSession (VoiceEngine.log message level).
Proof.
  intros e w. unfold after. cbn [fst snd]. rewrite VoiceEngine_log_run. same.
Qed.

Lemma call_keeps f args : keeps sameSession (@call VoiceEngine.t f args).
Proof. intros e w. same. Qed.

Lemma effect_emit_keeps ev : keeps sameSession (@effect VoiceEngine.t (emit ev)).
Proof. intros e w. same. Qed.

Lemma onStateManager_is_keeps state :
  keeps sameSession (VoiceEngine.onStateManager (StateManager.is_ state)).
Proof.
  intros e w. unfold after. cbn [fst snd]. rewrite onStateManager_is. same.
Qed.

Lemma onStateManager_transition_keeps newState :
  keeps sameCapabilities
    (VoiceEngine.onStateManager (StateManager.transition newState)).
Proof.
  intros e w. unfold after, VoiceEngine.onStateManager. simpl.
  destruct (transition_any newState (VoiceEngine.stateManager e) w)
    as (r & evs & k & -> & _).
  unfold sameCapabilities. simpl. auto.
Qed.

Lemma onStateManager_reset_keeps :
  keeps sameCapabilities (VoiceEngine.onStateManager StateManager.reset).
Proof.
  intros e w. unfold after. cbn [fst snd].
  destruct (reset_run e w) as (r & evs & k & -> & _). same.
Qed.

Lemma onStateManager_addListener_keeps callback :
  keeps sameSession (VoiceEngine.onStateManager (StateManager.addListener callback)).
Proof.
  intros e w. unfold after, VoiceEngine.onStateManager, StateManager.addListener.
  destruct callback; same.
Qed.

Lemma onStateManager_removeListener_keeps callback :
  keeps sameSession
    (VoiceEngine.onStateManager (StateManager.removeListener callback)).
Proof.
  intros e w. same.
Qed.

Lemma recognition_set_lang_keeps lang :
  keeps sameSession (VoiceEngine.recognition_set_lang lang).
Proof.
  intros e w. unfold after, VoiceEngine.recognition_set_lang, bind, get. simpl.
  destruct (VoiceEngine.recognition e); same.
Qed.

Lemma recognition_start_keeps : keeps mayStartCapture VoiceEngine.recognition_start.
Proof.
  intros e w. unfold after, VoiceEngine.recognition_start, bind, get, world. simpl.
  destruct (VoiceEngine.recognition e) eqn:E; simpl.
  - destruct (capture w); same.
  - same.
Qed.

Lemma recognition_stop_keeps : keeps mayStopCapture VoiceEngine.recognition_stop.
Proof.
  intros e w. unfold mayStopCapture, phase. simpl.
  destruct (capture w); simpl; repeat split; auto; discriminate.
Qed.

Lemma synthesis_speaking_keeps : keeps sameSession VoiceEngine.synthesis_speaking.
Proof.
  intros e w. unfold after, VoiceEngine.synthesis_speaking, bind, get, world. simpl.
  destruct (VoiceEngine.synthesisAvailable e); same.
Qed.

Lemma synthesis_cancel_keeps : keeps mayCancelRender VoiceEngine.synthesis_cancel.
Proof.
  intros e w. unfold mayCancelRender, phase. simpl.
  destruct (render w); simpl; repeat split; auto; discriminate.
Qed.

Create HintDb frame.

#[local] Hint Resolve
  sameSession_refl sameSession_trans sameCapabilities_refl sameCapabilities_trans
  mayStartCapture_refl mayStartCapture_trans mayStopCapture_refl
  mayStopCapture_trans mayCancelRender_refl mayCancelRender_trans
  VoiceEngine_log_keeps call_keeps effect_emit_keeps onStateManager_is_keeps
  onStateManager_transition_keeps onStateManager_reset_keeps
  onStateManager_addListener_keeps onStateManager_removeListener_keeps
  recognition_set_lang_keeps recognition_start_keeps recognition_stop_keeps
  synthesis_speaking_keeps synthesis_cancel_keeps : frame.

(** One step through the syntax of a method. *)
Ltac frame_step :=
  match goal with
  | |- forall _, _ => intro; lazymatch goal with |- keeps _ _ => idtac end
  | |- keeps _ (bind _ _) => apply keeps_bind
  | |- keeps _ (try_catch _ _) => apply keeps_try_catch
  | |- keeps _ (ret _) => apply keeps_ret
  | |- keeps _ (throw _) => apply keeps_throw
  | |- keeps _ get => apply keeps_get
  | |- keeps _ world => apply keeps_world
  | |- keeps _ (message_of _) => apply keeps_message_of
  | |- keeps _ (if ?b then _ else _) => destruct b
  | |- keeps _ (match ?o with Some _ => _ | None => _ end) => destruct o
  end.

(** A primitive keeps the relation asked for when it keeps a finer one. *)
Ltac frame_leaf :=
  first
    [ solve [eauto with frame]
    | solve [eapply keeps_weaken; [apply sameSession_sameCapabilities|auto with frame]]
    | solve [eapply keeps_weaken; [apply sameSession_mayStartCapture|auto with frame]]
    | solve [eapply keeps_weaken; [apply sameCapabilities_mayStartCapture|auto with frame]]
    | solve [eapply keeps_weaken; [apply sameSession_mayStopCapture|auto with frame]]
    | solve [eapply keeps_weaken; [apply sameSession_mayCancelRender|auto with frame]] ].

Ltac frame := repeat frame_step; try frame_leaf.

Lemma notifyError_keeps message : keeps sameSession (VoiceEngine.notifyError message).
Proof. unfold VoiceEngine.notifyError. frame. Qed.

Lemma recognition_onstart_keeps : keeps sameSession VoiceEngine.recognition_onstart.
Proof. unfold VoiceEngine.recognition_onstart. frame. Qed.

Lemma utterance_onstart_keeps text :
  keeps sameSession (VoiceEngine.utterance_onstart text).
Proof. unfold VoiceEngine.utterance_onstart. frame. Qed.

Lemma recognition_onend_keeps : keeps sameCapabilities VoiceEngine.recognition_onend.
Proof. unfold VoiceEngine.recognition_onend. frame. Qed.

Lemma recognition_onerror_keeps error :
  keeps sameCapabilities (VoiceEngine.recognition_onerror error).
Proof.
  unfold VoiceEngine.recognition_onerror.
  pose proof notifyError_keeps as H. frame.
Qed.

Lemma utterance_onend_keeps : keeps sameCapabilities VoiceEngine.utterance_onend.
Proof. unfold VoiceEngine.utterance_onend, VoiceEngine.resolve. frame. Qed.

Lemma utterance_onerror_keeps error :
  keeps sameCapabilities (VoiceEngine.utterance_onerror error).
Proof. unfold VoiceEngine.utterance_onerror, VoiceEngine.reject. frame. Qed.

Lemma recognition_onresult_keeps text confidence :
  keeps sameCapabilities (VoiceEngine.recognition_onresult text confidence).
Proof.
  intros e w.
  unfold after, VoiceEngine.recognition_onresult. cbn [fst snd]. cbv zeta.
  unfold bind at 1. rewrite VoiceEngine_log_run.
  unfold bind at 1. unfold world at 1. unfold bind at 1. unfold get at 1.
  destruct (_ && _).
  - rewrite VoiceEngine_log_run. same.
  - unfold bind at 1. unfold put at 1. unfold bind at 1.
    rewrite onStateManager_is. cbn [VoiceEngine.stateManager].
    destruct (String.eqb _ "LISTENING"); [|same].
    unfold bind at 1.
    match goal with
    | |- context [VoiceEngine.onStateManager (StateManager.transition ?t) ?e1 ?w1] =>
        pose proof (onStateManager_transition_keeps t e1 w1) as H;
        unfold after in H; cbn [fst snd] in H;
        destruct (VoiceEngine.onStateManager (StateManager.transition t) e1 w1)
          as [[r e2] w2]
    end.
    unfold sameCapabilities in *. simpl in H.
    destruct r; [destruct (VoiceEngine.onTranscriptCallback e)|];
      unfold call, ret; simpl; intuition congruence.
Qed.

Lemma startListening_keeps : keeps mayStartCapture VoiceEngine.startListening.
Proof.
  unfold VoiceEngine.startListening.
  pose proof notifyError_keeps as H. frame.
Qed.

Lemma stopListening_keeps : keeps mayStopCapture VoiceEngine.stopListening.
Proof. unfold VoiceEngine.stopListening. frame. Qed.

Lemma cancelSpeech_keeps : keeps mayCancelRender VoiceEngine.cancelSpeech.
Proof. unfold VoiceEngine.cancelSpeech. frame. Qed.

Lemma setRecognitionLanguage_keeps langCode :
  keeps sameSession (VoiceEngine.setRecognitionLanguage langCode).
Proof.
  intros [sm rec ra sa lt ltt otc oec rl sl dbg] w.
  unfold after, VoiceEngine.setRecognitionLanguage, VoiceEngine.recognition_set_lang,
    VoiceEngine.log, bind, get, put, effect, ret, world.
  destruct rec, dbg; same.
Qed.

Lemma setSynthesisLanguage_keeps langCode :
  keeps sameSession (VoiceEngine.setSynthesisLanguage langCode).
Proof.
  intros [sm rec ra sa lt ltt otc oec rl sl dbg] w.
  unfold after, VoiceEngine.setSynthesisLanguage, VoiceEngine.recognition_set_lang,
    VoiceEngine.log, bind, get, put, effect, ret, world.
  destruct rec, dbg; same.
Qed.

Lemma onTranscript_keeps callback : keeps sameSession (VoiceEngine.onTranscript callback).
Proof. intros e w. same. Qed.

Lemma onError_keeps callback : keeps sameSession (VoiceEngine.onError callback).
Proof. intros e w. same. Qed.

(** Outside LISTENING the end of recognition and a result leave the phase
    alone. *)
Lemma recognition_onend_elsewhere (e : VoiceEngine.t) (w : World) :
  StateManager.currentState (VoiceEngine.stateManager e) <> "LISTENING" ->
  sameSession (e, w) (after VoiceEngine.recognition_onend (e, w)).
Proof.
  intros H. apply String.eqb_neq in H.
  unfold after, VoiceEngine.recognition_onend. cbn [fst snd].
  unfold bind at 1. rewrite VoiceEngine_log_run.
  unfold bind at 1. rewrite onStateManager_is, H. same.
Qed.

Lemma recognition_onresult_elsewhere text confidence (e : VoiceEngine.t) (w : World) :
  StateManager.currentState (VoiceEngine.stateManager e) <> "LISTENING" ->
  sameSession (e, w) (after (VoiceEngine.recognition_onresult text confidence) (e, w)).
Proof.
  intros H. apply String.eqb_neq in H.
  unfold after, VoiceEngine.recognition_onresult. cbn [fst snd]. cbv zeta.
  unfold bind at 1. rewrite VoiceEngine_log_run.
  unfold bind at 1. unfold world at 1. unfold bind at 1. unfold get at 1.
  destruct (_ && _).
  - rewrite VoiceEngine_log_run. same.
  - unfold bind at 1. unfold put at 1. unfold bind at 1.
    rewrite onStateManager_is. cbn [VoiceEngine.stateManager]. rewrite H. same.
Qed.

(** ** The events of the state manager *)

Lemma managerEvent_logged debug level prefix now message :
  Forall managerEvent (logged debug level prefix now message).
Proof. unfold logged. destruct debug; repeat constructor. Qed.

Lemma managerEvent_commitLogged debug forced p n now :
  Forall managerEvent (commitLogged debug forced p n now).
Proof.
  unfold commitLogged, commitLine. destruct debug, forced; repeat constructor.
Qed.

Lemma notifyOne_events (p n : string) (f : FnRef) (sm : StateManager.t) (w : World) :
  exists r evs,
    StateManager.notifyOne p n f sm w = (r, sm, addEvents w evs)
    /\ Forall managerEvent evs.
Proof.
  unfold StateManager.notifyOne, try_catch, call.
  destruct (fnBody w f (trace w) [VString p; VString n]) as [[]|v].
  - exists (Normal tt), [Call f [VString p; VString n]]. split; [reflexivity|].
    repeat constructor.
  - destruct v; simpl; unfold bind, message_of, throw, ret;
      try rewrite StateManager_log_run; rewrite ?emit_addEvents, ?addEvents_app;
      do 2 eexists; (split; [reflexivity|]);
      repeat first [apply Forall_app; split | apply managerEvent_logged
                   | constructor; [exact I|] | constructor].
Qed.

Lemma forEach_notifyOne_events (p n : string) (ls : list FnRef) :
  forall (sm : StateManager.t) (w : World),
    exists r evs,
      forEach (StateManager.notifyOne p n) ls sm w = (r, sm, addEvents w evs)
      /\ Forall managerEvent evs.
Proof.
  induction ls as [|f ls IH]; intros sm w; simpl.
  - exists (Normal tt), []. rewrite addEvents_nil. auto.
  - unfold bind.
    destruct (notifyOne_events p n f sm w) as (r & evs1 & -> & H1).
    destruct r as [[]|v].
    + destruct (IH sm (addEvents w evs1)) as (r2 & evs2 & -> & H2).
      rewrite addEvents_app. do 2 eexists. split; [reflexivity|].
      apply Forall_app. auto.
    + eauto.
Qed.

(** Whatever [transition] and [forceTransition] do to the world, they add
    console lines and calls of listeners to the trace, and nothing else. *)
Lemma transition_events (t : string) (sm : StateManager.t) (w : World) :
  exists evs,
    snd (after (StateManager.transition t) (sm, w)) = addEvents w evs
    /\ Forall managerEvent evs.
Proof.
  unfold after. cbn [fst snd]. rewrite transition_run. cbv zeta.
  destruct (negb _).
  - eexists. split; [reflexivity|]. apply managerEvent_logged.
  - destruct (readProp StateManager.TRANSITIONS _) as [arr| |].
    + destruct (includes arr t).
      * unfold StateManager.notifyListeners, bind, get.
        destruct (forEach_notifyOne_events (StateManager.currentState sm) t
                    (StateManager.listeners sm)
                    (StateManager.mk t (StateManager.listeners sm)
                                     (StateManager.debugMode sm))
                    (addEvents w (commitLogged (StateManager.debugMode sm) false
                                    (StateManager.currentState sm) t (clock w))))
          as (r & evs & E & H).
        cbn [StateManager.listeners]. rewrite E.
        exists (commitLogged (StateManager.debugMode sm) false
                  (StateManager.currentState sm) t (clock w) ++ evs).
        split; [destruct r; cbn [snd]; now rewrite addEvents_app|].
        apply Forall_app. split; [apply managerEvent_commitLogged|assumption].
      * eexists. split; [reflexivity|]. apply managerEvent_logged.
    + exists []. rewrite addEvents_nil. auto.
    + exists []. rewrite addEvents_nil. auto.
Qed.

Lemma forceTransition_events (t : string) (sm : StateManager.t) (w : World) :
  exists evs,
    snd (after (StateManager.forceTransition t) (sm, w)) = addEvents w evs
    /\ Forall managerEvent evs.
Proof.
  unfold after. cbn [fst snd]. rewrite forceTransition_run. cbv zeta.
  destruct (negb _).
  - eexists. split; [reflexivity|]. apply managerEvent_logged.
  - unfold StateManager.notifyListeners, bind, get.
    destruct (forEach_notifyOne_events (StateManager.currentState sm) t
                (StateManager.listeners sm)
                (StateManager.mk t (StateManager.listeners sm)
                                 (StateManager.debugMode sm))
                (addEvents w (commitLogged (StateManager.debugMode sm) true
                                (StateManager.currentState sm) t (clock w))))
      as (r & evs & E & H).
    cbn [StateManager.listeners]. rewrite E.
    exists (commitLogged (StateManager.debugMode sm) true
              (StateManager.currentState sm) t (clock w) ++ evs).
    split; [cbn [snd]; now rewrite addEvents_app|].
    apply Forall_app. split; [apply managerEvent_commitLogged|assumption].
Qed.

(** ** Speaking in turn *)

(** Running a method of the engine on an engine given by its fields. *)
Ltac run_engine :=
  cbv beta iota zeta delta
    [VoiceEngine.speak try_catch bind get world ret effect throw
     VoiceEngine.onStateManager StateManager.is_ VoiceEngine.log
     VoiceEngine.synthesis_speaking VoiceEngine.synthesis_cancel
     VoiceEngine.recognition_stop VoiceEngine.synthesis_speak
     VoiceEngine.reject VoiceEngine.withStateManager
     VoiceEngine.stateManager VoiceEngine.recognition VoiceEngine.synthesisLang
     VoiceEngine.synthesisAvailable VoiceEngine.debugMode
     VoiceEngine.recognitionAvailable VoiceEngine.lastTranscript
     VoiceEngine.lastTranscriptTime VoiceEngine.onTranscriptCallback
     VoiceEngine.onErrorCallback VoiceEngine.recognitionLang negb quiesced logged].

(** [speak] in PROCESSING with the rendering capability at hand: once
    capture is quiet it asks for the transition, and renders only if the
    transition returned [true]. *)
Lemma speak_run (text : string) (lang : option string)
    (e : VoiceEngine.t) (w : World) :
  StateManager.currentState (VoiceEngine.stateManager e) = "PROCESSING" ->
  VoiceEngine.synthesisAvailable e = true ->
  VoiceEngine.speak text lang e w =
  match StateManager.transition "SPEAKING" (VoiceEngine.stateManager e)
          (quiesced e w) with
  | (Normal true, sm', w') =>
      (Normal Pending, VoiceEngine.withStateManager sm' e,
       renderStarted text
         (VoiceEngine.langOrDefault lang (VoiceEngine.synthesisLang e)) w')
  | (Normal false, sm', w') =>
      (Normal (Rejected (VError "Error" "Failed to transition to SPEAKING state")),
       VoiceEngine.withStateManager sm' e,
       emit (PromiseReject (VError "Error" "Failed to transition to SPEAKING state"))
            w')
  | (Abrupt v, sm', w') =>
      (Normal (Rejected v), VoiceEngine.withStateManager sm' e,
       emit (PromiseReject v) w')
  end.
Proof.
  intros Hp Hs. destruct e as [sm rec ra sa lt ltt otc oec rl sl dbg].
  cbn [VoiceEngine.stateManager VoiceEngine.synthesisAvailable] in Hp, Hs. subst sa.
  run_engine. rewrite Hp, String.eqb_refl. run_engine.
  destruct w as [now tr cap rlang rnd body].
  destruct dbg, rec, rnd; run_engine;
    cbv beta iota zeta delta
      [emit addEvents renderCancelled captureStopped clock trace capture
       recognition_lang render fnBody];
    rewrite ?app_nil_r;
    match goal with
    | |- context [StateManager.transition ?t ?m ?w1] =>
        destruct (StateManager.transition t m w1) as [[[[|]|v] sm'] w3]
    end; reflexivity.
Qed.

Lemma speak_unavailable (text : string) (lang : option string)
    (e : VoiceEngine.t) (w : World) :
  StateManager.currentState (VoiceEngine.stateManager e) = "PROCESSING" ->
  VoiceEngine.synthesisAvailable e = false ->
  VoiceEngine.speak text lang e w =
  (Normal (Rejected (VError "Error" "Speech synthesis not available")), e,
   addEvents w
     (logged (VoiceEngine.debugMode e) Error "[VoiceEngine]" (clock w)
             "Speech Synthesis not available"
      ++ [PromiseReject (VError "Error" "Speech synthesis not available")])).
Proof.
  intros Hp Hs. destruct e as [sm rec ra sa lt ltt otc oec rl sl dbg].
  cbn [VoiceEngine.stateManager VoiceEngine.synthesisAvailable] in Hp, Hs. subst sa.
  run_engine. rewrite Hp, String.eqb_refl. run_engine.
  destruct dbg; rewrite ?emit_addEvents, ?addEvents_app; reflexivity.
Qed.

Lemma quiesced_facts (e : VoiceEngine.t) (w : World) :
  trace (quiesced e w) = trace w ++ quiescedEvents e w
  /\ clock (quiesced e w) = clock w
  /\ (render (quiesced e w) <> RenderIdle -> render w <> RenderIdle)
  /\ (capture (quiesced e w) = Capturing ->
      capture w = Capturing /\ VoiceEngine.recognition e = false)
  /\ (VoiceEngine.recognition e = false -> capture (quiesced e w) = capture w).
Proof.
  unfold quiesced, quiescedEvents.
  destruct w as [now tr cap rlang rnd body].
  destruct (VoiceEngine.recognition e), rnd, cap; simpl;
    rewrite <- ?app_assoc, ?app_nil_r; simpl;
    repeat split; auto; try discriminate; intros H; try discriminate; auto.
Qed.

Lemma notSpeak_managerEvent (evs : list Event) :
  Forall managerEvent evs -> Forall notSpeak evs.
Proof.
  apply Forall_impl. intros [ ]; simpl; auto.
Qed.

Lemma notSpeak_quiescedEvents (e : VoiceEngine.t) (w : World) :
  Forall notSpeak (quiescedEvents e w).
Proof.
  unfold quiescedEvents. apply Forall_app. split.
  - destruct (render w); repeat constructor.
    apply notSpeak_managerEvent, managerEvent_logged.
  - destruct (VoiceEngine.recognition e); repeat constructor.
Qed.

Lemma addEvents_inj (w : World) (a b : list Event) :
  addEvents w a = addEvents w b -> a = b.
Proof.
  intros H. apply (f_equal trace) in H. simpl in H.
  now apply app_inv_head in H.
Qed.

(** [speak] in PROCESSING.  Either it renders: then the invocation of the
    rendering capability is its last event and the only one, the phase is
    SPEAKING, and an engine with a recognition object has stopped capture
    before.  Or it does not render at all, and rejects its promise. *)
Lemma speak_in_processing (text : string) (lang : option string)
    (e : VoiceEngine.t) (w : World) :
  StateManager.currentState (VoiceEngine.stateManager e) = "PROCESSING" ->
  let '(r, e', w') := VoiceEngine.speak text lang e w in
  VoiceEngine.recognition e' = VoiceEngine.recognition e
  /\ ((exists before,
          r = Normal Pending
          /\ fst (fst (StateManager.transition "SPEAKING" (VoiceEngine.stateManager e)
                         (quiesced e w))) = Normal true
          /\ phase (e', w') = "SPEAKING"
          /\ render w' = Rendering
          /\ emitted w w'
             = before ++ [SynthesisSpeak text
                            (VoiceEngine.langOrDefault lang (VoiceEngine.synthesisLang e))]
          /\ Forall notSpeak before
          /\ (VoiceEngine.recognition e = true -> In RecognitionStop before)
          /\ capture w' = capture (quiesced e w))
      \/ (fst (fst (StateManager.transition "SPEAKING" (VoiceEngine.stateManager e)
                      (quiesced e w))) <> Normal true
          \/ VoiceEngine.synthesisAvailable e = false)
         /\ Forall notSpeak (emitted w w')
         /\ (render w' <> RenderIdle -> render w <> RenderIdle)
         /\ (capture w' = Capturing -> capture w = Capturing)
         /\ (exists reason,
               r = Normal (Rejected reason)
               /\ In (PromiseReject reason) (emitted w w'))).
Proof.
  intros Hp.
  destruct (VoiceEngine.synthesisAvailable e) eqn:Hs.
  - rewrite (speak_run text lang e w Hp Hs).
    destruct (quiesced_facts e w) as (Htr & Hclock & Hrender & Hcapture & Hsame).
    destruct (transition_any "SPEAKING" (VoiceEngine.stateManager e) (quiesced e w))
      as (r & evs & k & Et & _ & _ & Hnf).
    destruct (transition_events "SPEAKING" (VoiceEngine.stateManager e) (quiesced e w))
      as (evs0 & Ev & Hm).
    cbv zeta in Et. unfold after in Ev. cbn [fst snd] in Ev.
    rewrite Et in *. cbn [snd fst] in *.
    apply addEvents_inj in Ev. rewrite Ev in *. clear Ev.
    assert (Hv : validated (VoiceEngine.stateManager e) "SPEAKING" = true)
      by (unfold validated; now rewrite Hp).
    rewrite Hv in *. specialize (Hnf eq_refl).
    assert (Hemitted : forall last,
               emitted w (emit last (addEvents (quiesced e w) evs0))
               = (quiescedEvents e w ++ evs0) ++ [last]).
    { intros last. apply emitted_trace. simpl. rewrite Htr.
      now rewrite <- !app_assoc. }
    assert (Hquiet : Forall notSpeak (quiescedEvents e w ++ evs0)).
    { apply Forall_app. split; [apply notSpeak_quiescedEvents|].
      now apply notSpeak_managerEvent. }
    destruct r as [[|]|v]; [|congruence|].
    + split; [now destruct e|]. left.
      exists (quiescedEvents e w ++ evs0).
      split; [reflexivity|].
      split; [reflexivity|]. split; [reflexivity|]. split; [reflexivity|].
      split; [apply (Hemitted (SynthesisSpeak _ _))|].
      split; [assumption|]. split; [|reflexivity].
      intros Hrec. apply in_or_app. left. unfold quiescedEvents.
      apply in_or_app. right. rewrite Hrec. now left.
    + split; [now destruct e|]. right.
      split; [left; discriminate|].
      rewrite (Hemitted (PromiseReject v)).
      split; [apply Forall_app; split; [assumption|repeat constructor]|].
      split; [exact Hrender|]. split; [intros H; now apply Hcapture|].
      exists v. split; [reflexivity|]. apply in_or_app. right. now left.
  - rewrite (speak_unavailable text lang e w Hp Hs). rewrite emitted_addEvents.
    split; [reflexivity|]. right. split; [now right|].
    split; [apply Forall_app; split;
            [apply notSpeak_managerEvent, managerEvent_logged|repeat constructor]|].
    split; [auto|]. split; [auto|].
    eexists. split; [reflexivity|]. apply in_or_app. right. now left.
Qed.

(** ** Capture needs a recognition object *)

Lemma mayCapture_refl s : mayCapture s s.
Proof. unfold mayCapture. auto. Qed.

Lemma mayCapture_trans a b c : mayCapture a b -> mayCapture b c -> mayCapture a c.
Proof.
  unfold mayCapture. intros [H1 H2] [H3 H4]. split; [congruence|].
  intros H. destruct (H4 H) as [H5|H5]; [auto|]. right. congruence.
Qed.

Lemma sameCapabilities_mayCapture s s' : sameCapabilities s s' -> mayCapture s s'.
Proof.
  unfold sameCapabilities, mayCapture. intros (H1 & H2 & _).
  split; [assumption|]. intros H. left. congruence.
Qed.

Lemma sameSession_mayCapture s s' : sameSession s s' -> mayCapture s s'.
Proof. intros [H _]. now apply sameCapabilities_mayCapture. Qed.

Lemma mayStartCapture_mayCapture s s' : mayStartCapture s s' -> mayCapture s s'.
Proof.
  unfold mayStartCapture, mayCapture. intros (H1 & _ & [H2|H2]);
    (split; [assumption|]); intros H; [left; congruence|now right].
Qed.

Lemma mayStopCapture_mayCapture s s' : mayStopCapture s s' -> mayCapture s s'.
Proof. unfold mayStopCapture, mayCapture. intros (H1 & _ & _ & H2). auto. Qed.

Lemma mayCancelRender_mayCapture s s' : mayCancelRender s s' -> mayCapture s s'.
Proof.
  unfold mayCancelRender, mayCapture. intros (H1 & H2 & _).
  split; [assumption|]. intros H. left. congruence.
Qed.

Lemma synthesis_speak_mayCapture text lang :
  keeps mayCapture (VoiceEngine.synthesis_speak text lang).
Proof. intros e w. unfold mayCapture. simpl. auto. Qed.

Lemma onStateManager_getState_mayCapture :
  keeps mayCapture (VoiceEngine.onStateManager StateManager.getState).
Proof.
  intros e w.
  unfold after, VoiceEngine.onStateManager, StateManager.getState, bind, get, ret.
  cbn [fst snd]. rewrite withStateManager_same. apply mayCapture_refl.
Qed.

Create HintDb captures.

#[local] Hint Resolve
  mayCapture_refl mayCapture_trans synthesis_speak_mayCapture
  onStateManager_getState_mayCapture : captures.

Ltac captures_leaf :=
  first
    [ solve [eauto with captures]
    | solve [eapply keeps_weaken; [apply sameSession_mayCapture|auto with frame]]
    | solve [eapply keeps_weaken; [apply sameCapabilities_mayCapture|auto with frame]]
    | solve [eapply keeps_weaken; [apply mayStartCapture_mayCapture|auto with frame]]
    | solve [eapply keeps_weaken; [apply mayStopCapture_mayCapture|auto with frame]]
    | solve [eapply keeps_weaken; [apply mayCancelRender_mayCapture|auto with frame]] ].

Ltac captures := repeat frame_step; try captures_leaf.

Lemma speak_mayCapture text lang : keeps mayCapture (VoiceEngine.speak text lang).
Proof. unfold VoiceEngine.speak, VoiceEngine.reject. captures. Qed.

Lemma speakResponse_catch_mayCapture error :
  keeps mayCapture (LinguaBridgeApp.speakResponse_catch error).
Proof. unfold LinguaBridgeApp.speakResponse_catch. captures. Qed.

Lemma speakResponse_mayCapture text :
  keeps mayCapture (LinguaBridgeApp.speakResponse text).
Proof.
  unfold LinguaBridgeApp.speakResponse.
  apply keeps_bind; [apply mayCapture_trans|apply speak_mayCapture|].
  intros [|reason]; [apply keeps_ret, mayCapture_refl|].
  apply speakResponse_catch_mayCapture.
Qed.

Lemma handler_mayCapture (a : Action) : keeps mayCapture (handler a).
Proof.
  pose proof notifyError_keeps as Hn.
  pose proof speakResponse_mayCapture as Hs.
  pose proof speak_mayCapture as Hk.
  pose proof speakResponse_catch_mayCapture as Hc.
  pose proof recognition_onresult_keeps as Hr.
  pose proof setRecognitionLanguage_keeps as H1.
  pose proof setSynthesisLanguage_keeps as H2.
  pose proof onTranscript_keeps as H3.
  pose proof onError_keeps as H4.
  destruct a; cbn [handler];
    unfold VoiceEngine.startListening, VoiceEngine.stopListening,
      VoiceEngine.cancelSpeech, VoiceEngine.recognition_onstart,
      VoiceEngine.recognition_onend, VoiceEngine.recognition_onerror,
      VoiceEngine.utterance_onstart, VoiceEngine.utterance_onend,
      VoiceEngine.utterance_onerror, VoiceEngine.resolve, VoiceEngine.reject,
      LinguaBridgeApp.handleMicClick, LinguaBridgeApp.startListening,
      LinguaBridgeApp.switchLesson, LinguaBridgeApp.handleTranscript,
      VoiceEngine.startListening, VoiceEngine.stopListening;
    captures.
Qed.

Lemma step_mayCapture (a : Action) (s : VoiceEngine.t * World) :
  mayCapture s (step a s).
Proof.
  destruct s as [e w]. unfold step. cbn [fst snd].
  apply (mayCapture_trans _ (e, deliver a w)); [|apply handler_mayCapture].
  unfold mayCapture. cbn [fst snd]. split; [reflexivity|].
  destruct a; cbn [deliver capture setClock]; auto; discriminate.
Qed.

(** In every state the coordinator can reach, capture is active only in
    an engine that has a recognition object. *)
Lemma capture_needs_recognition (s : VoiceEngine.t * World) :
  reachable s ->
  capture (snd s) = Capturing -> VoiceEngine.recognition (fst s) = true.
Proof.
  induction 1 as [rs ss w Hc Hr|a s _ IH En].
  - unfold VoiceEngine.constructor. rewrite VoiceEngine_log_run.
    cbn [fst snd capture addEvents]. rewrite Hc. discriminate.
  - destruct (step_mayCapture a s) as [Hrec Hcap]. rewrite Hrec.
    intros H. destruct (Hcap H); auto.
Qed.

(** ** The invariant of the coordinator *)

Lemma Inv_sameSession s s' : Inv s -> sameSession s s' -> Inv s'.
Proof.
  unfold Inv, sameSession, sameCapabilities.
  intros (I1 & I2) ((Hrec & Hcap & Hren) & Hph).
  rewrite Hrec, Hcap, Hren, Hph. auto.
Qed.

(** With no utterance in flight, the phase may move freely. *)
Lemma Inv_at_rest s s' :
  render (snd s) = RenderIdle ->
  (capture (snd s) = Capturing -> VoiceEngine.recognition (fst s) = true) ->
  sameCapabilities s s' ->
  Inv s'.
Proof.
  unfold Inv, sameCapabilities. intros Hr I2 (Hrec & Hcap & Hren).
  rewrite Hrec, Hcap, Hren. split; [congruence|assumption].
Qed.

Lemma after_then_ret {S A} (m : M S A) (s : S * World) :
  after (bind m (fun _ => ret tt)) s = after m s.
Proof.
  unfold after, bind, ret. destruct (m (fst s) (snd s)) as [[[a|v] s'] w']; reflexivity.
Qed.

Lemma render_at_rest (s : VoiceEngine.t * World) :
  Inv s -> phase s <> "SPEAKING" -> render (snd s) = RenderIdle.
Proof.
  intros (I1 & _) Hp. destruct (render (snd s)) eqn:E; [reflexivity| |];
    exfalso; apply Hp, I1; discriminate.
Qed.

Lemma Inv_startListening (e : VoiceEngine.t) (w : World) :
  Inv (e, w) -> Inv (after VoiceEngine.startListening (e, w)).
Proof.
  intros HI. pose proof HI as (I1 & I2). cbn [fst snd] in *.
  destruct (String.eqb_spec (StateManager.currentState (VoiceEngine.stateManager e))
              "IDLE") as [Hidle|Hbusy].
  - pose proof (startListening_keeps e w) as (Hrec & Hren & Hcap).
    destruct (after VoiceEngine.startListening (e, w)) as [e' w'].
    cbn [fst snd] in *. unfold Inv. cbn [fst snd]. rewrite Hrec, Hren. split.
    + intros H. apply I1 in H. destruct H as [H _]. unfold phase in H.
      cbn [fst] in H. rewrite Hidle in H. discriminate.
    + intros H. destruct Hcap as [Hcap|Hcap]; [|assumption].
      rewrite Hcap in H. auto.
  - unfold after. cbn [fst snd]. rewrite (startListening_not_idle e w Hbusy).
    eapply Inv_sameSession; [exact HI|same].
Qed.

Lemma Inv_stopListening (e : VoiceEngine.t) (w : World) :
  Inv (e, w) -> Inv (after VoiceEngine.stopListening (e, w)).
Proof.
  intros (I1 & I2). cbn [fst snd] in *.
  pose proof (stopListening_keeps e w) as (Hrec & Hren & Hph & Hcap).
  destruct (after VoiceEngine.stopListening (e, w)) as [e' w'].
  cbn [fst snd] in *. unfold Inv. cbn [fst snd]. rewrite Hrec, Hren, Hph. split.
  - intros H. apply I1 in H. destruct H as [H1 H2]. split; [assumption|].
    intros H. apply H2. auto.
  - auto.
Qed.

(** After [speak] in PROCESSING the invariant holds, and a promise that
    comes back rejected has left rendering at rest. *)
Lemma Inv_speak_in_processing (text : string) (lang : option string)
    (e : VoiceEngine.t) (w : World) :
  Inv (e, w) ->
  StateManager.currentState (VoiceEngine.stateManager e) = "PROCESSING" ->
  let '(r, e', w') := VoiceEngine.speak text lang e w in
  Inv (e', w')
  /\ (exists promise, r = Normal promise)
  /\ (forall reason, r = Normal (Rejected reason) -> render w' = RenderIdle).
Proof.
  intros HI Hp. pose proof HI as (I1 & I2). cbn [fst snd] in *.
  assert (Hr : render w = RenderIdle).
  { apply (render_at_rest (e, w) HI). unfold phase. cbn [fst]. rewrite Hp.
    discriminate. }
  pose proof (speak_in_processing text lang e w Hp) as H.
  destruct (quiesced_facts e w) as (_ & _ & _ & Hq & _).
  destruct (VoiceEngine.speak text lang e w) as [[r e'] w'].
  destruct H as (Hrec & [(before & -> & _ & Hph & Hren & _ & _ & _ & Hcap)
                        |(_ & _ & Hren & Hcap & reason & -> & _)]);
    unfold Inv; cbn [fst snd]; rewrite Hrec.
  - assert (Hquiet : capture w' <> Capturing).
    { rewrite Hcap. intros H. destruct (Hq H) as [H1 H2].
      rewrite (I2 H1) in H2. discriminate. }
    split; [split; [auto|intros H; contradiction]|].
    split; [eauto|discriminate].
  - assert (Hrest : render w' = RenderIdle).
    { destruct (render w'); [reflexivity| |]; exfalso; apply Hren;
        (discriminate || assumption). }
    split; [split; [intros H; congruence|auto]|].
    split; [eauto|auto].
Qed.

Lemma Inv_speak (text : string) (lang : option string)
    (e : VoiceEngine.t) (w : World) :
  Inv (e, w) -> Inv (after (VoiceEngine.speak text lang) (e, w)).
Proof.
  intros HI.
  destruct (String.eqb_spec (StateManager.currentState (VoiceEngine.stateManager e))
              "PROCESSING") as [Hp|Hp].
  - pose proof (Inv_speak_in_processing text lang e w HI Hp) as H.
    unfold after. cbn [fst snd].
    destruct (VoiceEngine.speak text lang e w) as [[r e'] w']. apply H.
  - unfold after. cbn [fst snd]. rewrite (speak_elsewhere text lang e w Hp).
    eapply Inv_sameSession; [exact HI|same].
Qed.

Lemma speakResponse_catch_keeps error :
  keeps sameCapabilities (LinguaBridgeApp.speakResponse_catch error).
Proof. unfold LinguaBridgeApp.speakResponse_catch. frame. Qed.

(** The application's [speakResponse], called in any phase but SPEAKING. *)
Lemma Inv_speakResponse (text : string) (e : VoiceEngine.t) (w : World) :
  Inv (e, w) ->
  StateManager.currentState (VoiceEngine.stateManager e) <> "SPEAKING" ->
  Inv (after (LinguaBridgeApp.speakResponse text) (e, w)).
Proof.
  intros HI Hns. pose proof HI as (I1 & I2). cbn [fst snd] in *.
  assert (Hr : render w = RenderIdle) by (apply (render_at_rest (e, w) HI); exact Hns).
  unfold after, LinguaBridgeApp.speakResponse, bind. cbn [fst snd].
  destruct (String.eqb_spec (StateManager.currentState (VoiceEngine.stateManager e))
              "PROCESSING") as [Hp|Hp].
  - pose proof (Inv_speak_in_processing text None e w HI Hp) as H.
    destruct (VoiceEngine.speak text None e w) as [[r e'] w'].
    destruct H as (HI' & (promise & ->) & Hrej).
    destruct promise as [|reason]; [exact HI'|].
    apply (Inv_at_rest (e', w')); [now apply (Hrej reason)|apply HI'|].
    apply speakResponse_catch_keeps.
  - rewrite (speak_elsewhere text None e w Hp).
    apply (Inv_at_rest (e, w)); [exact Hr|exact I2|].
    eapply sameCapabilities_trans;
      [|apply (speakResponse_catch_keeps
                 (VError "Error" "Invalid state for speaking"))].
    same.
Qed.

Lemma getState_run (e : VoiceEngine.t) (w : World) :
  VoiceEngine.onStateManager StateManager.getState e w =
  (Normal (StateManager.currentState (VoiceEngine.stateManager e)), e, w).
Proof.
  unfold VoiceEngine.onStateManager, StateManager.getState, bind, get, ret.
  now rewrite withStateManager_same.
Qed.

Lemma Inv_handleMicClick (languagesValid : bool) (e : VoiceEngine.t) (w : World) :
  Inv (e, w) -> Inv (after (LinguaBridgeApp.handleMicClick languagesValid) (e, w)).
Proof.
  intros HI. unfold after, LinguaBridgeApp.handleMicClick. cbn [fst snd].
  unfold bind at 1. rewrite getState_run.
  destruct (String.eqb _ "IDLE").
  - unfold LinguaBridgeApp.startListening. destruct languagesValid; [|exact HI].
    apply (Inv_startListening e w) in HI.
    rewrite <- (after_then_ret VoiceEngine.startListening (e, w)) in HI. exact HI.
  - destruct (String.eqb _ "LISTENING"); [|exact HI].
    now apply Inv_stopListening.
Qed.

Lemma Inv_switchLesson (success : bool) (intro : string)
    (e : VoiceEngine.t) (w : World) :
  Inv (e, w) -> Inv (after (LinguaBridgeApp.switchLesson success intro) (e, w)).
Proof.
  intros HI. unfold after, LinguaBridgeApp.switchLesson. cbn [fst snd].
  unfold bind at 1. rewrite onStateManager_is.
  destruct (String.eqb_spec (StateManager.currentState (VoiceEngine.stateManager e))
              "IDLE") as [Hidle|Hbusy]; [|exact HI].
  destruct success; [|exact HI]. cbn [negb].
  unfold bind at 1. unfold VoiceEngine.onStateManager at 1.
  destruct (transition_any "PROCESSING" (VoiceEngine.stateManager e) w)
    as (r & evs & k & Et & _).
  cbv zeta in Et. rewrite Et.
  assert (Hv : validated (VoiceEngine.stateManager e) "PROCESSING" = false)
    by (unfold validated; now rewrite Hidle).
  rewrite Hv, withStateManager_same. simpl app.
  assert (HI1 : Inv (e, addEvents w evs))
    by (eapply Inv_sameSession; [exact HI|same]).
  destruct r as [b|v]; [|exact HI1].
  apply (Inv_speakResponse intro e (addEvents w evs) HI1).
  rewrite Hidle. discriminate.
Qed.

(** Every enabled action keeps the invariant, but a capture error that
    arrives during an utterance. *)
Lemma Inv_step (a : Action) (s : VoiceEngine.t * World) :
  Inv s -> enabled a s = true -> errorDuringUtterance a s = false -> Inv (step a s).
Proof.
  intros HI En He. destruct s as [e w]. pose proof HI as (I1 & I2).
  cbn [fst snd] in *.
  destruct a; unfold step, handler, deliver; cbn [fst snd].
  - rewrite after_then_ret. now apply Inv_startListening.
  - now apply Inv_stopListening.
  - rewrite after_then_ret. now apply Inv_speak.
  - (* cancelSpeech *)
    pose proof (cancelSpeech_keeps e w) as (Hrec & Hcap & Hph & Hren).
    destruct (after VoiceEngine.cancelSpeech (e, w)) as [e' w'].
    cbn [fst snd] in *. unfold Inv. cbn [fst snd]. rewrite Hrec, Hcap, Hph.
    split; auto.
  - eapply Inv_sameSession; [exact HI|apply setRecognitionLanguage_keeps].
  - eapply Inv_sameSession; [exact HI|apply setSynthesisLanguage_keeps].
  - eapply Inv_sameSession; [exact HI|apply onTranscript_keeps].
  - eapply Inv_sameSession; [exact HI|apply onError_keeps].
  - eapply Inv_sameSession; [exact HI|apply onStateManager_addListener_keeps].
  - eapply Inv_sameSession; [exact HI|apply onStateManager_removeListener_keeps].
  - eapply Inv_sameSession; [exact HI|apply recognition_onstart_keeps].
  - (* recognition ended *)
    set (w0 := mkWorld (clock w) (trace w) CaptureIdle (recognition_lang w)
                       (render w) (fnBody w)).
    assert (HI0 : Inv (e, w0)).
    { unfold Inv. cbn [fst snd render capture w0]. split; [|discriminate].
      intros H. apply I1 in H. destruct H as [H _]. split; [exact H|discriminate]. }
    destruct (String.eqb_spec (StateManager.currentState (VoiceEngine.stateManager e))
                "LISTENING") as [Hl|Hl].
    + apply (Inv_at_rest (e, w0)).
      * apply (render_at_rest (e, w0) HI0). unfold phase. cbn [fst]. rewrite Hl.
        discriminate.
      * discriminate.
      * apply recognition_onend_keeps.
    + eapply Inv_sameSession; [exact HI0|now apply recognition_onend_elsewhere].
  - (* recognition result *)
    destruct (String.eqb_spec (StateManager.currentState (VoiceEngine.stateManager e))
                "LISTENING") as [Hl|Hl].
    + apply (Inv_at_rest (e, w)).
      * apply (render_at_rest (e, w) HI). unfold phase. cbn [fst]. rewrite Hl.
        discriminate.
      * exact I2.
      * apply recognition_onresult_keeps.
    + eapply Inv_sameSession; [exact HI|now apply recognition_onresult_elsewhere].
  - (* recognition error *)
    simpl in He.
    apply (Inv_at_rest
             (e, mkWorld (clock w) (trace w) CaptureIdle (recognition_lang w)
                         (render w) (fnBody w))).
    + cbn [snd render]. destruct (render w); [reflexivity|discriminate|discriminate].
    + discriminate.
    + apply recognition_onerror_keeps.
  - eapply Inv_sameSession; [exact HI|apply utterance_onstart_keeps].
  - (* utterance ended *)
    apply (Inv_at_rest
             (e, mkWorld (clock w) (trace w) (capture w) (recognition_lang w)
                         RenderIdle (fnBody w))).
    + reflexivity.
    + exact I2.
    + apply utterance_onend_keeps.
  - (* utterance failed *)
    apply (Inv_at_rest
             (e, mkWorld (clock w) (trace w) (capture w) (recognition_lang w)
                         RenderIdle (fnBody w))).
    + reflexivity.
    + exact I2.
    + apply utterance_onerror_keeps.
  - now apply Inv_handleMicClick.
  - now apply Inv_switchLesson.
  - (* the application answers a transcript *)
    simpl in En. apply String.eqb_eq in En.
    apply Inv_speakResponse; [exact HI|]. rewrite En. discriminate.
  - (* an utterance of the application failed *)
    apply (Inv_at_rest
             (e, mkWorld (clock w) (trace w) (capture w) (recognition_lang w)
                         RenderIdle (fnBody w))).
    + reflexivity.
    + exact I2.
    + apply keeps_bind;
        [apply sameCapabilities_trans|apply utterance_onerror_keeps|].
      intros _. apply speakResponse_catch_keeps.
  - (* time passes *)
    eapply Inv_sameSession; [exact HI|same].
Qed.

Lemma Inv_new (recognitionSupported synthesisSupported : bool) (w : World) :
  capture w = CaptureIdle ->
  render w = RenderIdle ->
  Inv (VoiceEngine.constructor StateManager.new recognitionSupported
         synthesisSupported w).
Proof.
  intros Hc Hr. unfold VoiceEngine.constructor. rewrite VoiceEngine_log_run.
  unfold Inv. cbn [fst snd render capture addEvents]. rewrite Hc, Hr.
  split; [congruence|discriminate].
Qed.

Lemma Inv_runActions (actions : list Action) :
  forall s, Inv s -> allEnabled actions s = true ->
            noErrorDuringUtterance actions s = true ->
            Inv (runActions actions s).
Proof.
  induction actions as [|a actions IH]; intros s HI En Hn; simpl in *.
  - assumption.
  - apply andb_true_iff in En. destruct En as [Ea En].
    apply andb_true_iff in Hn. destruct Hn as [Ha Hn].
    apply negb_true_iff in Ha. apply IH; [now apply Inv_step|assumption|assumption].
Qed.

Lemma reachable_runActions (actions : list Action) :
  forall s, reachable s -> allEnabled actions s = true ->
            reachable (runActions actions s).
Proof.
  induction actions as [|a actions IH]; intros s Hs En; simpl in *.
  - assumption.
  - apply andb_true_iff in En. destruct En as [Ea En].
    apply IH; [now apply reachable_step|assumption].
Qed.

(** As long as no capture error arrives during an utterance, capture and
    rendering are not both active, and the phase is SPEAKING while an
    utterance is in flight. *)
Lemma exclusion_without_errors_during_utterances (actions : list Action)
    (recognitionSupported synthesisSupported : bool) (w : World) :
  capture w = CaptureIdle ->
  render w = RenderIdle ->
  let s0 := VoiceEngine.constructor StateManager.new recognitionSupported
              synthesisSupported w in
  allEnabled actions s0 = true ->
  noErrorDuringUtterance actions s0 = true ->
  let s := runActions actions s0 in
  captureActive (snd s) && renderingActive (snd s) = false
  /\ (render (snd s) <> RenderIdle -> phase s = "SPEAKING").
Proof.
  intros Hc Hr s0 En Hn s.
  assert (HI : Inv s).
  { apply Inv_runActions; [now apply Inv_new|assumption|assumption]. }
  destruct HI as (I1 & I2). split.
  - unfold captureActive, renderingActive.
    destruct (capture (snd s)) eqn:Ec; try reflexivity.
    destruct (render (snd s)) eqn:Er; try reflexivity.
    destruct I1 as [_ H]; [discriminate|]. now elim H.
  - intros H. now apply I1.
Qed.

(** What [speak] does for the exclusion, in every state the coordinator
    can reach: when it invokes the rendering capability, then the phase was
    PROCESSING, the transition to SPEAKING, asked for once capture was
    quiet, returned [true], the invocation is the last thing [speak] did,
    an engine that has a recognition object stopped it before, and capture
    is not active. *)
Lemma speak_renders_once_capture_is_quiet (s : VoiceEngine.t * World) :
  reachable s ->
  forall text lang,
    let '(r, e', w') := VoiceEngine.speak text lang (fst s) (snd s) in
    (exists t l, In (SynthesisSpeak t l) (emitted (snd s) w')) ->
    phase s = "PROCESSING"
    /\ fst (fst (StateManager.transition "SPEAKING"
                   (VoiceEngine.stateManager (fst s))
                   (quiesced (fst s) (snd s)))) = Normal true
    /\ phase (e', w') = "SPEAKING"
    /\ captureActive w' = false
    /\ exists before,
         emitted (snd s) w'
         = before ++ [SynthesisSpeak text
                        (VoiceEngine.langOrDefault lang
                           (VoiceEngine.synthesisLang (fst s)))]
         /\ Forall notSpeak before
         /\ (VoiceEngine.recognition (fst s) = true -> In RecognitionStop before).
Proof.
  intros Hreach. pose proof (capture_needs_recognition s Hreach) as I2.
  destruct s as [e w]. cbn [fst snd] in *.
  intros text lang.
  destruct (String.eqb_spec (StateManager.currentState (VoiceEngine.stateManager e))
              "PROCESSING") as [Hp|Hp].
  - pose proof (speak_in_processing text lang e w Hp) as H.
    destruct (quiesced_facts e w) as (_ & _ & _ & Hq & _).
    destruct (VoiceEngine.speak text lang e w) as [[r e'] w'].
    intros (t & l & Hin).
    destruct H as (Hrec & [(before & _ & Ht & Hph & Hren & Hem & Hquiet & Hstop & Hcap)
                          |(_ & Hnone & _)]).
    + split; [exact Hp|]. split; [exact Ht|]. split; [exact Hph|]. split.
      * unfold captureActive. rewrite Hcap.
        destruct (capture (quiesced e w)) eqn:Hc; try reflexivity.
        destruct (Hq eq_refl) as [H1 H2]. rewrite (I2 H1) in H2. discriminate.
      * exists before. auto.
    + exfalso. now apply (notSpeak_not_In _ t l Hnone).
  - rewrite (speak_elsewhere text lang e w Hp). rewrite emitted_addEvents.
    intros (t & l & Hin). exfalso. revert Hin. apply notSpeak_not_In.
    apply Forall_app. split; [apply not_speak_logged|repeat constructor].
Qed.

(** C2, at the input where the code departs from it.  A turn is under
    way: capture was started, "hola" was heard, and the application has
    answered, so that [speak] has stopped capture and handed the answer to
    the rendering capability; the phase is SPEAKING.  Now the recognition
    reports an error for the session that was asked to stop.  Its handler
    resets the state manager without looking at the phase (the handler of
    [end] looks, and would leave SPEAKING alone): the phase is IDLE while
    the answer is still rendered.  The next click on the microphone is
    therefore accepted, and [startListening] starts capture: capture and
    rendering are both active, in LISTENING, and the microphone hears the
    answer. *)
Theorem a_capture_error_during_an_utterance_ends_the_exclusion :
  let turn := [StartListening; RecognitionResult "hola" (9 # 10);
               AppHandleTranscript "Muy bien"] in
  let speaking := runActions turn (exampleEngine true 0 quiet) in
  let failed := step (RecognitionError "network") speaking in
  let s := step (AppMicClick true) failed in
  reachable s
  /\ (phase speaking = "SPEAKING"
      /\ capture (snd speaking) = CaptureStopping
      /\ render (snd speaking) = Rendering)
  /\ (phase failed = "IDLE" /\ render (snd failed) = Rendering)
  /\ (phase s = "LISTENING"
      /\ capture (snd s) = Capturing
      /\ render (snd s) = Rendering)
  /\ captureActive (snd s) && renderingActive (snd s) = true
  /\ filter isCapabilityCall (trace (snd s))
     = [RecognitionStart "es-ES"; RecognitionStop; SynthesisSpeak "Muy bien" "es-ES";
        RecognitionStart "es-ES"].
Proof.
  intros turn speaking failed s. split.
  - unfold s, failed, speaking, exampleEngine.
    apply reachable_step; [apply reachable_step|reflexivity]; [|reflexivity].
    apply reachable_runActions;
      [apply reachable_runActions; [apply reachable_new; reflexivity|]|];
      vm_compute; reflexivity.
  - vm_compute. repeat split.
Qed.

(** ** The theorems at concrete inputs *)

(** [transition_iff_table] at a concrete input. *)
Lemma transition_iff_table_witness :
  let p := Listening in
  let target := "PROCESSING" in
  let sm := StateManager.mk "LISTENING" [1; 2]%nat true in
  let w := freshWorld 0 (throwsError 1%nat) in
  (StateManager.currentState sm = phaseName p)
  /\
  ((forall f, In f (StateManager.listeners sm) -> safe w f))
  /\
  (let '(r, sm', w') := StateManager.transition target sm w in
   (r = Normal true <-> inTable p target)
   /\ (r = Normal true ->
       StateManager.currentState sm' = target
       /\ StateManager.listeners sm' = StateManager.listeners sm
       /\ notifications w w'
          = map (notification (phaseName p) target) (StateManager.listeners sm))
   /\ (r <> Normal true ->
       r = Normal false /\ sm' = sm /\ notifications w w' = [])).
Proof.
  intros p target sm w.
  assert (H0 : StateManager.currentState sm = phaseName p).
  { reflexivity. }
  assert (H1 : (forall f, In f (StateManager.listeners sm) -> safe w f)).
  { intros f _ history args. unfold w, freshWorld, throwsError. simpl.
    destruct (Nat.eqb f 1); reflexivity. }
  split; [exact H0|].
  split; [exact H1|].
  exact (transition_iff_table p target sm w H0 H1).
Defined.

(** [removeListener_removes_every_occurrence] at a concrete input. *)
Lemma removeListener_removes_every_occurrence_witness :
  let cb := 1%nat in
  let sm := StateManager.mk "IDLE" [1; 2; 1; 3]%nat true in
  let w := freshWorld 0 quiet in
  let ops := [OpTransition "LISTENING"; OpAddListener (VFunction 4%nat); OpReset] in
  (Forall (fun o => registers cb o = false) ops)
  /\
  (let '(r, sm', w') := StateManager.removeListener (VFunction cb) sm w in
   r = Normal tt
   /\ w' = w
   /\ StateManager.currentState sm' = StateManager.currentState sm
   /\ StateManager.listeners sm' = remove Nat.eq_dec cb (StateManager.listeners sm)
   /\ ~ In cb (StateManager.listeners sm')
   /\ (forall f, f <> cb ->
         count_occ Nat.eq_dec (StateManager.listeners sm') f
         = count_occ Nat.eq_dec (StateManager.listeners sm) f)
   /\ (~ In cb (StateManager.listeners sm) -> sm' = sm)
   /\ (forall args, ~ In (cb, args) (notifications w' (snd (runOps ops (sm', w')))))).
Proof.
  intros cb sm w ops.
  assert (H0 : Forall (fun o => registers cb o = false) ops).
  { repeat constructor. }
  split; [exact H0|].
  exact (removeListener_removes_every_occurrence cb sm w ops H0).
Defined.

(** [forced_is_told_by_the_console] at a concrete input. *)
Lemma forced_is_told_by_the_console_witness :
  let sm := StateManager.mk "LISTENING" [1%nat] true in
  let w := freshWorld 0 quiet in
  let t := "IDLE" in
  (StateManager.debugMode sm = true)
  /\
  (let p := StateManager.currentState sm in
   let validatedRun := snd (after (StateManager.transition t) (sm, w)) in
   let forcedRun := snd (after (StateManager.forceTransition t) (sm, w)) in
   (forall f args,
       In (f, args) (notifications w validatedRun)
       \/ In (f, args) (notifications w forcedRun) ->
       args = [VString p; VString t])
   /\ (validated sm t = true ->
       exists evs, emitted w validatedRun = commitLine false p t (clock w) :: evs)
   /\ (StateManager.truthy (readProp StateManager.STATES t) = true ->
       exists evs, emitted w forcedRun = commitLine true p t (clock w) :: evs)
   /\ commitLine false p t (clock w) <> commitLine true p t (clock w)).
Proof.
  intros sm w t.
  assert (H0 : StateManager.debugMode sm = true).
  { reflexivity. }
  split; [exact H0|].
  exact (forced_is_told_by_the_console sm w t H0).
Defined.

(** [commits_are_recorded_in_order] at a concrete input. *)
Lemma commits_are_recorded_in_order_witness :
  let s0 := (StateManager.new, freshWorld 5000 quiet) in
  let ops1 := @nil Op in
  let a := OpTransition "LISTENING" in
  let ops2 := [OpTick 5300; OpTransition "IDLE"; OpTick 5900] in
  let b := OpTransition "LISTENING" in
  let la := commitLine false "IDLE" "LISTENING" 5000 in
  let lb := commitLine false "IDLE" "LISTENING" 5900 in
  (StateManager.debugMode (fst s0) = true)
  /\
  (commits a (runOps ops1 s0) = Some la)
  /\
  (commits b (runOps ops2 (runOp a (runOps ops1 s0))) = Some lb)
  /\
  (exists before between afterwards,
     trace (snd (runOp b (runOps ops2 (runOp a (runOps ops1 s0)))))
     = before ++ [la] ++ between ++ [lb] ++ afterwards).
Proof.
  intros s0 ops1 a ops2 b la lb.
  assert (H0 : StateManager.debugMode (fst s0) = true).
  { reflexivity. }
  assert (H1 : commits a (runOps ops1 s0) = Some la).
  { reflexivity. }
  assert (H2 : commits b (runOps ops2 (runOp a (runOps ops1 s0))) = Some lb).
  { reflexivity. }
  split; [exact H0|].
  split; [exact H1|].
  split; [exact H2|].
  exact (commits_are_recorded_in_order s0 ops1 a ops2 b la lb H0 H1 H2).
Defined.

(** [speak_outside_processing_is_rejected] at a concrete input. *)
Lemma speak_outside_processing_is_rejected_witness :
  let text := "Muy bien" in
  let lang := @None string in
  let e := fst (runActions [StartListening] (exampleEngine true 0 quiet)) in
  let w := snd (runActions [StartListening] (exampleEngine true 0 quiet)) in
  (StateManager.currentState (VoiceEngine.stateManager e) <> "PROCESSING")
  /\
  (let '(r, e', w') := VoiceEngine.speak text lang e w in
   r = Normal (Rejected (VError "Error" "Invalid state for speaking"))
   /\ e' = e
   /\ phase (e', w') = phase (e, w)
   /\ extends w w'
   /\ emitted w w'
      = logged (VoiceEngine.debugMode e) Warn "[VoiceEngine]" (clock w)
               "Cannot speak - not in PROCESSING state"
        ++ [PromiseReject (VError "Error" "Invalid state for speaking")]
   /\ (forall t l, ~ In (SynthesisSpeak t l) (emitted w w'))).
Proof.
  intros text lang e w.
  assert (H0 : StateManager.currentState (VoiceEngine.stateManager e) <> "PROCESSING").
  { intros H. vm_compute in H. discriminate. }
  split; [exact H0|].
  exact (speak_outside_processing_is_rejected text lang e w H0).
Defined.

(** [startListening_refusals] at a concrete input. *)
Lemma startListening_refusals_witness :
  let e := fst (exampleEngine false 0 quiet) in
  let w := snd (exampleEngine false 0 quiet) in
  (StateManager.currentState (VoiceEngine.stateManager e) <> "IDLE" \/ VoiceEngine.recognitionAvailable e = false)
  /\
  (let '(r, e', w') := VoiceEngine.startListening e w in
   e' = e
   /\ extends w w'
   /\ r <> Normal true
   /\ (forall lang, ~ In (RecognitionStart lang) (emitted w w'))
   /\ (StateManager.currentState (VoiceEngine.stateManager e) <> "IDLE" ->
       r = Normal false /\ calls (emitted w w') = [])
   /\ (StateManager.currentState (VoiceEngine.stateManager e) = "IDLE" ->
       calls (emitted w w')
       = match VoiceEngine.onErrorCallback e with
         | Some cb => [(cb, [VString notSupportedMessage])]
         | None => []
         end
       /\ ((forall cb, VoiceEngine.onErrorCallback e = Some cb -> returns w cb) ->
           r = Normal false))).
Proof.
  intros e w.
  assert (H0 : StateManager.currentState (VoiceEngine.stateManager e) <> "IDLE"
  \/ VoiceEngine.recognitionAvailable e = false).
  { right. reflexivity. }
  split; [exact H0|].
  exact (startListening_refusals e w H0).
Defined.

(** [duplicate_transcripts_are_dropped] at a concrete input. *)
Lemma duplicate_transcripts_are_dropped_witness :
  let text := "hola" in
  let confidence := (9 # 10)%Q in
  let e := fst (runActions
      (holaTurn ++ [Tick 1500; StartListening])
      (exampleEngine true 0 quiet)) in
  let w := snd (runActions
      (holaTurn ++ [Tick 1500; StartListening])
      (exampleEngine true 0 quiet)) in
  (trim text = VoiceEngine.lastTranscript e)
  /\
  (let '(r, e', w') := VoiceEngine.recognition_onresult text confidence e w in
   (clock w - VoiceEngine.lastTranscriptTime e < 2000 ->
    r = Normal tt /\ e' = e /\ extends w w' /\ calls (emitted w w') = [])
   /\ (2000 <= clock w - VoiceEngine.lastTranscriptTime e ->
       VoiceEngine.lastTranscript e' = trim text
       /\ VoiceEngine.lastTranscriptTime e' = clock w
       /\ (StateManager.currentState (VoiceEngine.stateManager e) = "LISTENING" ->
           (forall f, In f (StateManager.listeners (VoiceEngine.stateManager e)) ->
                      safe w f) ->
           phase (e', w') = "PROCESSING"
           /\ calls (emitted w w')
              = map (notification "LISTENING" "PROCESSING")
                    (StateManager.listeners (VoiceEngine.stateManager e))
                ++ match VoiceEngine.onTranscriptCallback e with
                   | Some cb => [(cb, [VString (trim text); VNumber confidence])]
                   | None => []
                   end))).
Proof.
  intros text confidence e w.
  assert (H0 : trim text = VoiceEngine.lastTranscript e).
  { vm_compute. reflexivity. }
  split; [exact H0|].
  exact (duplicate_transcripts_are_dropped text confidence e w H0).
Defined.

(** [capture_errors_force_idle] at a concrete input. *)
Lemma capture_errors_force_idle_witness :
  let error := "not-allowed" in
  let e := fst (runActions [StartListening] (exampleEngine true 0 quiet)) in
  let w := snd (runActions [StartListening] (exampleEngine true 0 quiet)) in
  ((forall cb, VoiceEngine.onErrorCallback e = Some cb -> returns w cb))
  /\
  (let '(r, e', w') := VoiceEngine.recognition_onerror error e w in
   phase (e', w') = "IDLE"
   /\ extends w w'
   /\ (forall cb, VoiceEngine.onErrorCallback e = Some cb ->
         messagesTo cb (calls (emitted w w'))
         = if String.eqb error "no-speech" then []
           else if String.eqb error "audio-capture" then [noMicrophoneMessage]
           else if String.eqb error "not-allowed" then [accessDeniedMessage]
           else [])
   /\ noMicrophoneMessage <> accessDeniedMessage).
Proof.
  intros error e w.
  assert (H0 : (forall cb, VoiceEngine.onErrorCallback e = Some cb -> returns w cb)).
  { intros cb _ history args. reflexivity. }
  split; [exact H0|].
  exact (capture_errors_force_idle error e w H0).
Defined.

(** [exclusion_without_errors_during_utterances] at a concrete input: a
    turn in which the capture error comes before the answer. *)
Lemma exclusion_without_errors_during_utterances_witness :
  let actions := [OnTranscript 5%nat; StartListening; RecognitionError "no-speech";
                  StartListening; RecognitionResult "hola" (9 # 10);
                  AppHandleTranscript "Muy bien"] in
  let w := freshWorld 0 quiet in
  let s0 := VoiceEngine.constructor StateManager.new true true w in
  let s := runActions actions s0 in
  allEnabled actions s0 = true
  /\ noErrorDuringUtterance actions s0 = true
  /\ captureActive (snd s) && renderingActive (snd s) = false
  /\ (render (snd s) <> RenderIdle -> phase s = "SPEAKING").
Proof.
  intros actions w s0 s.
  assert (H0 : allEnabled actions s0 = true) by (vm_compute; reflexivity).
  assert (H1 : noErrorDuringUtterance actions s0 = true) by (vm_compute; reflexivity).
  split; [exact H0|]. split; [exact H1|].
  exact (exclusion_without_errors_during_utterances actions true true w
           eq_refl eq_refl H0 H1).
Defined.

(** ** The examples of the specification *)

(** "hola" is accepted at t = 0 and answered.  Heard again in a new turn at
    t = 1.5 s it is dropped: the phase stays LISTENING and the transcript
    callback (function 5) has been called once in all.  Heard again at
    t = 2.5 s instead, it is accepted: the phase is PROCESSING and the
    callback has been called twice. *)
Example hola_again_after_1500_and_after_2500_ms :
  let again (ms : Z) :=
    runActions
      (holaTurn ++ [Tick ms; StartListening; RecognitionResult "hola" (9 # 10)])
      (exampleEngine true 0 quiet) in
  phase (again 1500) = "LISTENING"
  /\ argsTo 5%nat (calls (trace (snd (again 1500))))
     = [[VString "hola"; VNumber (9 # 10)]]
  /\ phase (again 2500) = "PROCESSING"
  /\ argsTo 5%nat (calls (trace (snd (again 2500))))
     = [[VString "hola"; VNumber (9 # 10)]; [VString "hola"; VNumber (9 # 10)]].
Proof. vm_compute. repeat split. Qed.

(** A whole turn from IDLE takes the listener through LISTENING,
    PROCESSING, SPEAKING and back to IDLE, in four notifications; capture
    is started, then stopped, and only then is the answer rendered. *)
Example a_whole_turn_notifies_four_times :
  let s := runActions holaTurn (exampleEngine true 0 quiet) in
  phase s = "IDLE"
  /\ argsTo 1%nat (calls (trace (snd s)))
     = [[VString "IDLE"; VString "LISTENING"];
        [VString "LISTENING"; VString "PROCESSING"];
        [VString "PROCESSING"; VString "SPEAKING"];
        [VString "SPEAKING"; VString "IDLE"]]
  /\ filter isCapabilityCall (trace (snd s))
     = [RecognitionStart "es-ES"; RecognitionStop; SynthesisSpeak "Muy bien" "es-ES"].
Proof. vm_compute. repeat split. Qed.

(** The application switches lessons in IDLE: its request to move to
    PROCESSING is refused by the table, so [speak] rejects the
    introduction, and the [catch] block resets a manager that is in IDLE
    already.  Nothing is rendered. *)
Example switching_lessons_never_speaks :
  let s0 := exampleEngine true 0 quiet in
  let s := step (AppSwitchLesson true "Saludos") s0 in
  phase s = "IDLE"
  /\ filter isCapabilityCall (emitted (snd s0) (snd s)) = []
  /\ argsTo 1%nat (calls (emitted (snd s0) (snd s)))
     = [[VString "IDLE"; VString "IDLE"]].
Proof. vm_compute. repeat split. Qed.

(** * More of the state manager *)

(** A listener cannot change the functions of the world: what is safe
    before some events is safe after them. *)
Lemma notifyListeners_safe_at (p n : string) (sm : StateManager.t) (w : World)
    (evs0 : list Event) :
  (forall f, In f (StateManager.listeners sm) -> safe w f) ->
  exists evs,
    StateManager.notifyListeners p n sm (addEvents w evs0)
    = (Normal tt, sm, addEvents w (evs0 ++ evs))
    /\ calls evs = map (notification p n) (StateManager.listeners sm).
Proof.
  intros Hsafe.
  destruct (notifyListeners_safe p n sm (addEvents w evs0)) as (evs & E & Hc).
  { intros f Hf. apply safe_addEvents. now apply Hsafe. }
  exists evs. now rewrite E, addEvents_app.
Qed.

Lemma forceTransition_safe (newState : string) (sm : StateManager.t) (w : World) :
  StateManager.truthy (readProp StateManager.STATES newState) = true ->
  (forall f, In f (StateManager.listeners sm) -> safe w f) ->
  exists evs,
    StateManager.forceTransition newState sm w
    = (Normal tt,
       StateManager.mk newState (StateManager.listeners sm) (StateManager.debugMode sm),
       addEvents w (commitLogged (StateManager.debugMode sm) true
                      (StateManager.currentState sm) newState (clock w) ++ evs))
    /\ calls evs
       = map (notification (StateManager.currentState sm) newState)
             (StateManager.listeners sm).
Proof.
  intros Ht Hsafe. rewrite forceTransition_run. cbv zeta. rewrite Ht. cbn [negb].
  exact (notifyListeners_safe_at _ _
           (StateManager.mk newState (StateManager.listeners sm)
                            (StateManager.debugMode sm)) w _ Hsafe).
Qed.

(** X1.  [forceTransition] to one of the four phases commits it from any state
    whatever, the table not consulted: the phase is the target, also when
    it was the target already, and every listener is notified. *)
Theorem forceTransition_commits_without_the_table (q : Phase)
    (sm : StateManager.t) (w : World) :
  (forall f, In f (StateManager.listeners sm) -> safe w f) ->
  let '(r, sm', w') := StateManager.forceTransition (phaseName q) sm w in
  r = Normal tt
  /\ sm' = StateManager.mk (phaseName q) (StateManager.listeners sm)
                           (StateManager.debugMode sm)
  /\ extends w w'
  /\ notifications w w'
     = map (notification (StateManager.currentState sm) (phaseName q))
           (StateManager.listeners sm).
Proof.
  intros Hsafe.
  destruct (forceTransition_safe (phaseName q) sm w (STATES_phase q) Hsafe)
    as (evs & -> & Hc).
  split; [reflexivity|]. split; [reflexivity|]. split; [eexists; reflexivity|].
  now rewrite notifications_addEvents, calls_app, calls_commitLogged.
Qed.

(** X2.  [reset] leaves the phase IDLE from any state whatever and whatever
    the listeners do: the phase is committed before they are called.  The
    listeners called are an initial part of the list, and all of it when
    none throws [null] or [undefined]. *)
Theorem reset_always_returns_to_idle (sm : StateManager.t) (w : World) :
  let '(r, sm', w') := StateManager.reset sm w in
  sm' = StateManager.mk "IDLE" (StateManager.listeners sm) (StateManager.debugMode sm)
  /\ extends w w'
  /\ (exists k,
        notifications w w'
        = map (notification (StateManager.currentState sm) "IDLE")
              (firstn k (StateManager.listeners sm)))
  /\ ((forall f, In f (StateManager.listeners sm) -> safe w f) ->
      r = Normal tt
      /\ notifications w w'
         = map (notification (StateManager.currentState sm) "IDLE")
               (StateManager.listeners sm)).
Proof.
  unfold StateManager.reset.
  destruct (forceTransition_any "IDLE" sm w) as (r & evs & k & E & Hc & _).
  cbv zeta in E. simpl in E, Hc. rewrite E.
  split; [reflexivity|]. split; [eexists; reflexivity|].
  rewrite notifications_addEvents, calls_app, calls_commitLogged. simpl.
  split; [now exists k|].
  intros Hsafe.
  destruct (forceTransition_safe "IDLE" sm w eq_refl Hsafe) as (evs' & E' & Hc').
  rewrite E' in E. injection E as <- Ew. do 2 apply app_inv_head in Ew.
  subst evs'. now split.
Qed.

(** A name that does not name a property, own or inherited, of the object
    [STATES]. *)
Lemma STATES_missing (newState : string) :
  ~ In newState ["IDLE"; "LISTENING"; "PROCESSING"; "SPEAKING"] ->
  ~ In newState objectPrototypeKeys ->
  readProp StateManager.STATES newState = Missing.
Proof.
  intros Hn Hp. unfold readProp.
  assert (Hown : ownProp StateManager.STATES newState = None).
  { unfold StateManager.STATES. cbn [ownProp].
    repeat match goal with
           | |- context [String.eqb ?a newState] =>
               destruct (String.eqb_spec a newState) as [E|_];
                 [exfalso; apply Hn; rewrite <- E; simpl; tauto|]
           end.
    reflexivity. }
  rewrite Hown.
  destruct (existsb (String.eqb newState) objectPrototypeKeys) eqn:E; [|reflexivity].
  exfalso. apply Hp. apply existsb_exists in E. destruct E as (k & Hk & E).
  apply String.eqb_eq in E. now subst.
Qed.

(** X3.  [forceTransition] to a name that is neither one of the four phases nor
    the name of a property of [Object.prototype] is refused: a line on the
    console, the manager as it was, no listener called. *)
Theorem forceTransition_ignores_unknown_names (newState : string)
    (sm : StateManager.t) (w : World) :
  ~ In newState ["IDLE"; "LISTENING"; "PROCESSING"; "SPEAKING"] ->
  ~ In newState objectPrototypeKeys ->
  let '(r, sm', w') := StateManager.forceTransition newState sm w in
  r = Normal tt
  /\ sm' = sm
  /\ extends w w'
  /\ notifications w w' = []
  /\ (StateManager.debugMode sm = true ->
      emitted w w'
      = [Console Error "[StateManager]" (toLocaleTimeString (clock w))
           ("ERROR: Cannot force transition to invalid state "
              ++ dquote ++ newState ++ dquote)]).
Proof.
  intros Hn Hp. rewrite forceTransition_run. cbv zeta.
  rewrite (STATES_missing newState Hn Hp). cbn [StateManager.truthy negb].
  split; [reflexivity|]. split; [reflexivity|]. split; [eexists; reflexivity|].
  rewrite notifications_addEvents, emitted_addEvents, calls_logged.
  split; [reflexivity|]. now intros ->.
Qed.

Lemma prototypeKey_reads (key : string) :
  In key objectPrototypeKeys ->
  readProp StateManager.STATES key = Inherited
  /\ readProp StateManager.TRANSITIONS key = Inherited.
Proof.
  intros H. simpl in H.
  repeat (destruct H as [<-|H]; [split; reflexivity|]). destruct H.
Qed.

(** X4.  The guard of [forceTransition] reads [STATES[newState]], and so lets
    the names of the properties of [Object.prototype] through
    ([toString], [constructor], ...): such a name becomes the current
    state.  From then on no request is granted: [transition] to any of the
    four phases throws a [TypeError] where it reads the table, and leaves
    the manager as it is.  ([reset] is the way out.) *)
Theorem forceTransition_accepts_prototype_names (key : string)
    (sm : StateManager.t) (w : World) :
  In key objectPrototypeKeys ->
  let '(r, sm', w') := StateManager.forceTransition key sm w in
  sm' = StateManager.mk key (StateManager.listeners sm) (StateManager.debugMode sm)
  /\ (forall (q : Phase) (w'' : World),
        StateManager.transition (phaseName q) sm' w''
        = (Abrupt (VError "TypeError" "allowedTransitions.includes is not a function"),
           sm', w''))
  /\ (forall (target : string) (w'' : World),
        fst (fst (StateManager.transition target sm' w'')) <> Normal true).
Proof.
  intros Hk. destruct (prototypeKey_reads key Hk) as (Hs & Ht).
  destruct (forceTransition_any key sm w) as (r & evs & k & E & _).
  cbv zeta in E. rewrite Hs in E. cbn [StateManager.truthy] in E. rewrite E.
  split; [reflexivity|]. split.
  - intros q w''. rewrite transition_run. cbv zeta.
    rewrite STATES_phase. cbn [negb StateManager.currentState]. now rewrite Ht.
  - intros target w''. rewrite transition_run. cbv zeta.
    cbn [StateManager.currentState]. rewrite Ht.
    destruct (negb _); cbn [fst]; discriminate.
Qed.

(** X5.  [addListener] ignores what is not a function and appends a function
    to the list, also when it is there already.  [removeListener] after it
    removes every registration of the function, the earlier ones too: the
    two calls give the manager back exactly when the function was not
    registered before. *)
Theorem addListener_then_removeListener (callback : JsValue)
    (sm : StateManager.t) (w : World) :
  let '(r1, sm1, w1) := StateManager.addListener callback sm w in
  let '(r2, sm2, w2) := StateManager.removeListener callback sm1 w1 in
  r1 = Normal tt /\ r2 = Normal tt /\ w1 = w /\ w2 = w
  /\ StateManager.currentState sm2 = StateManager.currentState sm
  /\ StateManager.debugMode sm2 = StateManager.debugMode sm
  /\ match callback with
     | VFunction f =>
         StateManager.listeners sm1 = StateManager.listeners sm ++ [f]
         /\ StateManager.listeners sm2
            = remove Nat.eq_dec f (StateManager.listeners sm)
         /\ (~ In f (StateManager.listeners sm) -> sm2 = sm)
     | _ => sm1 = sm /\ sm2 = sm
     end.
Proof.
  assert (Hkeep : forall ls : list FnRef, filter (fun _ => true) ls = ls).
  { intros ls. induction ls as [|g ls IH]; simpl; [reflexivity|now rewrite IH]. }
  destruct sm as [st ls dbg].
  destruct callback as [| |s|q|f|n m];
    cbn [StateManager.addListener StateManager.removeListener bind get put ret
         StateManager.currentState StateManager.listeners StateManager.debugMode
         StateManager.strict_neq];
    rewrite ?Hkeep; try (repeat split; reflexivity).
  change (fun cb : FnRef => negb (Nat.eqb cb f))
    with (fun cb : FnRef => StateManager.strict_neq cb (VFunction f)).
  rewrite filter_strict_neq, remove_app. simpl.
  destruct (Nat.eq_dec f f) as [_|Hne]; [|congruence]. rewrite app_nil_r.
  repeat (split; [reflexivity|]).
  intros Hnot. now rewrite notin_remove.
Qed.

(** X6.  [getInfo()] agrees with [transition]: in each of the four phases the
    targets it lists as allowed are exactly those on which [transition]
    returns [true] (for listeners that do not throw [null] or
    [undefined]); it counts the registrations and changes nothing. *)
Theorem getInfo_lists_the_granted_transitions (p : Phase)
    (sm : StateManager.t) (w : World) :
  StateManager.currentState sm = phaseName p ->
  (forall f, In f (StateManager.listeners sm) -> safe w f) ->
  let '(r, sm', w') := StateManager.getInfo sm w in
  sm' = sm /\ w' = w
  /\ exists info allowed,
       r = Normal info
       /\ StateManager.infoCurrentState info = phaseName p
       /\ StateManager.listenerCount info = List.length (StateManager.listeners sm)
       /\ StateManager.allowedTransitions info = Own allowed
       /\ forall target,
            In target allowed
            <-> fst (fst (StateManager.transition target sm w)) = Normal true.
Proof.
  intros Hp Hsafe.
  cbn [StateManager.getInfo bind get ret].
  split; [reflexivity|]. split; [reflexivity|].
  rewrite Hp, TRANSITIONS_phase.
  eexists; eexists. split; [reflexivity|]. cbn.
  repeat (split; [reflexivity|]).
  intros target. rewrite <- includes_In, includes_table, <- (validated_table p sm) by exact Hp.
  split.
  - intros Hv. destruct (transition_safe target sm w Hv Hsafe) as (evs & -> & _).
    reflexivity.
  - intros Hr. destruct (transition_any target sm w) as (r & evs & k & E & _ & H & _).
    cbv zeta in E. rewrite E in Hr. cbn [fst] in Hr. now apply H in Hr.
Qed.
(** * More of the voice engine *)

(** Running [startListening] on an engine given by its fields. *)
Ltac run_listening :=
  cbv beta iota zeta delta
    [VoiceEngine.startListening VoiceEngine.stopListening try_catch bind get world ret
     effect throw put
     VoiceEngine.onStateManager StateManager.is_ VoiceEngine.log
     VoiceEngine.recognition_set_lang VoiceEngine.recognition_start
     VoiceEngine.recognition_stop VoiceEngine.nullRecognition
     VoiceEngine.notifyError VoiceEngine.withStateManager message_of
     VoiceEngine.stateManager VoiceEngine.recognition VoiceEngine.synthesisLang
     VoiceEngine.synthesisAvailable VoiceEngine.debugMode
     VoiceEngine.recognitionAvailable VoiceEngine.lastTranscript
     VoiceEngine.lastTranscriptTime VoiceEngine.onTranscriptCallback
     VoiceEngine.onErrorCallback VoiceEngine.recognitionLang negb].

Lemma capabilityCalls_managerEvents (evs : list Event) :
  Forall managerEvent evs -> filter isCapabilityCall evs = [].
Proof.
  induction 1 as [|ev evs Hev _ IH]; [reflexivity|].
  destruct ev; simpl in *; try contradiction; exact IH.
Qed.

Lemma capabilityCalls_commitLogged debug forced p n now :
  filter isCapabilityCall (commitLogged debug forced p n now) = [].
Proof. now destruct debug, forced. Qed.

Lemma capabilityCalls_logged debug level prefix now message :
  filter isCapabilityCall (logged debug level prefix now message) = [].
Proof. now destruct debug. Qed.

Lemma validated_IDLE_LISTENING (sm : StateManager.t) :
  StateManager.currentState sm = "IDLE" -> validated sm "LISTENING" = true.
Proof. intros H. unfold validated. now rewrite H. Qed.

(** X7.  [startListening] in IDLE, with recognition at hand and no session
    open: it returns [true], the phase is LISTENING, the listeners have
    been told so, and after that a capture session has been started in the
    engine's recognition language.  Nothing else is asked of the two
    capabilities. *)
Theorem startListening_opens_a_capture_session (e : VoiceEngine.t) (w : World) :
  StateManager.currentState (VoiceEngine.stateManager e) = "IDLE" ->
  VoiceEngine.recognitionAvailable e = true ->
  VoiceEngine.recognition e = true ->
  capture w = CaptureIdle ->
  (forall f, In f (StateManager.listeners (VoiceEngine.stateManager e)) -> safe w f) ->
  let '(r, e', w') := VoiceEngine.startListening e w in
  r = Normal true
  /\ e' = VoiceEngine.withStateManager
            (StateManager.mk "LISTENING"
               (StateManager.listeners (VoiceEngine.stateManager e))
               (StateManager.debugMode (VoiceEngine.stateManager e))) e
  /\ capture w' = Capturing
  /\ recognition_lang w' = VoiceEngine.recognitionLang e
  /\ render w' = render w
  /\ notifications w w'
     = map (notification "IDLE" "LISTENING")
           (StateManager.listeners (VoiceEngine.stateManager e))
  /\ filter isCapabilityCall (emitted w w')
     = [RecognitionStart (VoiceEngine.recognitionLang e)].
Proof.
  intros Hidle Hav Hrec Hcap Hsafe.
  destruct (transition_safe "LISTENING" (VoiceEngine.stateManager e) w
              (validated_IDLE_LISTENING _ Hidle) Hsafe) as (evs & Et & Hc).
  destruct (transition_events "LISTENING" (VoiceEngine.stateManager e) w)
    as (evs0 & Ev & Hm).
  unfold after in Ev. cbn [fst snd] in Ev. rewrite Et in Ev. cbn [snd] in Ev.
  apply addEvents_inj in Ev. subst evs0.
  apply Forall_app in Hm. destruct Hm as [_ Hm].
  apply capabilityCalls_managerEvents in Hm.
  destruct e as [sm rec ra sa lt ltt otc oec rl sl dbg].
  cbn [VoiceEngine.stateManager VoiceEngine.recognitionAvailable
       VoiceEngine.recognition VoiceEngine.recognitionLang] in *.
  subst ra rec.
  run_listening. rewrite Hidle in *. cbn [String.eqb Ascii.eqb Bool.eqb].
  run_listening. rewrite Et. destruct w as [now tr cap rlang rnd body]. cbn [capture] in Hcap.
  subst cap.
  cbv beta iota zeta delta [addEvents capture clock trace recognition_lang render fnBody
                            captureStarted emit].
  destruct dbg; cbn [capture recognition_lang render];
    repeat (split; [reflexivity|]);
    (split;
     [unfold notifications; erewrite emitted_trace
        by (cbn [trace]; rewrite <- !app_assoc; reflexivity);
      rewrite !calls_app, calls_commitLogged, Hc; cbn [calls app];
      now rewrite app_nil_r
     |erewrite emitted_trace
        by (cbn [trace]; rewrite <- !app_assoc; reflexivity);
      rewrite !filter_app, capabilityCalls_commitLogged, Hm; reflexivity]).
Qed.

Lemma safe_same_functions (w w' : World) (f : FnRef) :
  fnBody w' = fnBody w -> safe w f -> safe w' f.
Proof. unfold safe. intros E H history args. rewrite E. apply H. Qed.

(** X8.  [startListening] in IDLE while the last capture session is still open
    (stopped or answered, but not ended): [recognition.start()] throws, the
    engine resets and returns [false].  The phase is IDLE again, the
    listeners have seen it go to LISTENING and come back, and no session
    has been started. *)
Theorem startListening_gives_up_when_a_session_is_open (e : VoiceEngine.t)
    (w : World) :
  StateManager.currentState (VoiceEngine.stateManager e) = "IDLE" ->
  VoiceEngine.recognitionAvailable e = true ->
  VoiceEngine.recognition e = true ->
  capture w <> CaptureIdle ->
  (forall f, In f (StateManager.listeners (VoiceEngine.stateManager e)) -> safe w f) ->
  let '(r, e', w') := VoiceEngine.startListening e w in
  r = Normal false
  /\ e' = e
  /\ capture w' = capture w
  /\ render w' = render w
  /\ notifications w w'
     = map (notification "IDLE" "LISTENING")
           (StateManager.listeners (VoiceEngine.stateManager e))
       ++ map (notification "LISTENING" "IDLE")
              (StateManager.listeners (VoiceEngine.stateManager e))
  /\ filter isCapabilityCall (emitted w w') = [].
Proof.
  intros Hidle Hav Hrec Hcap Hsafe.
  destruct (transition_safe "LISTENING" (VoiceEngine.stateManager e) w
              (validated_IDLE_LISTENING _ Hidle) Hsafe) as (evs & Et & Hc).
  destruct (transition_events "LISTENING" (VoiceEngine.stateManager e) w)
    as (evs0 & Ev & Hm).
  unfold after in Ev. cbn [fst snd] in Ev. rewrite Et in Ev. cbn [snd] in Ev.
  apply addEvents_inj in Ev. subst evs0.
  apply Forall_app in Hm. destruct Hm as [_ Hm].
  apply capabilityCalls_managerEvents in Hm.
  destruct e as [sm rec ra sa lt ltt otc oec rl sl dbg].
  cbn [VoiceEngine.stateManager VoiceEngine.recognitionAvailable
       VoiceEngine.recognition VoiceEngine.recognitionLang] in *.
  subst ra rec. destruct sm as [st ls sdbg].
  cbn [StateManager.currentState StateManager.listeners StateManager.debugMode] in *.
  subst st.
  run_listening. cbn [StateManager.currentState String.eqb Ascii.eqb Bool.eqb].
  run_listening. rewrite Et. destruct w as [now tr cap rlang rnd body].
  cbn [capture] in Hcap.
  cbv beta iota zeta delta [addEvents capture clock trace recognition_lang render fnBody
                            captureStarted emit].
  assert (Hreset : forall w1 : World,
             fnBody w1 = body ->
             exists evs2,
               StateManager.reset (StateManager.mk "LISTENING" ls sdbg) w1
               = (Normal tt, StateManager.mk "IDLE" ls sdbg,
                  addEvents w1 (commitLogged sdbg true "LISTENING" "IDLE" (clock w1)
                                  ++ evs2))
               /\ calls evs2 = map (notification "LISTENING" "IDLE") ls
               /\ filter isCapabilityCall evs2 = []).
  { intros w1 Hbody.
    destruct (forceTransition_safe "IDLE" (StateManager.mk "LISTENING" ls sdbg) w1
                eq_refl) as (evs2 & E2 & Hc2).
    { intros f Hf. apply (safe_same_functions _ w1 f) in Hsafe; auto. }
    destruct (forceTransition_events "IDLE" (StateManager.mk "LISTENING" ls sdbg) w1)
      as (evs3 & Ev3 & Hm3).
    unfold after in Ev3. cbn [fst snd] in Ev3. rewrite E2 in Ev3. cbn [snd] in Ev3.
    apply addEvents_inj in Ev3. subst evs3.
    apply Forall_app in Hm3. destruct Hm3 as [_ Hm3].
    exists evs2. split; [exact E2|]. split; [exact Hc2|].
    now apply capabilityCalls_managerEvents. }
  destruct cap; [contradiction| |];
    destruct dbg;
    match goal with
    | |- context [StateManager.reset ?m ?w1] =>
        destruct (Hreset w1 eq_refl) as (evs2 & -> & Hc2 & Hm2)
    end;
    cbv beta iota zeta delta [addEvents capture clock trace recognition_lang render
                              fnBody];
    repeat (split; [reflexivity|]);
    (split;
     [unfold notifications; erewrite emitted_trace
        by (cbn [trace]; rewrite <- !app_assoc; reflexivity);
      rewrite !calls_app, !calls_commitLogged, Hc, Hc2; cbn [calls app];
      reflexivity
     |erewrite emitted_trace
        by (cbn [trace]; rewrite <- !app_assoc; reflexivity);
      rewrite !filter_app, !capabilityCalls_commitLogged, Hm, Hm2; reflexivity]).
Qed.

(** X9.  [stopListening] asks the capture capability to stop, and does only
    that: the engine and its phase are as they were (the phase leaves
    LISTENING when the recognition reports its end), rendering is not
    touched.  Outside LISTENING, or in an engine without a recognition
    object, it does nothing at all. *)
Theorem stopListening_only_stops_capture (e : VoiceEngine.t) (w : World) :
  let '(r, e', w') := VoiceEngine.stopListening e w in
  r = Normal tt
  /\ e' = e
  /\ render w' = render w
  /\ if VoiceEngine.recognition e
        && String.eqb (StateManager.currentState (VoiceEngine.stateManager e))
                      "LISTENING"
     then capture w' <> Capturing
          /\ filter isCapabilityCall (emitted w w') = [RecognitionStop]
          /\ calls (emitted w w') = []
     else w' = w.
Proof.
  destruct e as [sm rec ra sa lt ltt otc oec rl sl dbg].
  run_listening. destruct rec; [|now repeat split].
  destruct (String.eqb (StateManager.currentState sm) "LISTENING");
    [|now repeat split].
  destruct w as [now tr cap rlang rnd body].
  cbv beta iota zeta delta [captureStopped emit capture clock trace recognition_lang
                            render fnBody andb].
  destruct dbg; cbn [capture render];
    (repeat split;
     [destruct cap; discriminate
     |erewrite emitted_trace
        by (cbn [trace]; rewrite <- ?app_assoc; reflexivity); reflexivity
     |erewrite emitted_trace
        by (cbn [trace]; rewrite <- ?app_assoc; reflexivity); reflexivity]).
Qed.

Lemma validated_LISTENING_IDLE (sm : StateManager.t) :
  StateManager.currentState sm = "LISTENING" -> validated sm "IDLE" = true.
Proof. intros H. unfold validated. now rewrite H. Qed.

(** X10.  When the recognition reports its end in LISTENING (no speech came, or
    the user stopped it), the phase returns to IDLE and the listeners are
    told.  In any other phase the report leaves everything as it is: a
    line on the console is all. *)
Theorem recognition_end_returns_to_idle_from_listening (e : VoiceEngine.t)
    (w : World) :
  (forall f, In f (StateManager.listeners (VoiceEngine.stateManager e)) -> safe w f) ->
  let '(r, e', w') := VoiceEngine.recognition_onend e w in
  r = Normal tt
  /\ extends w w'
  /\ if String.eqb (StateManager.currentState (VoiceEngine.stateManager e)) "LISTENING"
     then e' = VoiceEngine.withStateManager
                 (StateManager.mk "IDLE"
                    (StateManager.listeners (VoiceEngine.stateManager e))
                    (StateManager.debugMode (VoiceEngine.stateManager e))) e
          /\ notifications w w'
             = map (notification "LISTENING" "IDLE")
                   (StateManager.listeners (VoiceEngine.stateManager e))
     else e' = e /\ notifications w w' = [].
Proof.
  intros Hsafe. unfold VoiceEngine.recognition_onend.
  unfold bind at 1. rewrite VoiceEngine_log_run.
  unfold bind at 1. rewrite onStateManager_is.
  destruct (String.eqb_spec (StateManager.currentState (VoiceEngine.stateManager e))
              "LISTENING") as [Hl|Hl].
  - unfold bind, VoiceEngine.onStateManager, ret.
    destruct (transition_safe "IDLE" (VoiceEngine.stateManager e)
                (addEvents w (logged (VoiceEngine.debugMode e) Info "[VoiceEngine]"
                                (clock w) "Recognition ended"))
                (validated_LISTENING_IDLE _ Hl)) as (evs & -> & Hc).
    { intros f Hf. apply safe_addEvents. now apply Hsafe. }
    rewrite addEvents_app. split; [reflexivity|]. split; [eexists; reflexivity|].
    split; [reflexivity|].
    rewrite notifications_addEvents, !calls_app, calls_logged, calls_commitLogged, Hc.
    now rewrite Hl.
  - unfold ret. split; [reflexivity|]. split; [eexists; reflexivity|].
    split; [reflexivity|]. now rewrite notifications_addEvents, calls_logged.
Qed.

(** X11.  A result that arrives outside LISTENING is not delivered: nobody is
    called, neither the listeners nor the transcript callback, and the
    state manager is as it was.  Its text is remembered all the same as the
    last transcript. *)
Theorem results_outside_listening_are_not_delivered (text : string)
    (confidence : Q) (e : VoiceEngine.t) (w : World) :
  StateManager.currentState (VoiceEngine.stateManager e) <> "LISTENING" ->
  let '(r, e', w') := VoiceEngine.recognition_onresult text confidence e w in
  r = Normal tt
  /\ VoiceEngine.stateManager e' = VoiceEngine.stateManager e
  /\ extends w w'
  /\ calls (emitted w w') = []
  /\ VoiceEngine.lastTranscript e' = trim text
  /\ VoiceEngine.onTranscriptCallback e' = VoiceEngine.onTranscriptCallback e.
Proof.
  intros H. apply String.eqb_neq in H.
  unfold VoiceEngine.recognition_onresult. cbv zeta.
  unfold bind at 1. rewrite VoiceEngine_log_run.
  unfold bind at 1. unfold world at 1. unfold bind at 1. unfold get at 1.
  destruct (String.eqb_spec (trim text) (VoiceEngine.lastTranscript e)) as [Hd|Hd];
    cbn [andb].
  - destruct (_ <? _)%Z.
    + rewrite VoiceEngine_log_run, addEvents_app, emitted_addEvents, calls_app,
        !calls_logged.
      repeat split; auto. eexists; reflexivity.
    + unfold bind at 1. unfold put at 1. unfold bind at 1.
      rewrite onStateManager_is. cbn [VoiceEngine.stateManager]. rewrite H.
      unfold ret. rewrite emitted_addEvents, calls_logged.
      repeat split; auto. eexists; reflexivity.
  - unfold bind at 1. unfold put at 1. unfold bind at 1.
    rewrite onStateManager_is. cbn [VoiceEngine.stateManager]. rewrite H.
    unfold ret. rewrite emitted_addEvents, calls_logged.
    repeat split; auto. eexists; reflexivity.
Qed.

Lemma validated_PROCESSING_SPEAKING (sm : StateManager.t) :
  StateManager.currentState sm = "PROCESSING" -> validated sm "SPEAKING" = true.
Proof. intros H. unfold validated. now rewrite H. Qed.

Lemma fnBody_quiesced (e : VoiceEngine.t) (w : World) :
  fnBody (quiesced e w) = fnBody w.
Proof.
  unfold quiesced. destruct (VoiceEngine.recognition e), (render w); reflexivity.
Qed.

Lemma speak_in_turn (text : string)
    (lang : option string) (e : VoiceEngine.t) (w : World) :
  StateManager.currentState (VoiceEngine.stateManager e) = "PROCESSING" ->
  VoiceEngine.synthesisAvailable e = true ->
  (forall f, In f (StateManager.listeners (VoiceEngine.stateManager e)) -> safe w f) ->
  let '(r, e', w') := VoiceEngine.speak text lang e w in
  r = Normal Pending
  /\ e' = VoiceEngine.withStateManager
            (StateManager.mk "SPEAKING"
               (StateManager.listeners (VoiceEngine.stateManager e))
               (StateManager.debugMode (VoiceEngine.stateManager e))) e
  /\ render w' = Rendering
  /\ (VoiceEngine.recognition e = true -> capture w' <> Capturing)
  /\ exists before,
       trace w'
       = trace w ++ before
           ++ [SynthesisSpeak text
                 (VoiceEngine.langOrDefault lang (VoiceEngine.synthesisLang e))]
       /\ Forall notSpeak before
       /\ calls before
          = map (notification "PROCESSING" "SPEAKING")
                (StateManager.listeners (VoiceEngine.stateManager e)).
Proof.
  intros Hp Hs Hsafe.
  rewrite (speak_run text lang e w Hp Hs).
  destruct (quiesced_facts e w) as (Htr & Hclock & Hrender & Hcapture & Hsame).
  destruct (transition_safe "SPEAKING" (VoiceEngine.stateManager e) (quiesced e w)
              (validated_PROCESSING_SPEAKING _ Hp)) as (evs & Et & Hc).
  { intros f Hf. apply (safe_same_functions w); [apply fnBody_quiesced|auto]. }
  destruct (transition_events "SPEAKING" (VoiceEngine.stateManager e) (quiesced e w))
    as (evs0 & Ev & Hm).
  unfold after in Ev. cbn [fst snd] in Ev. rewrite Et in Ev. cbn [snd] in Ev.
  apply addEvents_inj in Ev. subst evs0. rewrite Et.
  split; [reflexivity|]. split; [reflexivity|]. split; [reflexivity|].
  split.
  { intros Hrec Hcap. cbn [renderStarted emit capture addEvents] in Hcap.
    apply Hcapture in Hcap. destruct Hcap as [_ Hcap]. congruence. }
  exists (quiescedEvents e w
            ++ commitLogged (StateManager.debugMode (VoiceEngine.stateManager e))
                 false (StateManager.currentState (VoiceEngine.stateManager e))
                 "SPEAKING" (clock (quiesced e w)) ++ evs).
  split; [|split].
  - cbn [renderStarted emit trace addEvents]. rewrite Htr. now rewrite <- !app_assoc.
  - apply Forall_app. split; [apply notSpeak_quiescedEvents|].
    now apply notSpeak_managerEvent.
  - rewrite !calls_app, calls_commitLogged, Hc, Hp.
    assert (Hq : calls (quiescedEvents e w) = []).
    { unfold quiescedEvents.
      destruct (render w), (VoiceEngine.recognition e), (VoiceEngine.debugMode e);
        reflexivity. }
    now rewrite Hq.
Qed.

(** X12.  [speak] in PROCESSING, with the rendering capability at hand: the
    promise is pending, the phase is SPEAKING and the listeners have been
    told, and the last thing [speak] did is to hand the text to the
    rendering capability, in the language asked for or, when none (or the
    empty one) is asked for, in the engine's synthesis language.  An engine
    with a recognition object has stopped capture. *)
Theorem speak_renders_in_the_language_asked_for (text : string)
    (lang : option string) (e : VoiceEngine.t) (w : World) :
  StateManager.currentState (VoiceEngine.stateManager e) = "PROCESSING" ->
  VoiceEngine.synthesisAvailable e = true ->
  (forall f, In f (StateManager.listeners (VoiceEngine.stateManager e)) -> safe w f) ->
  let '(r, e', w') := VoiceEngine.speak text lang e w in
  r = Normal Pending
  /\ e' = VoiceEngine.withStateManager
            (StateManager.mk "SPEAKING"
               (StateManager.listeners (VoiceEngine.stateManager e))
               (StateManager.debugMode (VoiceEngine.stateManager e))) e
  /\ render w' = Rendering
  /\ (VoiceEngine.recognition e = true -> capture w' <> Capturing)
  /\ notifications w w'
     = map (notification "PROCESSING" "SPEAKING")
           (StateManager.listeners (VoiceEngine.stateManager e))
  /\ exists before,
       emitted w w'
       = before
           ++ [SynthesisSpeak text
                 match lang with
                 | Some l => if String.eqb l EmptyString
                             then VoiceEngine.synthesisLang e else l
                 | None => VoiceEngine.synthesisLang e
                 end]
       /\ Forall notSpeak before.
Proof.
  intros Hp Hs Hsafe. pose proof (speak_in_turn text lang e w Hp Hs Hsafe) as H.
  destruct (VoiceEngine.speak text lang e w) as [[r e'] w'].
  destruct H as (Hr & He & Hren & Hcap & before & Ht & Hns & Hc).
  repeat (split; [assumption|]).
  assert (He2 : emitted w w'
                = before
                    ++ [SynthesisSpeak text
                          (VoiceEngine.langOrDefault lang (VoiceEngine.synthesisLang e))])
    by (apply emitted_trace; exact Ht).
  split.
  - unfold notifications. rewrite He2, calls_app, Hc. cbn [calls]. apply app_nil_r.
  - exists before. split; [exact He2|exact Hns].
Qed.

(** X13.  [cancelSpeech] stops the audio and leaves the phase where it is: a
    session that was SPEAKING still is, until the utterance reports its end
    or its failure.  When nothing is being rendered it does nothing.  In a
    browser without the rendering capability it throws a [TypeError]. *)
Theorem cancelSpeech_leaves_the_phase (e : VoiceEngine.t) (w : World) :
  let '(r, e', w') := VoiceEngine.cancelSpeech e w in
  e' = e
  /\ capture w' = capture w
  /\ if VoiceEngine.synthesisAvailable e then
       r = Normal tt
       /\ render w' <> Rendering
       /\ (render w <> Rendering -> w' = w)
       /\ (render w = Rendering ->
           render w' = RenderCancelled
           /\ filter isCapabilityCall (emitted w w') = [SynthesisCancel])
     else
       r = Abrupt (VError "TypeError"
                     "Cannot read properties of undefined (reading 'speaking')")
       /\ w' = w.
Proof.
  destruct e as [sm rec ra sa lt ltt otc oec rl sl dbg].
  cbv beta iota zeta delta
    [VoiceEngine.cancelSpeech VoiceEngine.synthesis_speaking
     VoiceEngine.synthesis_cancel VoiceEngine.log bind get world ret effect throw
     VoiceEngine.synthesisAvailable VoiceEngine.debugMode negb].
  destruct sa; [|now repeat split].
  destruct w as [now tr cap rlang rnd body].
  cbv beta iota zeta delta [renderCancelled emit capture clock trace recognition_lang
                            render fnBody].
  destruct rnd, dbg; cbn [capture render];
    repeat split; try discriminate; try congruence;
    erewrite emitted_trace
      by (cbn [trace]; rewrite <- ?app_assoc; reflexivity); reflexivity.
Qed.

(** * The phase of a reachable coordinator *)

Lemma keepsPhases_refl s : keepsPhases s s.
Proof. unfold keepsPhases. auto. Qed.

Lemma keepsPhases_trans a b c : keepsPhases a b -> keepsPhases b c -> keepsPhases a c.
Proof. unfold keepsPhases. auto. Qed.

Lemma sameSession_keepsPhases s s' : sameSession s s' -> keepsPhases s s'.
Proof. intros [_ H]. unfold keepsPhases. now rewrite H. Qed.

Lemma mayStopCapture_keepsPhases s s' : mayStopCapture s s' -> keepsPhases s s'.
Proof. intros (_ & _ & H & _). unfold keepsPhases. now rewrite H. Qed.

Lemma mayCancelRender_keepsPhases s s' : mayCancelRender s s' -> keepsPhases s s'.
Proof. intros (_ & _ & H & _). unfold keepsPhases. now rewrite H. Qed.

Lemma effect_keepsPhases (f : World -> World) :
  keeps keepsPhases (@effect VoiceEngine.t f).
Proof. intros e w. unfold keepsPhases. auto. Qed.

(** Whatever target is asked for: a validated transition commits a target
    the table lists, and the table lists phases. *)
Lemma onStateManager_transition_keepsPhases newState :
  keeps keepsPhases (VoiceEngine.onStateManager (StateManager.transition newState)).
Proof.
  intros e w (p & Hp). unfold phase in *. cbn [fst] in Hp.
  unfold after, VoiceEngine.onStateManager. cbn [fst snd].
  destruct (transition_any newState (VoiceEngine.stateManager e) w)
    as (r & evs & k & -> & _).
  cbn [fst VoiceEngine.withStateManager VoiceEngine.stateManager].
  destruct (validated (VoiceEngine.stateManager e) newState) eqn:Hv.
  - apply (validated_table p _ newState Hp) in Hv. destruct Hv as (q & _ & ->).
    now exists q.
  - now exists p.
Qed.

Lemma onStateManager_reset_keepsPhases :
  keeps keepsPhases (VoiceEngine.onStateManager StateManager.reset).
Proof.
  intros e w _. unfold after. cbn [fst snd].
  destruct (reset_run e w) as (r & evs & k & -> & _). now exists Idle.
Qed.

Lemma recognition_start_keepsPhases : keeps keepsPhases VoiceEngine.recognition_start.
Proof.
  intros e w. unfold after, VoiceEngine.recognition_start, bind, get, world.
  cbn [fst snd].
  destruct (VoiceEngine.recognition e); [destruct (capture w)|];
    unfold keepsPhases, phase; cbn; auto.
Qed.

Lemma onStateManager_getState_keepsPhases :
  keeps keepsPhases (VoiceEngine.onStateManager StateManager.getState).
Proof.
  intros e w. unfold after. cbn [fst snd]. rewrite getState_run.
  apply keepsPhases_refl.
Qed.

Create HintDb phases.

#[local] Hint Resolve
  keepsPhases_refl keepsPhases_trans effect_keepsPhases
  onStateManager_transition_keepsPhases onStateManager_reset_keepsPhases
  onStateManager_getState_keepsPhases recognition_start_keepsPhases : phases.

Ltac phases_leaf :=
  first
    [ solve [eauto with phases]
    | solve [eapply keeps_weaken; [apply sameSession_keepsPhases|auto with frame]]
    | solve [eapply keeps_weaken; [apply mayStopCapture_keepsPhases|auto with frame]]
    | solve [eapply keeps_weaken; [apply mayCancelRender_keepsPhases|auto with frame]] ].

Ltac phases := repeat frame_step; try phases_leaf.

Lemma recognition_onresult_keepsPhases text confidence :
  keeps keepsPhases (VoiceEngine.recognition_onresult text confidence).
Proof.
  intros e w.
  destruct (String.eqb_spec (StateManager.currentState (VoiceEngine.stateManager e))
              "LISTENING") as [Hl|Hl].
  - intros _.
    unfold after, VoiceEngine.recognition_onresult. cbn [fst snd]. cbv zeta.
    unfold bind at 1. rewrite VoiceEngine_log_run.
    unfold bind at 1. unfold world at 1. unfold bind at 1. unfold get at 1.
    destruct (_ && _).
    + rewrite VoiceEngine_log_run. unfold phase. cbn [fst]. rewrite Hl.
      now exists Listening.
    + unfold bind at 1. unfold put at 1. unfold bind at 1.
      rewrite onStateManager_is. cbn [VoiceEngine.stateManager]. rewrite Hl.
      cbn [String.eqb Ascii.eqb Bool.eqb]. unfold bind at 1.
      match goal with
      | |- context [VoiceEngine.onStateManager (StateManager.transition ?t) ?e1 ?w1] =>
          pose proof (onStateManager_transition_keepsPhases t e1 w1) as H;
          unfold after in H; cbn [fst snd] in H;
          destruct (VoiceEngine.onStateManager (StateManager.transition t) e1 w1)
            as [[r e2] w2]
      end.
      assert (H2 : isPhase (phase (e2, w2))).
      { apply H. unfold phase. cbn [fst VoiceEngine.stateManager]. rewrite Hl.
        now exists Listening. }
      destruct r; [destruct (VoiceEngine.onTranscriptCallback e)|]; exact H2.
  - apply sameSession_keepsPhases. now apply recognition_onresult_elsewhere.
Qed.

Lemma speak_keepsPhases text lang : keeps keepsPhases (VoiceEngine.speak text lang).
Proof.
  unfold VoiceEngine.speak, VoiceEngine.reject, VoiceEngine.synthesis_speak.
  phases.
Qed.

Lemma speakResponse_catch_keepsPhases error :
  keeps keepsPhases (LinguaBridgeApp.speakResponse_catch error).
Proof. unfold LinguaBridgeApp.speakResponse_catch. phases. Qed.

Lemma speakResponse_keepsPhases text :
  keeps keepsPhases (LinguaBridgeApp.speakResponse text).
Proof.
  unfold LinguaBridgeApp.speakResponse.
  apply keeps_bind; [apply keepsPhases_trans|apply speak_keepsPhases|].
  intros [|reason]; [apply keeps_ret, keepsPhases_refl|].
  apply speakResponse_catch_keepsPhases.
Qed.

Lemma handler_keepsPhases (a : Action) : keeps keepsPhases (handler a).
Proof.
  pose proof notifyError_keeps as Hn.
  pose proof speakResponse_keepsPhases as Hs.
  pose proof speak_keepsPhases as Hk.
  pose proof speakResponse_catch_keepsPhases as Hc.
  pose proof recognition_onresult_keepsPhases as Hr.
  pose proof setRecognitionLanguage_keeps as H1.
  pose proof setSynthesisLanguage_keeps as H2.
  pose proof onTranscript_keeps as H3.
  pose proof onError_keeps as H4.
  destruct a; cbn [handler];
    unfold VoiceEngine.startListening, VoiceEngine.stopListening,
      VoiceEngine.cancelSpeech, VoiceEngine.recognition_onstart,
      VoiceEngine.recognition_onend, VoiceEngine.recognition_onerror,
      VoiceEngine.utterance_onstart, VoiceEngine.utterance_onend,
      VoiceEngine.utterance_onerror, VoiceEngine.resolve, VoiceEngine.reject,
      LinguaBridgeApp.handleMicClick, LinguaBridgeApp.startListening,
      LinguaBridgeApp.switchLesson, LinguaBridgeApp.handleTranscript,
      VoiceEngine.startListening, VoiceEngine.stopListening;
    phases.
Qed.

Lemma constructor_phase (recognitionSupported synthesisSupported : bool) (w : World) :
  phase (VoiceEngine.constructor StateManager.new recognitionSupported
           synthesisSupported w) = "IDLE".
Proof. reflexivity. Qed.

(** X14.  In every state a coordinator can reach, the phase is one of IDLE,
    LISTENING, PROCESSING and SPEAKING: nothing in the engine or in the
    application forces the state manager to anything but IDLE, and a
    validated transition follows the table. *)
Theorem the_phase_is_always_one_of_the_four (s : VoiceEngine.t * World) :
  reachable s -> exists p, phase s = phaseName p.
Proof.
  induction 1 as [rs ss w Hc Hr|a s Hs IH En].
  - exists Idle. apply constructor_phase.
  - apply (handler_keepsPhases a (fst s) (deliver a (snd s))). exact IH.
Qed.

(** * The end of an utterance *)





(** * More of the application *)

(** What [transition] throws is an error object: the [TypeError] of a read
    on a listener's [null], or of a read on a table that is not there. *)
Lemma forEach_notifyOne_throws (p n : string) (ls : list FnRef) :
  forall (sm : StateManager.t) (w : World) v sm' w',
    forEach (StateManager.notifyOne p n) ls sm w = (Abrupt v, sm', w') ->
    exists name message, v = VError name message.
Proof.
  induction ls as [|f ls IH]; intros sm w v sm' w' E; simpl in E.
  - discriminate.
  - unfold bind in E.
    destruct (notifyOne_run p n f sm w) as (r & evs1 & E1 & _ & Hr).
    rewrite E1 in E. destruct r as [[]|v1].
    + now apply IH in E.
    + injection E as <- _ _.
      destruct (throwsNullish _); [|discriminate].
      destruct Hr as (name & message & Hr). injection Hr as ->. eauto.
Qed.

Lemma transition_throws (t : string) (sm : StateManager.t) (w : World) v sm' w' :
  StateManager.transition t sm w = (Abrupt v, sm', w') ->
  exists name message, v = VError name message.
Proof.
  rewrite transition_run. cbv zeta.
  destruct (negb _); [discriminate|].
  destruct (readProp StateManager.TRANSITIONS _) as [arr| |].
  - destruct (includes arr t); [|discriminate].
    unfold StateManager.notifyListeners, bind, get.
    destruct (forEach _ _ _ _) as [[[[]|v1] sm1] w1] eqn:E; [discriminate|].
    intros H. injection H as <- _ _. now apply forEach_notifyOne_throws in E.
  - intros H. injection H as <- _ _. eauto.
  - intros H. injection H as <- _ _. eauto.
Qed.

Lemma speakResponse_catch_run (name message : string) (e : VoiceEngine.t) (w : World) :
  exists r evs,
    LinguaBridgeApp.speakResponse_catch (VError name message) e w
    = (r,
       VoiceEngine.withStateManager
         (StateManager.mk "IDLE" (StateManager.listeners (VoiceEngine.stateManager e))
            (StateManager.debugMode (VoiceEngine.stateManager e))) e,
       addEvents w evs)
    /\ Forall managerEvent evs.
Proof.
  unfold LinguaBridgeApp.speakResponse_catch, bind, message_of, ret,
    VoiceEngine.onStateManager, StateManager.reset.
  destruct (forceTransition_any "IDLE" (VoiceEngine.stateManager e) w)
    as (r & evs & k & E & _).
  cbv zeta in E. cbn [StateManager.truthy readProp ownProp StateManager.STATES
                      String.eqb Ascii.eqb Bool.eqb negb] in E.
  destruct (forceTransition_events "IDLE" (VoiceEngine.stateManager e) w)
    as (evs0 & Ev & Hm).
  unfold after in Ev. cbn [fst snd] in Ev. rewrite E in Ev. cbn [snd] in Ev.
  apply addEvents_inj in Ev. rewrite E.
  eexists; eexists. split; [reflexivity|]. now rewrite Ev.
Qed.

Ltac not_speak :=
  repeat first
    [ apply notSpeak_quiescedEvents
    | apply notSpeak_managerEvent; assumption
    | apply notSpeak_managerEvent; apply managerEvent_logged
    | apply Forall_app; split
    | apply Forall_cons; [exact I|]
    | apply Forall_nil ].

(** X16.  [speakResponse] never leaves the session in PROCESSING: either the
    text has been handed to the rendering capability and the phase is
    SPEAKING, or [speak] refused (wrong phase, no rendering capability, the
    transition not granted), the [catch] block has reset the state manager,
    the phase is IDLE and nothing was handed over. *)
Theorem speakResponse_ends_speaking_or_idle (text : string)
    (e : VoiceEngine.t) (w : World) :
  let '(r, e', w') := LinguaBridgeApp.speakResponse text e w in
  (phase (e', w') = "SPEAKING"
   /\ render w' = Rendering
   /\ r = Normal tt
   /\ StateManager.currentState (VoiceEngine.stateManager e) = "PROCESSING")
  \/ (phase (e', w') = "IDLE" /\ Forall notSpeak (emitted w w')).
Proof.
  unfold LinguaBridgeApp.speakResponse, bind.
  destruct (String.eqb_spec (StateManager.currentState (VoiceEngine.stateManager e))
              "PROCESSING") as [Hp|Hp].
  - destruct (VoiceEngine.synthesisAvailable e) eqn:Hs.
    + rewrite (speak_run text None e w Hp Hs).
      destruct (quiesced_facts e w) as (Htr & _).
      destruct (transition_events "SPEAKING" (VoiceEngine.stateManager e)
                  (quiesced e w)) as (evs0 & Ev & Hm).
      destruct (transition_any "SPEAKING" (VoiceEngine.stateManager e) (quiesced e w))
        as (r0 & evs1 & k & Ea & _).
      cbv zeta in Ea. rewrite (validated_PROCESSING_SPEAKING _ Hp) in Ea.
      unfold after in Ev. cbn [fst snd] in Ev.
      destruct (StateManager.transition "SPEAKING" (VoiceEngine.stateManager e)
                  (quiesced e w)) as [[[[|]|v] sm'] w1] eqn:Et;
        cbn [snd] in Ev; subst w1; cbv beta iota.
      * unfold ret. cbv beta iota. left. injection Ea as _ -> _.
        repeat split; try reflexivity. exact Hp.
      * destruct (speakResponse_catch_run "Error"
                    "Failed to transition to SPEAKING state"
                    (VoiceEngine.withStateManager sm' e)
                    (emit (PromiseReject
                             (VError "Error" "Failed to transition to SPEAKING state"))
                          (addEvents (quiesced e w) evs0)))
          as (r & evs & -> & Hm2).
        right.
        split; [reflexivity|].
        erewrite emitted_trace
          by (cbn [trace addEvents emit]; rewrite Htr, <- !app_assoc; reflexivity).
        not_speak.
      * destruct (transition_throws _ _ _ _ _ _ Et) as (name & message & ->).
        destruct (speakResponse_catch_run name message
                    (VoiceEngine.withStateManager sm' e)
                    (emit (PromiseReject (VError name message))
                          (addEvents (quiesced e w) evs0)))
          as (r & evs & -> & Hm2).
        right.
        split; [reflexivity|].
        erewrite emitted_trace
          by (cbn [trace addEvents emit]; rewrite Htr, <- !app_assoc; reflexivity).
        not_speak.
    + rewrite (speak_unavailable text None e w Hp Hs).
      destruct (speakResponse_catch_run "Error" "Speech synthesis not available" e
                  (addEvents w
                     (logged (VoiceEngine.debugMode e) Error "[VoiceEngine]" (clock w)
                             "Speech Synthesis not available"
                      ++ [PromiseReject
                            (VError "Error" "Speech synthesis not available")])))
        as (r & evs & -> & Hm2).
        right.
      split; [reflexivity|]. rewrite addEvents_app, emitted_addEvents.
      not_speak.
  - rewrite (speak_elsewhere text None e w Hp).
    destruct (speakResponse_catch_run "Error" "Invalid state for speaking" e
                (addEvents w
                   (logged (VoiceEngine.debugMode e) Warn "[VoiceEngine]" (clock w)
                           "Cannot speak - not in PROCESSING state"
                    ++ [PromiseReject (VError "Error" "Invalid state for speaking")])))
      as (r & evs & -> & Hm2).
        right.
    split; [reflexivity|]. rewrite addEvents_app, emitted_addEvents.
    not_speak.
Qed.

Lemma transition_IDLE_PROCESSING (sm : StateManager.t) (w : World) :
  StateManager.currentState sm = "IDLE" ->
  StateManager.transition "PROCESSING" sm w
  = (Normal false, sm,
     addEvents w (logged (StateManager.debugMode sm) Error "[StateManager]" (clock w)
                    "ERROR: Cannot transition from IDLE to PROCESSING")).
Proof.
  intros H. rewrite transition_run. cbv zeta. rewrite H. reflexivity.
Qed.

(** X17.  [switchLesson] of the application never speaks the introduction of
    the lesson.  It goes on only in IDLE, and asks the state manager for
    PROCESSING, which the table does not grant from IDLE; [speak] then
    refuses, and the [catch] block of [speakResponse] resets to IDLE.
    Whatever the phase, the key and the introduction: neither capability is
    asked for anything, and the phase afterwards is the phase before. *)
Theorem switchLesson_never_speaks_the_introduction (success : bool)
    (intro : string) (e : VoiceEngine.t) (w : World) :
  let '(r, e', w') := LinguaBridgeApp.switchLesson success intro e w in
  extends w w'
  /\ filter isCapabilityCall (emitted w w') = []
  /\ phase (e', w') = phase (e, w)
  /\ (StateManager.currentState (VoiceEngine.stateManager e) <> "IDLE"
      \/ success = false ->
      r = Normal tt /\ e' = e /\ w' = w).
Proof.
  unfold LinguaBridgeApp.switchLesson.
  unfold bind at 1. rewrite onStateManager_is.
  destruct (String.eqb_spec (StateManager.currentState (VoiceEngine.stateManager e))
              "IDLE") as [Hidle|Hbusy]; cbn [negb].
  2: { unfold ret. split; [exists []; now rewrite addEvents_nil|].
       unfold emitted. rewrite skipn_all. repeat split; reflexivity. }
  destruct success.
  2: { unfold ret. split; [exists []; now rewrite addEvents_nil|].
       unfold emitted. rewrite skipn_all. repeat split; reflexivity. }
  unfold bind at 1. unfold VoiceEngine.onStateManager at 1.
  rewrite (transition_IDLE_PROCESSING _ w Hidle), withStateManager_same.
  unfold LinguaBridgeApp.speakResponse, bind.
  rewrite speak_elsewhere by (rewrite Hidle; discriminate).
  rewrite addEvents_app.
  match goal with
  | |- context [LinguaBridgeApp.speakResponse_catch (VError ?n ?m) ?e1 ?w1] =>
      destruct (speakResponse_catch_run n m e1 w1) as (r & evs & -> & Hm)
  end.
  rewrite addEvents_app, emitted_addEvents.
  split; [eexists; reflexivity|]. split.
  - rewrite !filter_app, !capabilityCalls_logged.
    now rewrite (capabilityCalls_managerEvents evs Hm).
  - split.
    + unfold phase. cbn [fst VoiceEngine.withStateManager VoiceEngine.stateManager].
      now rewrite Hidle.
    + intros [H|H]; [now contradiction H|discriminate].
Qed.

(** A click on the microphone is ignored in PROCESSING and in SPEAKING
    (the user cannot interrupt the tutor), and in IDLE while the two
    languages selected are the same: the engine is not called and nothing
    changes. *)
Lemma mic_clicks_are_ignored_while_busy (languagesValid : bool)
    (e : VoiceEngine.t) (w : World) :
  StateManager.currentState (VoiceEngine.stateManager e) <> "LISTENING" ->
  StateManager.currentState (VoiceEngine.stateManager e) <> "IDLE"
  \/ languagesValid = false ->
  LinguaBridgeApp.handleMicClick languagesValid e w = (Normal tt, e, w).
Proof.
  intros Hl H. unfold LinguaBridgeApp.handleMicClick.
  unfold bind at 1. rewrite getState_run.
  destruct (String.eqb_spec (StateManager.currentState (VoiceEngine.stateManager e))
              "IDLE") as [Hidle|Hbusy].
  - destruct H as [H|H]; [now contradiction H|]. now subst languagesValid.
  - apply String.eqb_neq in Hl. now rewrite Hl.
Qed.

(** * The language engine *)

Lemma split_not_nil (sep : ascii) (s : string) : split sep s <> [].
Proof.
  induction s as [|c s IH]; simpl; [discriminate|].
  destruct (Ascii.eqb c sep); [discriminate|].
  destruct (split sep s); [contradiction|discriminate].
Qed.

Lemma count_matches (words2 words1 : list string) (n : nat) :
  fold_left (fun matches word => if includes words2 word then S matches else matches)
            words1 n
  = (n + List.length (filter (includes words2) words1))%nat.
Proof.
  revert n. induction words1 as [|word words1 IH]; intros n; simpl; [lia|].
  rewrite IH. destruct (includes words2 word); simpl; lia.
Qed.

Lemma Zpos_of_nat (n : nat) : n <> O -> Z.pos (Pos.of_nat n) = Z.of_nat n.
Proof.
  intros H. rewrite <- positive_nat_Z. now rewrite Nat2Pos.id.
Qed.

(** [calculateSimilarity] as a formula: the words of the first string that
    occur in the second, over the greater of the two numbers of words,
    which is not zero. *)
Lemma calculateSimilarity_run (str1 str2 : string) :
  let words1 := split " " str1 in
  let words2 := split " " str2 in
  let maxLength := Nat.max (List.length words1) (List.length words2) in
  maxLength <> O
  /\ LanguageEngine.calculateSimilarity str1 str2
     = (Z.of_nat (List.length (filter (includes words2) words1))
          # Pos.of_nat maxLength)%Q.
Proof.
  cbv zeta. unfold LanguageEngine.calculateSimilarity.
  rewrite count_matches.
  pose proof (split_not_nil " " str1) as H1.
  assert (Hmax : Nat.max (List.length (split " " str1)) (List.length (split " " str2))
                 <> O).
  { destruct (split " " str1); [contradiction|]. simpl.
    destruct (List.length (split " " str2)); discriminate. }
  split; [exact Hmax|].
  destruct (Nat.ltb_spec 0 (Nat.max (List.length (split " " str1))
                                    (List.length (split " " str2)))); [reflexivity|lia].
Qed.

Lemma calculateSimilarity_facts (str1 str2 : string) :
  (0 <= LanguageEngine.calculateSimilarity str1 str2)%Q
  /\ (LanguageEngine.calculateSimilarity str1 str2 <= 1)%Q
  /\ (LanguageEngine.calculateSimilarity str1 str1 == 1)%Q
  /\ ((LanguageEngine.calculateSimilarity str1 str2 == 0)%Q
      <-> forall word, In word (split " " str1) -> ~ In word (split " " str2)).
Proof.
  destruct (calculateSimilarity_run str1 str2) as (Hmax & E).
  destruct (calculateSimilarity_run str1 str1) as (Hmax1 & E1).
  cbv zeta in *. rewrite E, E1.
  pose proof (filter_length_le (includes (split " " str2)) (split " " str1)) as Hle.
  unfold Qle, Qeq. cbn [Qnum Qden]. rewrite !Zpos_of_nat by assumption.
  split; [lia|]. split; [lia|]. split.
  - assert (Hall : filter (includes (split " " str1)) (split " " str1)
                   = split " " str1).
    { apply forallb_filter_id. apply forallb_forall. intros word Hw.
      now apply includes_In. }
    rewrite Hall. lia.
  - split.
    + intros H word Hw Hin.
      assert (Hf : In word (filter (includes (split " " str2)) (split " " str1))).
      { apply filter_In. split; [exact Hw|now apply includes_In]. }
      destruct (filter _ _); [contradiction|]. simpl in H. lia.
    + intros H.
      assert (Hnil : filter (includes (split " " str2)) (split " " str1) = []).
      { destruct (filter _ _) as [|word ws] eqn:Ef; [reflexivity|]. exfalso.
        assert (Hin : In word (word :: ws)) by now left.
        rewrite <- Ef in Hin. apply filter_In in Hin. destruct Hin as (Hw & Hi).
        apply includes_In in Hi. exact (H word Hw Hi). }
      rewrite Hnil. reflexivity.
Qed.

(** X18.  The similarity is a share between 0 and 1 of the words said: 1 for a
    string and itself, and 0 exactly when no word of the first string is a
    word of the second. *)
Theorem calculateSimilarity_is_a_share_of_the_words (str1 str2 : string) :
  (0 <= LanguageEngine.calculateSimilarity str1 str2)%Q
  /\ (LanguageEngine.calculateSimilarity str1 str2 <= 1)%Q
  /\ (LanguageEngine.calculateSimilarity str1 str1 == 1)%Q
  /\ ((LanguageEngine.calculateSimilarity str1 str2 == 0)%Q
      <-> forall word, In word (split " " str1) -> ~ In word (split " " str2)).
Proof. exact (calculateSimilarity_facts str1 str2). Qed.

Lemma Qgt_bool_iff (x y : Q) : Qgt_bool x y = true <-> (y < x)%Q.
Proof.
  unfold Qgt_bool. rewrite negb_true_iff. split.
  - intros H. apply Qnot_le_lt. intros Hle. apply Qle_bool_iff in Hle. congruence.
  - intros H. destruct (Qle_bool x y) eqn:E; [|reflexivity].
    apply Qle_bool_iff in E. exfalso. now apply (Qlt_not_le y x).
Qed.

Lemma Qgt_bool_false (x y : Q) : Qgt_bool x y = false <-> (x <= y)%Q.
Proof.
  unfold Qgt_bool. rewrite negb_false_iff. apply Qle_bool_iff.
Qed.

Section ClosestMatch.

Variable toLowerCase : string -> string.
Variable lang : Key.
Variable input : string.

(** How similar the input is to what a phrase is in the language learnt. *)
Let similarity (target : string) : Q :=
  LanguageEngine.calculateSimilarity input (toLowerCase target).

(** The loop keeps the first phrase of the greatest similarity, when that
    is greater than the similarity it starts with. *)
Lemma closestMatch_run (expectedPhrases : list Phrase) :
  forall best best',
    LanguageEngine.closestMatch toLowerCase lang input expectedPhrases best
    = Normal best' ->
    (forall phrase target,
        In phrase expectedPhrases -> prop phrase lang = Some target ->
        (similarity target <= snd best')%Q)
    /\ (snd best <= snd best')%Q
    /\ (best' = best
        \/ exists phrase target,
             In phrase expectedPhrases /\ prop phrase lang = Some target
             /\ best' = (Some phrase, similarity target)
             /\ (snd best < similarity target)%Q).
Proof.
  induction expectedPhrases as [|phrase rest IH]; intros best best' E; simpl in E.
  - injection E as <-. split; [intros ? ? []|]. split; [apply Qle_refl|now left].
  - destruct (prop phrase lang) as [target|] eqn:Ep; [|discriminate].
    fold (similarity target) in E. apply IH in E. destruct E as (Hmax & Hle & Hbest).
    destruct (Qgt_bool (similarity target) (snd best)) eqn:Eg; cbn [snd] in *.
    + apply Qgt_bool_iff in Eg. split; [|split].
      * intros phrase' target' [<-|Hin] Hp.
        -- rewrite Ep in Hp. injection Hp as <-. exact Hle.
        -- now apply (Hmax phrase').
      * apply Qlt_le_weak. now apply (Qlt_le_trans _ (similarity target)).
      * right. destruct Hbest as [->|(phrase' & target' & Hin & Hp & -> & Hlt)].
        -- exists phrase, target. repeat split; auto. now left.
        -- exists phrase', target'. repeat split; auto; [now right|].
           now apply (Qlt_trans _ (similarity target)).
    + apply Qgt_bool_false in Eg. split; [|split].
      * intros phrase' target' [<-|Hin] Hp.
        -- rewrite Ep in Hp. injection Hp as <-.
           now apply (Qle_trans _ (snd best)).
        -- now apply (Hmax phrase').
      * exact Hle.
      * destruct Hbest as [->|(phrase' & target' & Hin & Hp & -> & Hlt)];
          [now left|right].
        exists phrase', target'. repeat split; auto. now right.
Qed.

(** It completes when every phrase has a translation, and throws at the
    first that has none. *)
Lemma closestMatch_total (expectedPhrases : list Phrase) :
  (forall phrase, In phrase expectedPhrases -> prop phrase lang <> None) ->
  forall best, exists best',
    LanguageEngine.closestMatch toLowerCase lang input expectedPhrases best
    = Normal best'.
Proof.
  induction expectedPhrases as [|phrase rest IH]; intros Hall best; simpl.
  - now exists best.
  - destruct (prop phrase lang) as [target|] eqn:Ep.
    + apply IH. intros phrase' Hin. apply Hall. now right.
    + exfalso. apply (Hall phrase); [now left|exact Ep].
Qed.

Lemma closestMatch_throws (expectedPhrases : list Phrase) :
  (exists phrase, In phrase expectedPhrases /\ prop phrase lang = None) ->
  forall best,
    LanguageEngine.closestMatch toLowerCase lang input expectedPhrases best
    = Abrupt (VError "TypeError"
                "Cannot read properties of undefined (reading 'toLowerCase')").
Proof.
  induction expectedPhrases as [|phrase rest IH]; intros (bad & Hin & Hbad) best.
  - destruct Hin.
  - simpl. destruct (prop phrase lang) as [target|] eqn:Ep; [|reflexivity].
    apply IH. destruct Hin as [<-|Hin]; [congruence|]. now exists bad.
Qed.

End ClosestMatch.

(** X19.  The correction [checkAgainstExpected] offers is an expected phrase of
    the greatest similarity to the input, and more than half similar to
    it; no correction is offered exactly when no expected phrase is more
    than half similar. *)
Theorem checkAgainstExpected_offers_the_closest_phrase
    (toLowerCase : string -> string) (this : LanguageEngine.t) (draw : nat)
    (input : string) (expectedPhrases : list Phrase)
    (response : LanguageEngine.Response) :
  LanguageEngine.checkAgainstExpected toLowerCase this draw input expectedPhrases
  = Normal response ->
  let lang := LanguageEngine.learningLanguage this in
  let similarity target :=
    LanguageEngine.calculateSimilarity input (toLowerCase target) in
  LanguageEngine.type response = "practice"
  /\ match LanguageEngine.correction response with
     | Some correction =>
         (5 # 10 < similarity correction)%Q
         /\ (exists phrase,
               In phrase expectedPhrases /\ prop phrase lang = Some correction)
         /\ forall phrase target,
              In phrase expectedPhrases -> prop phrase lang = Some target ->
              (similarity target <= similarity correction)%Q
     | None =>
         forall phrase target,
           In phrase expectedPhrases -> prop phrase lang = Some target ->
           (similarity target <= 5 # 10)%Q
     end.
Proof.
  intros E. cbv zeta. unfold LanguageEngine.checkAgainstExpected in E. cbv zeta in E.
  destruct (LanguageEngine.closestMatch _ _ _ _ _) as [[bestMatch bestSimilarity]|v]
    eqn:Ec; [|discriminate].
  apply closestMatch_run in Ec. cbn [snd] in Ec. destruct Ec as (Hmax & _ & Hbest).
  assert (Hfound :
            bestMatch = None
            \/ exists phrase target,
                 In phrase expectedPhrases
                 /\ prop phrase (LanguageEngine.learningLanguage this) = Some target
                 /\ bestMatch = Some phrase
                 /\ bestSimilarity
                    = LanguageEngine.calculateSimilarity input (toLowerCase target)).
  { destruct Hbest as [Hb|(phrase & target & Hin & Hp & Hb & _)].
    - left. now injection Hb as ->.
    - right. exists phrase, target. injection Hb as -> ->. auto. }
  destruct (Qgt_bool bestSimilarity (8 # 10)) eqn:E8.
  - apply Qgt_bool_iff in E8.
    destruct Hfound as [->|(phrase & target & Hin & Hp & -> & ->)]; [discriminate|].
    injection E as <-. cbn. rewrite Hp. split; [reflexivity|].
    split; [now apply (Qlt_trans _ (8 # 10))|]. split; [now exists phrase|exact Hmax].
  - destruct (Qgt_bool bestSimilarity (5 # 10)) eqn:E5.
    + apply Qgt_bool_iff in E5.
      destruct Hfound as [->|(phrase & target & Hin & Hp & -> & ->)]; [discriminate|].
      injection E as <-. cbn. rewrite Hp. split; [reflexivity|].
      split; [exact E5|]. split; [now exists phrase|exact Hmax].
    + apply Qgt_bool_false in E5. injection E as <-. cbn. split; [reflexivity|].
      intros phrase target Hin Hp. apply (Qle_trans _ bestSimilarity); [|exact E5].
      now apply (Hmax phrase).
Qed.

(** X20.  The input that is, lower-cased, an expected phrase in the language
    learnt is answered with [Perfect!]: the correction is an expected
    phrase that has all the words of the input, and the encouragement is
    drawn from the list of the language. *)
Theorem an_expected_phrase_said_exactly_is_perfect
    (toLowerCase : string -> string) (this : LanguageEngine.t) (draw : nat)
    (input : string) (expectedPhrases : list Phrase) :
  (forall phrase, In phrase expectedPhrases ->
                  prop phrase (LanguageEngine.learningLanguage this) <> None) ->
  (exists phrase target,
      In phrase expectedPhrases
      /\ prop phrase (LanguageEngine.learningLanguage this) = Some target
      /\ toLowerCase target = input) ->
  exists phrase correction,
    In phrase expectedPhrases
    /\ prop phrase (LanguageEngine.learningLanguage this) = Some correction
    /\ (LanguageEngine.calculateSimilarity input (toLowerCase correction) == 1)%Q
    /\ LanguageEngine.checkAgainstExpected toLowerCase this draw input expectedPhrases
       = Normal
           (LanguageEngine.mkResponse
              (Some correction)
              (Some ("Perfect! That's how you say " ++ dquote
                       ++ show (ownProp phrase "text") ++ dquote ++ " in "
                       ++ LanguageEngine.getLanguageName
                            (LanguageEngine.learningLanguage this) ++ ".")%string)
              (LanguageEngine.getRandomEncouragement this draw)
              "practice" None).
Proof.
  intros Hall (said & target & Hin & Hp & Hlow).
  destruct (closestMatch_total toLowerCase (LanguageEngine.learningLanguage this) input
              expectedPhrases Hall (None, 0%Q)) as ([bestMatch bestSimilarity] & Ec).
  pose proof (closestMatch_run _ _ _ _ _ _ Ec) as (Hmax & _ & Hbest).
  cbn [snd] in *.
  assert (Hone : (1 <= bestSimilarity)%Q).
  { specialize (Hmax said target Hin Hp). rewrite Hlow in Hmax.
    destruct (calculateSimilarity_facts input input)
      as (_ & _ & H1 & _).
    now rewrite H1 in Hmax. }
  destruct Hbest as [Hb|(phrase & correction & Hin' & Hp' & Hb & _)].
  - injection Hb as _ ->. exfalso. revert Hone. apply Qlt_not_le. reflexivity.
  - injection Hb as -> ->. exists phrase, correction.
    split; [exact Hin'|]. split; [exact Hp'|]. split.
    + apply Qle_antisym; [|exact Hone].
      apply calculateSimilarity_facts.
    + unfold LanguageEngine.checkAgainstExpected. cbv zeta. rewrite Ec.
      assert (E8 : Qgt_bool
                     (LanguageEngine.calculateSimilarity input (toLowerCase correction))
                     (8 # 10) = true).
      { apply Qgt_bool_iff. apply (Qlt_le_trans _ 1); [reflexivity|exact Hone]. }
      rewrite E8, Hp'. reflexivity.
Qed.

Lemma LanguageEngine_log_run (message : string) (level : Level)
    (this : LanguageEngine.t) (w : World) :
  LanguageEngine.log message level this w
  = (Normal tt, this,
     addEvents w [Console level "[LanguageEngine]" (toLocaleTimeString (clock w))
                    message]).
Proof. reflexivity. Qed.

(** [analyzeAndRespond], step by step: the line on the console, the entry
    in the history, then the analysis, whose exception it lets through. *)
Lemma analyzeAndRespond_run (toLowerCase : string -> string)
    (encouragementDraw promptDraw : nat) (userInput : string)
    (context : LanguageEngine.Context) (this : LanguageEngine.t) (w : World) :
  let normalized := trim (toLowerCase userInput) in
  let this' :=
    LanguageEngine.mk (LanguageEngine.nativeLanguage this)
      (LanguageEngine.learningLanguage this)
      (LanguageEngine.conversationHistory this
         ++ [LanguageEngine.mkEntry normalized (clock w)]) in
  let w' :=
    addEvents w [Console Info "[LanguageEngine]" (toLocaleTimeString (clock w))
                   ("Analyzing: " ++ dquote ++ userInput ++ dquote)] in
  LanguageEngine.analyzeAndRespond toLowerCase encouragementDraw promptDraw
    userInput context this w
  = match match LanguageEngine.expectedPhrases context with
          | Some (phrase :: phrases) =>
              LanguageEngine.checkAgainstExpected toLowerCase this' encouragementDraw
                normalized (phrase :: phrases)
          | _ => LanguageEngine.generalAnalysis this' encouragementDraw normalized
          end
    with
    | Normal response =>
        (Normal
           (LanguageEngine.mkResponse
              (LanguageEngine.correction response)
              (LanguageEngine.explanation response)
              (LanguageEngine.encouragement response)
              (LanguageEngine.type response)
              (LanguageEngine.generateNextPrompt this' promptDraw context)),
         this', w')
    | Abrupt v => (Abrupt v, this', w')
    end.
Proof.
  cbv zeta. unfold LanguageEngine.analyzeAndRespond. cbv zeta.
  unfold bind at 1. rewrite LanguageEngine_log_run.
  cbv beta iota delta [bind world get put liftC ret addEvents clock trace].
  destruct (match LanguageEngine.expectedPhrases context with
            | Some (phrase :: phrases) => _
            | _ => _
            end); reflexivity.
Qed.

(** X21.  [analyzeAndRespond] records the input, lower-cased and trimmed, with
    the time, at the end of the history, before it analyses it: the entry
    is there whether the analysis returns or throws.  The languages are
    as they were, and one line is written to the console. *)
Theorem analyzeAndRespond_records_the_input (toLowerCase : string -> string)
    (encouragementDraw promptDraw : nat) (userInput : string)
    (context : LanguageEngine.Context) (this : LanguageEngine.t) (w : World) :
  let '(r, this', w') :=
    LanguageEngine.analyzeAndRespond toLowerCase encouragementDraw promptDraw
      userInput context this w in
  LanguageEngine.conversationHistory this'
  = LanguageEngine.conversationHistory this
      ++ [LanguageEngine.mkEntry (trim (toLowerCase userInput)) (clock w)]
  /\ LanguageEngine.nativeLanguage this' = LanguageEngine.nativeLanguage this
  /\ LanguageEngine.learningLanguage this' = LanguageEngine.learningLanguage this
  /\ emitted w w'
     = [Console Info "[LanguageEngine]" (toLocaleTimeString (clock w))
          ("Analyzing: " ++ dquote ++ userInput ++ dquote)].
Proof.
  rewrite analyzeAndRespond_run. cbv zeta.
  destruct (match LanguageEngine.expectedPhrases context with
            | Some (phrase :: phrases) => _
            | _ => _
            end); rewrite emitted_addEvents; repeat split; reflexivity.
Qed.

(** X22.  When an expected phrase of the lesson has no entry for the language
    learnt, [analyzeAndRespond] throws a [TypeError]: no response is
    computed, whatever was said. *)
Theorem analyzeAndRespond_throws_without_a_translation
    (toLowerCase : string -> string) (encouragementDraw promptDraw : nat)
    (userInput : string) (context : LanguageEngine.Context)
    (this : LanguageEngine.t) (w : World) (expectedPhrases : list Phrase) :
  LanguageEngine.expectedPhrases context = Some expectedPhrases ->
  (exists phrase,
      In phrase expectedPhrases
      /\ prop phrase (LanguageEngine.learningLanguage this) = None) ->
  fst (fst (LanguageEngine.analyzeAndRespond toLowerCase encouragementDraw promptDraw
              userInput context this w))
  = Abrupt (VError "TypeError"
              "Cannot read properties of undefined (reading 'toLowerCase')").
Proof.
  intros Hc Hbad. rewrite analyzeAndRespond_run. cbv zeta. rewrite Hc.
  destruct expectedPhrases as [|phrase phrases].
  - destruct Hbad as (bad & [] & _).
  - unfold LanguageEngine.checkAgainstExpected. cbv zeta.
    cbn [LanguageEngine.learningLanguage].
    now rewrite (closestMatch_throws toLowerCase _ _ _ Hbad).
Qed.

Lemma prop_four {A} (v1 v2 v3 v4 : A) (lang : Key) :
  prop [("en", v1); ("es", v2); ("de", v3); ("fr", v4)] lang
  = if String.eqb "en" (keyName lang) then Some v1
    else if String.eqb "es" (keyName lang) then Some v2
    else if String.eqb "de" (keyName lang) then Some v3
    else if String.eqb "fr" (keyName lang) then Some v4
    else None.
Proof. reflexivity. Qed.

Lemma generalAnalysis_run (this : LanguageEngine.t) (draw : nat) (input : string)
    (greetings intros : list string) :
  prop LanguageEngine.greetingPatterns (LanguageEngine.learningLanguage this)
  = Some greetings ->
  prop LanguageEngine.introPatterns (LanguageEngine.learningLanguage this)
  = Some intros ->
  exists response,
    LanguageEngine.generalAnalysis this draw input = Normal response
    /\ LanguageEngine.type response = "conversation"
    /\ LanguageEngine.correction response
       = (if existsb (string_includes input) greetings
             || existsb (string_includes input) intros
          then Some input else None).
Proof.
  intros Hg Hi. unfold LanguageEngine.generalAnalysis, LanguageEngine.somePattern.
  cbv zeta. rewrite Hg, Hi.
  destruct (existsb (string_includes input) greetings);
    [|destruct (existsb (string_includes input) intros)];
    eexists; repeat split; reflexivity.
Qed.

(** X23.  Without expected phrases the input is taken as conversation.  The
    tables of greetings and introductions have the four languages [en],
    [es], [de] and [fr]: when one of them is learnt the analysis returns,
    and its correction is the input itself when the input contains a
    greeting or an introduction of the language, and [null] otherwise;
    when any other language is learnt, the analysis throws a
    [TypeError]. *)
Theorem conversation_is_analysed_in_four_languages (this : LanguageEngine.t)
    (draw : nat) (input : string) :
  let lang := LanguageEngine.learningLanguage this in
  if includes ["en"; "es"; "de"; "fr"] (keyName lang) then
    exists greetings intros response,
      prop LanguageEngine.greetingPatterns lang = Some greetings
      /\ prop LanguageEngine.introPatterns lang = Some intros
      /\ LanguageEngine.generalAnalysis this draw input = Normal response
      /\ LanguageEngine.type response = "conversation"
      /\ LanguageEngine.correction response
         = (if existsb (string_includes input) greetings
               || existsb (string_includes input) intros
            then Some input else None)
  else
    LanguageEngine.generalAnalysis this draw input
    = Abrupt (VError "TypeError" "Cannot read properties of undefined (reading 'some')").
Proof.
  cbv zeta.
  assert (Hfound :
            forall greetings intros,
              prop LanguageEngine.greetingPatterns
                   (LanguageEngine.learningLanguage this) = Some greetings ->
              prop LanguageEngine.introPatterns
                   (LanguageEngine.learningLanguage this) = Some intros ->
              exists greetings intros response,
                prop LanguageEngine.greetingPatterns
                     (LanguageEngine.learningLanguage this) = Some greetings
                /\ prop LanguageEngine.introPatterns
                        (LanguageEngine.learningLanguage this) = Some intros
                /\ LanguageEngine.generalAnalysis this draw input = Normal response
                /\ LanguageEngine.type response = "conversation"
                /\ LanguageEngine.correction response
                   = (if existsb (string_includes input) greetings
                         || existsb (string_includes input) intros
                      then Some input else None)).
  { intros greetings intros Hg Hi.
    destruct (generalAnalysis_run this draw input greetings intros Hg Hi)
      as (response & H).
    exists greetings, intros, response. auto. }
  unfold includes. cbn [existsb].
  rewrite !(String.eqb_sym (keyName (LanguageEngine.learningLanguage this))).
  destruct (String.eqb "en" _) eqn:E1;
    [|destruct (String.eqb "es" _) eqn:E2;
      [|destruct (String.eqb "de" _) eqn:E3;
        [|destruct (String.eqb "fr" _) eqn:E4]]];
    cbn [orb];
    try (eapply Hfound;
         unfold LanguageEngine.greetingPatterns, LanguageEngine.introPatterns;
         rewrite prop_four, ?E1, ?E2, ?E3, ?E4; reflexivity).
  unfold LanguageEngine.generalAnalysis, LanguageEngine.somePattern,
    LanguageEngine.greetingPatterns.
  cbv zeta. now rewrite prop_four, E1, E2, E3, E4.
Qed.

(** * The lesson engine *)

Lemma getProp_setProp_same {A} (obj : list (Key * A)) (key : Key) (a : A) :
  getProp (setProp obj key a) key = Some a.
Proof.
  induction obj as [|[k b] obj IH]; simpl.
  - now rewrite String.eqb_refl.
  - destruct (String.eqb (keyName k) (keyName key)) eqn:E; simpl; now rewrite E.
Qed.

Lemma getProp_setProp_other {A} (obj : list (Key * A)) (key key' : Key) (a : A) :
  keyName key' <> keyName key ->
  getProp (setProp obj key a) key' = getProp obj key'.
Proof.
  intros Hne. induction obj as [|[k b] obj IH]; simpl.
  - destruct (String.eqb_spec (keyName key) (keyName key')); [congruence|reflexivity].
  - destruct (String.eqb_spec (keyName k) (keyName key)) as [E|E]; simpl.
    + destruct (String.eqb_spec (keyName k) (keyName key')); [congruence|reflexivity].
    + now rewrite IH.
Qed.


Lemma length_store (heap : LessonEngine.Heap) (r : LessonEngine.Ref)
    (o : LessonEngine.ProgressObject) :
  List.length (LessonEngine.store heap r o) = List.length heap.
Proof.
  revert r. induction heap as [|o' heap IH]; intros [|r]; simpl; auto.
Qed.

Lemma deref_store_same (heap : LessonEngine.Heap) (r : LessonEngine.Ref)
    (o : LessonEngine.ProgressObject) :
  (r < List.length heap)%nat ->
  LessonEngine.deref (LessonEngine.store heap r o) r = o.
Proof.
  unfold LessonEngine.deref. revert r.
  induction heap as [|o' heap IH]; intros [|r] H; simpl in *; try lia; auto.
  apply IH. lia.
Qed.

Lemma deref_store_other (heap : LessonEngine.Heap) (r r' : LessonEngine.Ref)
    (o : LessonEngine.ProgressObject) :
  r' <> r ->
  LessonEngine.deref (LessonEngine.store heap r o) r' = LessonEngine.deref heap r'.
Proof.
  unfold LessonEngine.deref. revert r r'.
  induction heap as [|o' heap IH]; intros [|r] [|r'] H; simpl; auto; try congruence.
Qed.

Lemma store_store (heap : LessonEngine.Heap) (r : LessonEngine.Ref)
    (o o' : LessonEngine.ProgressObject) :
  LessonEngine.store (LessonEngine.store heap r o) r o' = LessonEngine.store heap r o'.
Proof.
  revert r. induction heap as [|o0 heap IH]; intros [|r]; simpl; auto.
  now rewrite IH.
Qed.

Lemma LessonEngine_log_run (message : string) (level : Level)
    (s : LessonEngine.Heap * LessonEngine.t) (w : World) :
  LessonEngine.log message level s w
  = (Normal tt, s,
     addEvents w [Console level "[LessonEngine]" (toLocaleTimeString (clock w))
                    message]).
Proof. reflexivity. Qed.

(** Running a method of the lesson engine on a heap and on fields given. *)
Ltac run_lessons :=
  cbv beta iota zeta delta
    [LessonEngine.switchLesson LessonEngine.setProgressField LessonEngine.recordAttempt
     LessonEngine.getNextPhrase LessonEngine.resetLessonProgress
     LessonEngine.resetAllProgress LessonEngine.initializeProgress
     LessonEngine.exportProgress LessonEngine.importProgress
     LessonEngine.getLessonProgress LessonEngine.getLessonPhrases
     LessonEngine.getCurrentLesson LessonEngine.getLesson
     LessonEngine.read LessonEngine.write LessonEngine.progressAt
     LessonEngine.setProgressAt LessonEngine.newObject LessonEngine.log
     LessonEngine.lessons LessonEngine.currentLesson LessonEngine.currentPhraseIndex
     LessonEngine.practiceAttempts LessonEngine.lessonProgress
     bind get put ret world effect throw liftC fst snd progressObject progressOf].


Lemma at_in_range {A} (array : list A) (i : nat) (d : A) :
  (i < List.length array)%nat -> at_ array i = Just (nth i array d).
Proof.
  intros H. unfold at_. now rewrite (nth_error_nth' array d H).
Qed.

Lemma getNextPhrase_run (heap : LessonEngine.Heap) (this : LessonEngine.t)
    (w : World) (lesson : LessonEngine.Lesson) :
  getProp (LessonEngine.lessons this) (LessonEngine.currentLesson this) = Some lesson ->
  LessonEngine.phrases lesson <> [] ->
  LessonEngine.getNextPhrase (heap, this) w
  = (Normal (at_ (LessonEngine.phrases lesson) (LessonEngine.currentPhraseIndex this)),
     (heap,
      LessonEngine.mk (LessonEngine.lessons this) (LessonEngine.currentLesson this)
        ((LessonEngine.currentPhraseIndex this + 1)
           mod List.length (LessonEngine.phrases lesson))%nat
        (LessonEngine.practiceAttempts this) (LessonEngine.lessonProgress this)),
     w).
Proof.
  intros Hl Hne. destruct this as [lessons cur idx att ref].
  cbn [LessonEngine.lessons LessonEngine.currentLesson LessonEngine.currentPhraseIndex
       LessonEngine.practiceAttempts LessonEngine.lessonProgress] in *.
  run_lessons. rewrite Hl.
  destruct (LessonEngine.phrases lesson) as [|phrase phrases]; [contradiction|].
  reflexivity.
Qed.

Lemma nextPhrases_run (n : nat) :
  forall (heap : LessonEngine.Heap) (this : LessonEngine.t) (w : World)
         (lesson : LessonEngine.Lesson),
    getProp (LessonEngine.lessons this) (LessonEngine.currentLesson this)
    = Some lesson ->
    (LessonEngine.currentPhraseIndex this
     < List.length (LessonEngine.phrases lesson))%nat ->
    let phrases := LessonEngine.phrases lesson in
    let i := LessonEngine.currentPhraseIndex this in
    nextPhrases n (heap, this, w)
    = map (fun k => Normal (Just (nth ((i + k) mod List.length phrases) phrases [])))
          (seq 0 n)
    /\ Nat.iter n (after LessonEngine.getNextPhrase) (heap, this, w)
       = (heap,
          LessonEngine.mk (LessonEngine.lessons this) (LessonEngine.currentLesson this)
            ((i + n) mod List.length phrases)%nat
            (LessonEngine.practiceAttempts this) (LessonEngine.lessonProgress this),
          w).
Proof.
  induction n as [|n IH]; intros heap this w lesson Hl Hi; cbv zeta.
  - simpl. rewrite Nat.add_0_r, Nat.mod_small by exact Hi. now destruct this.
  - assert (Hne : LessonEngine.phrases lesson <> []).
    { intros E. rewrite E in Hi. simpl in Hi. lia. }
    assert (Hlen : List.length (LessonEngine.phrases lesson) <> O) by lia.
    simpl nextPhrases. unfold after at 1. cbn [fst snd].
    rewrite (getNextPhrase_run heap this w lesson Hl Hne). cbn [fst snd].
    set (this1 := LessonEngine.mk _ _ _ _ _).
    destruct (IH heap this1 w lesson Hl) as (IH1 & IH2).
    { unfold this1. cbn. now apply Nat.mod_upper_bound. }
    cbv zeta in IH1, IH2. split.
    + rewrite IH1. cbn [seq map]. f_equal.
      * rewrite Nat.add_0_r, (Nat.mod_small _ _ Hi).
        now rewrite (at_in_range (LessonEngine.phrases lesson) _ [] Hi).
      * rewrite <- seq_shift, map_map. apply map_ext. intros k.
        unfold this1. cbn [LessonEngine.currentPhraseIndex].
        rewrite Nat.Div0.add_mod_idemp_l.
        now replace (LessonEngine.currentPhraseIndex this + 1 + k)%nat
          with (LessonEngine.currentPhraseIndex this + S k)%nat by lia.
    + rewrite Nat.iter_succ_r. unfold after at 2. cbn [fst snd].
      rewrite (getNextPhrase_run heap this w lesson Hl Hne). fold this1.
      rewrite IH2. unfold this1. cbn. rewrite Nat.Div0.add_mod_idemp_l.
      now replace (LessonEngine.currentPhraseIndex this + 1 + n)%nat
        with (LessonEngine.currentPhraseIndex this + S n)%nat by lia.
Qed.

(** X25.  [getNextPhrase] goes round the phrases of the current lesson: from a
    cursor inside the list, the call number [k] returns the phrase at
    position cursor + [k] modulo the length, never [undefined]; the cursor
    stays inside the list, and after as many calls as there are phrases it
    is where it was, with nothing else changed. *)
Theorem getNextPhrase_goes_round_the_lesson (n : nat)
    (heap : LessonEngine.Heap) (this : LessonEngine.t) (w : World)
    (lesson : LessonEngine.Lesson) :
  getProp (LessonEngine.lessons this) (LessonEngine.currentLesson this) = Some lesson ->
  (LessonEngine.currentPhraseIndex this
   < List.length (LessonEngine.phrases lesson))%nat ->
  let phrases := LessonEngine.phrases lesson in
  let i := LessonEngine.currentPhraseIndex this in
  nextPhrases n (heap, this, w)
  = map (fun k => Normal (Just (nth ((i + k) mod List.length phrases) phrases [])))
        (seq 0 n)
  /\ Nat.iter n (after LessonEngine.getNextPhrase) (heap, this, w)
     = (heap,
        LessonEngine.mk (LessonEngine.lessons this) (LessonEngine.currentLesson this)
          ((i + n) mod List.length phrases)%nat
          (LessonEngine.practiceAttempts this) (LessonEngine.lessonProgress this),
        w)
  /\ Nat.iter (List.length phrases) (after LessonEngine.getNextPhrase) (heap, this, w)
     = (heap, this, w).
Proof.
  intros Hl Hi. cbv zeta.
  destruct (nextPhrases_run n heap this w lesson Hl Hi) as (H1 & H2).
  destruct (nextPhrases_run (List.length (LessonEngine.phrases lesson)) heap this w
              lesson Hl Hi) as (_ & H3).
  cbv zeta in *. split; [exact H1|]. split; [exact H2|].
  rewrite H3. rewrite <- (Nat.mul_1_l (List.length (LessonEngine.phrases lesson))) at 1.
  rewrite Nat.Div0.mod_add, Nat.mod_small by exact Hi. now destruct this.
Qed.

(** One attempt: the count of attempts grows; a successful one adds one
    to the phrases completed of the current lesson and completes the
    lesson when they reach its total. *)
Lemma recordAttempt_run (successful : bool) (heap : LessonEngine.Heap)
    (this : LessonEngine.t) (w : World) (p : LessonEngine.Progress) :
  (LessonEngine.lessonProgress this < List.length heap)%nat ->
  progressOf (heap, this) (LessonEngine.currentLesson this) = Some p ->
  exists w',
    after (LessonEngine.recordAttempt successful) (heap, this, w)
    = ((if successful then
          LessonEngine.store heap (LessonEngine.lessonProgress this)
            (setProp (LessonEngine.deref heap (LessonEngine.lessonProgress this))
               (LessonEngine.currentLesson this)
               (LessonEngine.mkProgress
                  (LessonEngine.started p)
                  (LessonEngine.completed p
                   || (LessonEngine.totalPhrases p
                       <=? LessonEngine.phrasesCompleted p + 1)%nat)
                  (LessonEngine.phrasesCompleted p + 1)
                  (LessonEngine.totalPhrases p)
                  (LessonEngine.lastAccessed p)))
        else heap,
        LessonEngine.mk (LessonEngine.lessons this) (LessonEngine.currentLesson this)
          (LessonEngine.currentPhraseIndex this)
          (LessonEngine.practiceAttempts this + 1)
          (LessonEngine.lessonProgress this)),
       w').
Proof.
  destruct this as [lessons cur idx att ref].
  cbn [LessonEngine.lessons LessonEngine.currentLesson LessonEngine.currentPhraseIndex
       LessonEngine.practiceAttempts LessonEngine.lessonProgress].
  intros Href Hp. unfold progressOf, progressObject in Hp. cbn [fst snd] in Hp.
  cbn [LessonEngine.lessonProgress] in Hp.
  unfold after. cbn [fst snd]. run_lessons.
  destruct successful; [|eexists; reflexivity].
  rewrite Hp. run_lessons.
  cbn [LessonEngine.started LessonEngine.completed LessonEngine.phrasesCompleted
       LessonEngine.totalPhrases LessonEngine.lastAccessed].
  destruct (LessonEngine.totalPhrases p <=? LessonEngine.phrasesCompleted p + 1)%nat;
    run_lessons.
  - rewrite store_store, orb_true_r. eexists; reflexivity.
  - rewrite orb_false_r. eexists; reflexivity.
Qed.

Lemma recordAttempts_run (outcomes : list bool) :
  forall (heap : LessonEngine.Heap) (this : LessonEngine.t) (w : World)
         (p : LessonEngine.Progress),
    (LessonEngine.lessonProgress this < List.length heap)%nat ->
    progressOf (heap, this) (LessonEngine.currentLesson this) = Some p ->
    let s' := fst (recordAttempts outcomes (heap, this, w)) in
    let successes := count_occ bool_dec outcomes true in
    snd s'
    = LessonEngine.mk (LessonEngine.lessons this) (LessonEngine.currentLesson this)
        (LessonEngine.currentPhraseIndex this)
        (LessonEngine.practiceAttempts this + List.length outcomes)
        (LessonEngine.lessonProgress this)
    /\ progressOf s' (LessonEngine.currentLesson this)
       = Some (LessonEngine.mkProgress
                 (LessonEngine.started p)
                 (LessonEngine.completed p
                  || ((0 <? successes)
                      && (LessonEngine.totalPhrases p
                          <=? LessonEngine.phrasesCompleted p + successes))%nat)
                 (LessonEngine.phrasesCompleted p + successes)
                 (LessonEngine.totalPhrases p)
                 (LessonEngine.lastAccessed p))
    /\ forall other,
         keyName other <> keyName (LessonEngine.currentLesson this) ->
         progressOf s' other = progressOf (heap, this) other.
Proof.
  induction outcomes as [|successful outcomes IH]; intros heap this w p Href Hp;
    cbv zeta.
  - simpl. rewrite ?Nat.add_0_r, ?andb_false_l, ?orb_false_r.
    destruct this, p. auto.
  - change (recordAttempts (successful :: outcomes) (heap, this, w))
      with (recordAttempts outcomes
              (after (LessonEngine.recordAttempt successful) (heap, this, w))).
    destruct (recordAttempt_run successful heap this w p Href Hp) as (w' & ->).
    set (heap1 := if successful then _ else heap).
    set (this1 := LessonEngine.mk _ _ _ _ _).
    set (p1 := if successful
               then LessonEngine.mkProgress
                      (LessonEngine.started p)
                      (LessonEngine.completed p
                       || (LessonEngine.totalPhrases p
                           <=? LessonEngine.phrasesCompleted p + 1)%nat)
                      (LessonEngine.phrasesCompleted p + 1)
                      (LessonEngine.totalPhrases p)
                      (LessonEngine.lastAccessed p)
               else p).
    assert (Href1 : (LessonEngine.lessonProgress this1 < List.length heap1)%nat).
    { unfold heap1, this1. cbn. destruct successful; [now rewrite length_store|exact Href]. }
    assert (Hp1 : progressOf (heap1, this1) (LessonEngine.currentLesson this1) = Some p1).
    { unfold progressOf, progressObject, heap1, this1, p1.
      cbn [fst snd LessonEngine.lessonProgress LessonEngine.currentLesson].
      destruct successful; [|exact Hp].
      rewrite deref_store_same by exact Href. apply getProp_setProp_same. }
    assert (Hother : forall other,
               keyName other <> keyName (LessonEngine.currentLesson this) ->
               progressOf (heap1, this1) other = progressOf (heap, this) other).
    { intros other Hne. unfold progressOf, progressObject, heap1, this1.
      cbn [fst snd LessonEngine.lessonProgress LessonEngine.currentLesson].
      destruct successful; [|reflexivity].
      rewrite deref_store_same by exact Href. now apply getProp_setProp_other. }
    destruct (IH heap1 this1 w' p1 Href1 Hp1) as (H1 & H2 & H3). cbv zeta in *.
    unfold this1 in *.
    cbn [LessonEngine.lessons LessonEngine.currentLesson LessonEngine.currentPhraseIndex
         LessonEngine.practiceAttempts LessonEngine.lessonProgress] in *.
    split; [|split].
    + rewrite H1. cbn [List.length]. f_equal. lia.
    + rewrite H2. unfold p1.
      destruct successful; cbn [count_occ]; [|reflexivity].
      destruct (bool_dec true true) as [_|Hne]; [|congruence].
      cbn [LessonEngine.started LessonEngine.completed LessonEngine.phrasesCompleted
           LessonEngine.totalPhrases LessonEngine.lastAccessed].
      set (n := count_occ bool_dec outcomes true).
      replace (LessonEngine.phrasesCompleted p + 1 + n)%nat
        with (LessonEngine.phrasesCompleted p + S n)%nat by lia.
      f_equal. f_equal.
      destruct (LessonEngine.completed p); [reflexivity|]. cbn [orb].
      destruct (Nat.leb_spec (LessonEngine.totalPhrases p)
                  (LessonEngine.phrasesCompleted p + 1));
        destruct (Nat.leb_spec (LessonEngine.totalPhrases p)
                    (LessonEngine.phrasesCompleted p + S n));
        destruct (Nat.ltb_spec 0 n); cbn; try reflexivity; try lia.
    + intros other Hne. rewrite H3 by exact Hne. now apply Hother.
Qed.

(** X26.  Attempts recorded one after the other, in a lesson the progress
    object has an entry for: every attempt is counted; the phrases
    completed grow by the number of successful attempts, whatever was said
    (they can pass the total); the lesson is completed from the successful
    attempt on that brings them to the total, and stays so; the progress of
    the other lessons is not touched. *)
Theorem recordAttempt_counts_the_successes (outcomes : list bool)
    (s : LessonEngine.Heap * LessonEngine.t) (w : World)
    (p : LessonEngine.Progress) :
  allocated s ->
  progressOf s (LessonEngine.currentLesson (snd s)) = Some p ->
  let s' := fst (recordAttempts outcomes (s, w)) in
  let successes := count_occ bool_dec outcomes true in
  snd s'
  = LessonEngine.mk (LessonEngine.lessons (snd s)) (LessonEngine.currentLesson (snd s))
      (LessonEngine.currentPhraseIndex (snd s))
      (LessonEngine.practiceAttempts (snd s) + List.length outcomes)
      (LessonEngine.lessonProgress (snd s))
  /\ progressOf s' (LessonEngine.currentLesson (snd s))
     = Some (LessonEngine.mkProgress
               (LessonEngine.started p)
               (LessonEngine.completed p
                || ((0 <? successes)
                    && (LessonEngine.totalPhrases p
                        <=? LessonEngine.phrasesCompleted p + successes))%nat)
               (LessonEngine.phrasesCompleted p + successes)
               (LessonEngine.totalPhrases p)
               (LessonEngine.lastAccessed p))
  /\ forall other,
       keyName other <> keyName (LessonEngine.currentLesson (snd s)) ->
       progressOf s' other = progressOf s other.
Proof.
  destruct s as [heap this]. intros Href Hp.
  exact (recordAttempts_run outcomes heap this w p Href Hp).
Qed.

(** Practice does not replace the progress object: the engine holds the
    reference it held, and the heap is as long as it was. *)
Lemma practise_keeps_the_object (p : Practice)
    (s : LessonEngine.Heap * LessonEngine.t) (w : World) :
  let s' := fst (after (practise p) (s, w)) in
  LessonEngine.lessonProgress (snd s') = LessonEngine.lessonProgress (snd s)
  /\ LessonEngine.lessons (snd s') = LessonEngine.lessons (snd s)
  /\ List.length (fst s') = List.length (fst s).
Proof.
  destruct s as [heap [lessons cur idx att ref]].
  destruct p as [successful|lessonKey|lessonKey|]; unfold after, practise;
    cbn [fst snd]; run_lessons;
    repeat match goal with
      | |- context [match ?x with _ => _ end] =>
          lazymatch x with
          | context [match _ with _ => _ end] => fail
          | _ => destruct x eqn:?
          end; run_lessons
      end;
    rewrite ?length_store; auto.
Qed.

Lemma practiseAll_keeps_the_object (ps : list Practice) :
  forall (s : LessonEngine.Heap * LessonEngine.t) (w : World),
    let s' := fst (practiseAll ps (s, w)) in
    LessonEngine.lessonProgress (snd s') = LessonEngine.lessonProgress (snd s)
    /\ LessonEngine.lessons (snd s') = LessonEngine.lessons (snd s)
    /\ List.length (fst s') = List.length (fst s).
Proof.
  induction ps as [|p ps IH]; intros s w; cbv zeta; [auto|].
  change (practiseAll (p :: ps) (s, w))
    with (practiseAll ps (after (practise p) (s, w))).
  destruct (practise_keeps_the_object p s w) as (H1 & H2 & H3). cbv zeta in *.
  destruct (after (practise p) (s, w)) as [s1 w1]. cbn [fst] in *.
  destruct (IH s1 w1) as (H4 & H5 & H6). cbv zeta in *.
  repeat split; congruence.
Qed.

(** X27.  [exportProgress] hands out the progress object itself, not a copy: the
    data exported and the engine share it.  So [importProgress] of data
    exported earlier does not bring the earlier progress back: after any
    practice in between (attempts, switches of lesson, resets of one
    lesson, phrases asked for), the import leaves the heap as it is and the
    engine with the progress object it had, with whatever the practice has
    written into it. *)
Theorem importProgress_does_not_undo_the_practice (ps : list Practice)
    (s : LessonEngine.Heap * LessonEngine.t) (w : World) :
  let '(r0, s0, w0) := LessonEngine.exportProgress s w in
  exists data,
    r0 = Normal data /\ s0 = s /\ w0 = w
    /\ LessonEngine.dataLessonProgress data
       = Some (LessonEngine.lessonProgress (snd s))
    /\ let s1 := fst (practiseAll ps (s, w)) in
       let w1 := snd (practiseAll ps (s, w)) in
       let '(r2, s2, w2) := LessonEngine.importProgress data s1 w1 in
       r2 = Normal tt
       /\ fst s2 = fst s1
       /\ LessonEngine.lessonProgress (snd s2) = LessonEngine.lessonProgress (snd s1)
       /\ forall lessonKey, progressOf s2 lessonKey = progressOf s1 lessonKey.
Proof.
  destruct (practiseAll_keeps_the_object ps s w) as (Href & _). cbv zeta in Href.
  destruct s as [heap [lessons cur idx att ref]].
  cbn [snd LessonEngine.lessonProgress] in Href.
  run_lessons. eexists. repeat (split; [reflexivity|]).
  destruct (practiseAll ps (heap, LessonEngine.mk lessons cur idx att ref, w))
    as [[heap1 [lessons1 cur1 idx1 att1 ref1]] w1].
  cbn [fst snd LessonEngine.lessonProgress] in *. subst ref1.
  run_lessons.
  cbn [LessonEngine.dataCurrentLesson LessonEngine.dataLessonProgress].
  destruct (negb (String.eqb (keyName cur) EmptyString)
            && match getProp lessons1 cur with Some _ => true | None => false end);
    run_lessons; repeat split; reflexivity.
Qed.

Lemma getProp_key_listed {A} (obj : list (Key * A)) (key : Key) :
  In key (map fst obj) -> getProp obj key <> None.
Proof.
  induction obj as [|[k a] obj IH]; simpl; [tauto|].
  intros [<-|H]; [now rewrite String.eqb_refl|].
  destruct (String.eqb (keyName k) (keyName key)); [discriminate|auto].
Qed.

(** [initializeProgress] fills the new object: for every key listed, the
    untouched progress of the lesson of that key. *)
Lemma freshProgress_run (lessons : list (Key * LessonEngine.Lesson)) (keys : list Key) :
  forall progress,
    (forall key, In key keys -> getProp lessons key <> None) ->
    exists progress',
      LessonEngine.freshProgress lessons keys progress = Normal progress'
      /\ forall key,
           getProp progress' key
           = if existsb (fun k => String.eqb (keyName k) (keyName key)) keys
             then option_map LessonEngine.untouched (getProp lessons key)
             else getProp progress key.
Proof.
  induction keys as [|k keys IH]; intros progress Hall; simpl.
  - now exists progress.
  - destruct (getProp lessons k) as [lesson|] eqn:El.
    2: { exfalso. apply (Hall k); [now left|exact El]. }
    destruct (IH (setProp progress k (LessonEngine.untouched lesson)))
      as (progress' & -> & H).
    { intros key Hin. apply Hall. now right. }
    exists progress'. split; [reflexivity|]. intros key. rewrite H.
    destruct (existsb _ keys) eqn:Ee; [now rewrite orb_true_r|].
    rewrite orb_false_r.
    destruct (String.eqb_spec (keyName k) (keyName key)) as [E|E].
    + assert (Hg : forall {A} (obj : list (Key * A)), getProp obj key = getProp obj k).
      { intros A obj. induction obj as [|[k' a] obj IHo]; simpl; [reflexivity|].
        now rewrite E, IHo. }
      rewrite !Hg, getProp_setProp_same, El. reflexivity.
    + apply getProp_setProp_other. congruence.
Qed.

Lemma deref_app (heap : LessonEngine.Heap) (o : LessonEngine.ProgressObject)
    (r : LessonEngine.Ref) :
  LessonEngine.deref (heap ++ [o]) r
  = if (r <? List.length heap)%nat then LessonEngine.deref heap r
    else if (r =? List.length heap)%nat then o else [].
Proof.
  unfold LessonEngine.deref.
  destruct (Nat.ltb_spec r (List.length heap)) as [H|H].
  - now apply app_nth1.
  - rewrite app_nth2 by exact H.
    destruct (Nat.eqb_spec r (List.length heap)) as [->|Hne].
    + now rewrite Nat.sub_diag.
    + destruct (r - List.length heap)%nat as [|[|n]] eqn:E; [lia|reflexivity|reflexivity].
Qed.

(** X28.  [resetAllProgress] makes a new progress object, in which every lesson
    is untouched, and leaves the old one as it is; the cursor and the count
    of attempts are back at 0.  Data exported before the reset still hold
    the old object: importing them afterwards brings back the progress
    there was before the reset. *)
Theorem importProgress_after_resetAllProgress_restores
    (s : LessonEngine.Heap * LessonEngine.t) (w : World) :
  allocated s ->
  let '(r0, _, _) := LessonEngine.exportProgress s w in
  exists data,
    r0 = Normal data
    /\ let '(r1, s1, w1) := LessonEngine.resetAllProgress s w in
       r1 = Normal tt
       /\ snd s1 = LessonEngine.mk (LessonEngine.lessons (snd s))
                     (LessonEngine.currentLesson (snd s)) 0 0 (List.length (fst s))
       /\ (forall lessonKey,
              progressOf s1 lessonKey
              = option_map LessonEngine.untouched
                  (getProp (LessonEngine.lessons (snd s)) lessonKey))
       /\ let '(r2, s2, w2) := LessonEngine.importProgress data s1 w1 in
          r2 = Normal tt
          /\ LessonEngine.lessonProgress (snd s2) = LessonEngine.lessonProgress (snd s)
          /\ progressObject s2 = progressObject s.
Proof.
  destruct s as [heap [lessons cur idx att ref]]. unfold allocated.
  cbn [fst snd LessonEngine.lessonProgress]. intros Href.
  destruct (freshProgress_run lessons (map fst lessons) [])
    as (progress & Ef & Hfresh).
  { intros key. apply getProp_key_listed. }
  run_lessons. eexists. split; [reflexivity|].
  cbv delta [fst] in Ef. rewrite Ef. run_lessons.
  split; [reflexivity|]. split; [reflexivity|]. split.
  - intros lessonKey. rewrite deref_app, Nat.ltb_irrefl, Nat.eqb_refl, Hfresh.
    destruct (existsb _ (map fst lessons)) eqn:Ee; [reflexivity|].
    simpl. destruct (getProp lessons lessonKey) eqn:El; [exfalso|reflexivity].
    assert (Hex : existsb (fun k => String.eqb (keyName k) (keyName lessonKey))
                    (map fst lessons) = true).
    { clear - El. induction lessons as [|[k a] lessons IH]; simpl in *; [discriminate|].
      destruct (String.eqb (keyName k) (keyName lessonKey)); [reflexivity|auto]. }
    congruence.
  - cbn [LessonEngine.dataCurrentLesson LessonEngine.dataLessonProgress].
    destruct (negb (String.eqb (keyName cur) EmptyString)
              && match getProp lessons cur with Some _ => true | None => false end);
      run_lessons; (split; [reflexivity|]); (split; [reflexivity|]);
      rewrite deref_app; apply Nat.ltb_lt in Href; now rewrite Href.
Qed.

(** * The application answers a transcript *)

(** X29.  When a phrase of the current lesson has no entry for the language
    learnt, [handleTranscript] throws the [TypeError] of the analysis
    before it records the attempt and before it speaks: the voice engine
    and its state manager are not called, so the phase stays what it was
    (PROCESSING, when the transcript came from the engine), no capability
    is asked for anything, and the lesson engine is as it was. *)
Theorem handleTranscript_stalls_without_a_translation
    (toLowerCase : string -> string) (encouragementDraw promptDraw : nat)
    (transcript : string) (confidence : Q) (app : Application.t) (w : World)
    (lesson : LessonEngine.Lesson) :
  getProp (LessonEngine.lessons (Application.lessonEngine app))
          (LessonEngine.currentLesson (Application.lessonEngine app))
  = Some lesson ->
  (exists phrase,
      In phrase (LessonEngine.phrases lesson)
      /\ prop phrase (LanguageEngine.learningLanguage (Application.languageEngine app))
         = None) ->
  let '(r, app', w') :=
    Application.handleTranscript toLowerCase encouragementDraw promptDraw transcript
      confidence app w in
  r = Abrupt (VError "TypeError"
                "Cannot read properties of undefined (reading 'toLowerCase')")
  /\ Application.voiceEngine app' = Application.voiceEngine app
  /\ Application.lessonEngine app' = Application.lessonEngine app
  /\ Application.heap app' = Application.heap app
  /\ filter isCapabilityCall (emitted w w') = []
  /\ calls (emitted w w') = [].
Proof.
  intros Hl Hbad.
  unfold Application.handleTranscript. cbv zeta.
  unfold bind at 1. unfold get at 1. unfold bind at 1.
  unfold Application.onLanguageEngine at 1.
  rewrite analyzeAndRespond_run. cbv zeta.
  assert (Hc : LanguageEngine.expectedPhrases
                 (LessonEngine.getContext (Application.lessonEngine app))
               = Some (LessonEngine.phrases lesson)).
  { unfold LessonEngine.getContext, LessonEngine.getLessonPhrases,
      LessonEngine.getCurrentLesson, LessonEngine.getLesson.
    cbn [LanguageEngine.expectedPhrases]. now rewrite Hl. }
  rewrite Hc.
  destruct (LessonEngine.phrases lesson) as [|phrase phrases] eqn:Ep.
  { destruct Hbad as (bad & [] & _). }
  unfold LanguageEngine.checkAgainstExpected. cbv zeta.
  cbn [LanguageEngine.learningLanguage].
  rewrite (closestMatch_throws toLowerCase _ _ _ Hbad).
  rewrite emitted_addEvents. repeat split; reflexivity.
Qed.

Lemma recordAttempt_returns (successful : bool) (heap : LessonEngine.Heap)
    (this : LessonEngine.t) (w : World) :
  progressOf (heap, this) (LessonEngine.currentLesson this) <> None ->
  exists heap' evs,
    LessonEngine.recordAttempt successful (heap, this) w
    = (Normal tt,
       (heap',
        LessonEngine.mk (LessonEngine.lessons this) (LessonEngine.currentLesson this)
          (LessonEngine.currentPhraseIndex this)
          (LessonEngine.practiceAttempts this + 1)
          (LessonEngine.lessonProgress this)),
       addEvents w evs)
    /\ Forall managerEvent evs.
Proof.
  destruct this as [lessons cur idx att ref].
  cbn [LessonEngine.lessons LessonEngine.currentLesson LessonEngine.currentPhraseIndex
       LessonEngine.practiceAttempts LessonEngine.lessonProgress].
  unfold progressOf, progressObject. cbn [fst snd LessonEngine.lessonProgress].
  intros Hp. run_lessons.
  destruct successful.
  2: { exists heap, []. rewrite addEvents_nil. split; [reflexivity|constructor]. }
  destruct (getProp (LessonEngine.deref heap ref) cur) as [p|]; [|contradiction].
  run_lessons.
  cbn [LessonEngine.started LessonEngine.completed LessonEngine.phrasesCompleted
       LessonEngine.totalPhrases LessonEngine.lastAccessed].
  destruct (LessonEngine.totalPhrases p <=? LessonEngine.phrasesCompleted p + 1)%nat;
    run_lessons.
  - eexists; eexists. split; [reflexivity|]. repeat constructor.
  - eexists; exists []. rewrite addEvents_nil. split; [reflexivity|constructor].
Qed.

(** X30.  A transcript answered.  When the voice engine is in PROCESSING with
    the rendering capability at hand, the analysis returns a response and
    the progress object has an entry for the current lesson, then
    [handleTranscript] records the attempt and hands the formatted response
    to the rendering capability, in the engine's synthesis language, as
    the last thing it does: the phase is SPEAKING, the input is in the
    history of the language engine, and the attempt is counted. *)
Theorem handleTranscript_speaks_the_formatted_response
    (toLowerCase : string -> string) (encouragementDraw promptDraw : nat)
    (transcript : string) (confidence : Q) (app : Application.t) (w : World)
    (response : LanguageEngine.Response) :
  StateManager.currentState (VoiceEngine.stateManager (Application.voiceEngine app))
  = "PROCESSING" ->
  VoiceEngine.synthesisAvailable (Application.voiceEngine app) = true ->
  (forall f,
      In f (StateManager.listeners
              (VoiceEngine.stateManager (Application.voiceEngine app))) ->
      safe w f) ->
  progressOf (Application.heap app, Application.lessonEngine app)
             (LessonEngine.currentLesson (Application.lessonEngine app)) <> None ->
  fst (fst (LanguageEngine.analyzeAndRespond toLowerCase encouragementDraw promptDraw
              transcript (LessonEngine.getContext (Application.lessonEngine app))
              (Application.languageEngine app) w))
  = Normal response ->
  let '(r, app', w') :=
    Application.handleTranscript toLowerCase encouragementDraw promptDraw transcript
      confidence app w in
  r = Normal tt
  /\ phase (Application.voiceEngine app', w') = "SPEAKING"
  /\ render w' = Rendering
  /\ (exists before,
        emitted w w'
        = before
            ++ [SynthesisSpeak (LanguageEngine.formatResponse response)
                  (VoiceEngine.synthesisLang (Application.voiceEngine app))]
        /\ Forall notSpeak before)
  /\ LessonEngine.practiceAttempts (Application.lessonEngine app')
     = (LessonEngine.practiceAttempts (Application.lessonEngine app) + 1)%nat
  /\ LanguageEngine.conversationHistory (Application.languageEngine app')
     = LanguageEngine.conversationHistory (Application.languageEngine app)
         ++ [LanguageEngine.mkEntry (trim (toLowerCase transcript)) (clock w)].
Proof.
  intros Hp Hs Hsafe Hprog Hresp.
  destruct app as [voice language lessons heap].
  cbn [Application.voiceEngine Application.languageEngine Application.lessonEngine
       Application.heap] in *.
  unfold Application.handleTranscript. cbv zeta.
  unfold bind at 1. unfold get at 1. unfold bind at 1.
  unfold Application.onLanguageEngine at 1.
  cbn [Application.voiceEngine Application.languageEngine Application.lessonEngine
       Application.heap].
  rewrite analyzeAndRespond_run in *. cbv zeta in *.
  destruct (match LanguageEngine.expectedPhrases (LessonEngine.getContext lessons) with
            | Some (phrase :: phrases) => _
            | _ => _
            end) as [response0|v]; [|discriminate].
  cbn [fst] in Hresp. injection Hresp as Hresp. rewrite Hresp.
  unfold bind at 1. unfold Application.onLessonEngine at 1.
  cbn [Application.voiceEngine Application.languageEngine Application.lessonEngine
       Application.heap].
  destruct (recordAttempt_returns (Qgt_bool confidence (7 # 10)) heap lessons
              (addEvents w
                 [Console Info "[LanguageEngine]" (toLocaleTimeString (clock w))
                    ("Analyzing: " ++ dquote ++ transcript ++ dquote)]) Hprog)
    as (heap' & evs & -> & Hm).
  rewrite addEvents_app.
  unfold Application.onVoiceEngine, LinguaBridgeApp.handleTranscript,
    LinguaBridgeApp.speakResponse, bind.
  cbn [Application.voiceEngine Application.languageEngine Application.lessonEngine
       Application.heap].
  pose proof (speak_in_turn (LanguageEngine.formatResponse response) None voice
                (addEvents w
                   ([Console Info "[LanguageEngine]" (toLocaleTimeString (clock w))
                       ("Analyzing: " ++ dquote ++ transcript ++ dquote)] ++ evs))
                Hp Hs) as H.
  destruct (VoiceEngine.speak _ None voice _) as [[r e'] w'].
  destruct H as (-> & -> & Hr & _ & before & Ht & Hns & _).
  { intros f Hf. apply safe_addEvents. now apply Hsafe. }
  unfold ret. cbn [Application.voiceEngine Application.languageEngine
                   Application.lessonEngine Application.heap
                   LessonEngine.practiceAttempts LanguageEngine.conversationHistory].
  split; [reflexivity|]. split; [reflexivity|]. split; [exact Hr|].
  split; [|split; reflexivity].
  exists (([Console Info "[LanguageEngine]" (toLocaleTimeString (clock w))
              ("Analyzing: " ++ dquote ++ transcript ++ dquote)] ++ evs) ++ before).
  split.
  - apply emitted_trace. rewrite Ht. cbn [trace addEvents VoiceEngine.langOrDefault].
    now rewrite <- !app_assoc.
  - apply Forall_app. split; [|exact Hns].
    apply Forall_app. split; [repeat constructor|now apply notSpeak_managerEvent].
Qed.

(** * The further theorems at concrete inputs *)

(** [forceTransition_commits_without_the_table] at a concrete input. *)
Lemma forceTransition_commits_without_the_table_witness :
  let q := Speaking in
  let sm := StateManager.mk "IDLE" [1; 2]%nat true in
  let w := freshWorld 0 (throwsError 1%nat) in
  ((forall f, In f (StateManager.listeners sm) -> safe w f))
  /\
  (let '(r, sm', w') := StateManager.forceTransition (phaseName q) sm w in
   r = Normal tt
   /\ sm' = StateManager.mk (phaseName q) (StateManager.listeners sm)
                            (StateManager.debugMode sm)
   /\ extends w w'
   /\ notifications w w'
      = map (notification (StateManager.currentState sm) (phaseName q))
            (StateManager.listeners sm)).
Proof.
  intros q sm w.
  assert (H0 : (forall f, In f (StateManager.listeners sm) -> safe w f)).
  { intros f _ history args. unfold w, freshWorld, throwsError. simpl.
    destruct (Nat.eqb f 1); reflexivity. }
  split; [exact H0|].
  exact (forceTransition_commits_without_the_table q sm w H0).
Defined.

(** [forceTransition_ignores_unknown_names] at a concrete input. *)
Lemma forceTransition_ignores_unknown_names_witness :
  let newState := "PAUSED" in
  let sm := StateManager.mk "LISTENING" [1]%nat true in
  let w := freshWorld 0 quiet in
  (~ In newState ["IDLE"; "LISTENING"; "PROCESSING"; "SPEAKING"])
  /\
  (~ In newState objectPrototypeKeys)
  /\
  (let '(r, sm', w') := StateManager.forceTransition newState sm w in
   r = Normal tt
   /\ sm' = sm
   /\ extends w w'
   /\ notifications w w' = []
   /\ (StateManager.debugMode sm = true ->
       emitted w w'
       = [Console Error "[StateManager]" (toLocaleTimeString (clock w))
            ("ERROR: Cannot force transition to invalid state "
               ++ dquote ++ newState ++ dquote)])).
Proof.
  intros newState sm w.
  assert (H0 : ~ In newState ["IDLE"; "LISTENING"; "PROCESSING"; "SPEAKING"]).
  { simpl. intuition discriminate. }
  assert (H1 : ~ In newState objectPrototypeKeys).
  { simpl. intuition discriminate. }
  split; [exact H0|].
  split; [exact H1|].
  exact (forceTransition_ignores_unknown_names newState sm w H0 H1).
Defined.

(** [forceTransition_accepts_prototype_names] at a concrete input. *)
Lemma forceTransition_accepts_prototype_names_witness :
  let key := "toString" in
  let sm := StateManager.mk "LISTENING" [1]%nat true in
  let w := freshWorld 0 quiet in
  (In key objectPrototypeKeys)
  /\
  (let '(r, sm', w') := StateManager.forceTransition key sm w in
   sm' = StateManager.mk key (StateManager.listeners sm) (StateManager.debugMode sm)
   /\ (forall (q : Phase) (w'' : World),
         StateManager.transition (phaseName q) sm' w''
         = (Abrupt (VError "TypeError" "allowedTransitions.includes is not a function"),
            sm', w''))
   /\ (forall (target : string) (w'' : World),
         fst (fst (StateManager.transition target sm' w'')) <> Normal true)).
Proof.
  intros key sm w.
  assert (H0 : In key objectPrototypeKeys).
  { simpl. tauto. }
  split; [exact H0|].
  exact (forceTransition_accepts_prototype_names key sm w H0).
Defined.

(** [getInfo_lists_the_granted_transitions] at a concrete input. *)
Lemma getInfo_lists_the_granted_transitions_witness :
  let p := Listening in
  let sm := StateManager.mk "LISTENING" [1; 2]%nat true in
  let w := freshWorld 0 quiet in
  (StateManager.currentState sm = phaseName p)
  /\
  ((forall f, In f (StateManager.listeners sm) -> safe w f))
  /\
  (let '(r, sm', w') := StateManager.getInfo sm w in
   sm' = sm /\ w' = w
   /\ exists info allowed,
        r = Normal info
        /\ StateManager.infoCurrentState info = phaseName p
        /\ StateManager.listenerCount info = List.length (StateManager.listeners sm)
        /\ StateManager.allowedTransitions info = Own allowed
        /\ forall target,
             In target allowed
             <-> fst (fst (StateManager.transition target sm w)) = Normal true).
Proof.
  intros p sm w.
  assert (H0 : StateManager.currentState sm = phaseName p).
  { reflexivity. }
  assert (H1 : (forall f, In f (StateManager.listeners sm) -> safe w f)).
  { intros f _ history args. reflexivity. }
  split; [exact H0|].
  split; [exact H1|].
  exact (getInfo_lists_the_granted_transitions p sm w H0 H1).
Defined.

(** [startListening_opens_a_capture_session] at a concrete input. *)
Lemma startListening_opens_a_capture_session_witness :
  let e := fst (exampleEngine true 0 quiet) in
  let w := snd (exampleEngine true 0 quiet) in
  (StateManager.currentState (VoiceEngine.stateManager e) = "IDLE")
  /\
  (VoiceEngine.recognitionAvailable e = true)
  /\
  (VoiceEngine.recognition e = true)
  /\
  (capture w = CaptureIdle)
  /\
  ((forall f, In f (StateManager.listeners (VoiceEngine.stateManager e)) -> safe w f))
  /\
  (let '(r, e', w') := VoiceEngine.startListening e w in
   r = Normal true
   /\ e' = VoiceEngine.withStateManager
             (StateManager.mk "LISTENING"
                (StateManager.listeners (VoiceEngine.stateManager e))
                (StateManager.debugMode (VoiceEngine.stateManager e))) e
   /\ capture w' = Capturing
   /\ recognition_lang w' = VoiceEngine.recognitionLang e
   /\ render w' = render w
   /\ notifications w w'
      = map (notification "IDLE" "LISTENING")
            (StateManager.listeners (VoiceEngine.stateManager e))
   /\ filter isCapabilityCall (emitted w w')
      = [RecognitionStart (VoiceEngine.recognitionLang e)]).
Proof.
  intros e w.
  assert (H0 : StateManager.currentState (VoiceEngine.stateManager e) = "IDLE").
  { reflexivity. }
  assert (H1 : VoiceEngine.recognitionAvailable e = true).
  { reflexivity. }
  assert (H2 : VoiceEngine.recognition e = true).
  { reflexivity. }
  assert (H3 : capture w = CaptureIdle).
  { reflexivity. }
  assert (H4 : (forall f, In f (StateManager.listeners (VoiceEngine.stateManager e)) -> safe w f)).
  { intros f _ history args. reflexivity. }
  split; [exact H0|].
  split; [exact H1|].
  split; [exact H2|].
  split; [exact H3|].
  split; [exact H4|].
  exact (startListening_opens_a_capture_session e w H0 H1 H2 H3 H4).
Defined.

(** [startListening_gives_up_when_a_session_is_open] at a concrete input. *)
Lemma startListening_gives_up_when_a_session_is_open_witness :
  let e := fst (runActions
      [StartListening; RecognitionResult "hola" (9 # 10); Speak "Muy bien" None;
       UtteranceEnded]
      (exampleEngine true 0 quiet)) in
  let w := snd (runActions
      [StartListening; RecognitionResult "hola" (9 # 10); Speak "Muy bien" None;
       UtteranceEnded]
      (exampleEngine true 0 quiet)) in
  (StateManager.currentState (VoiceEngine.stateManager e) = "IDLE")
  /\
  (VoiceEngine.recognitionAvailable e = true)
  /\
  (VoiceEngine.recognition e = true)
  /\
  (capture w <> CaptureIdle)
  /\
  ((forall f, In f (StateManager.listeners (VoiceEngine.stateManager e)) -> safe w f))
  /\
  (let '(r, e', w') := VoiceEngine.startListening e w in
   r = Normal false
   /\ e' = e
   /\ capture w' = capture w
   /\ render w' = render w
   /\ notifications w w'
      = map (notification "IDLE" "LISTENING")
            (StateManager.listeners (VoiceEngine.stateManager e))
        ++ map (notification "LISTENING" "IDLE")
               (StateManager.listeners (VoiceEngine.stateManager e))
   /\ filter isCapabilityCall (emitted w w') = []).
Proof.
  intros e w.
  assert (H0 : StateManager.currentState (VoiceEngine.stateManager e) = "IDLE").
  { reflexivity. }
  assert (H1 : VoiceEngine.recognitionAvailable e = true).
  { reflexivity. }
  assert (H2 : VoiceEngine.recognition e = true).
  { reflexivity. }
  assert (H3 : capture w <> CaptureIdle).
  { vm_compute. discriminate. }
  assert (H4 : (forall f, In f (StateManager.listeners (VoiceEngine.stateManager e)) -> safe w f)).
  { intros f _ history args. reflexivity. }
  split; [exact H0|].
  split; [exact H1|].
  split; [exact H2|].
  split; [exact H3|].
  split; [exact H4|].
  exact (startListening_gives_up_when_a_session_is_open e w H0 H1 H2 H3 H4).
Defined.

(** [recognition_end_returns_to_idle_from_listening] at a concrete input. *)
Lemma recognition_end_returns_to_idle_from_listening_witness :
  let e := fst (runActions [StartListening] (exampleEngine true 0 quiet)) in
  let w := snd (runActions [StartListening] (exampleEngine true 0 quiet)) in
  ((forall f, In f (StateManager.listeners (VoiceEngine.stateManager e)) -> safe w f))
  /\
  (let '(r, e', w') := VoiceEngine.recognition_onend e w in
   r = Normal tt
   /\ extends w w'
   /\ if String.eqb (StateManager.currentState (VoiceEngine.stateManager e)) "LISTENING"
      then e' = VoiceEngine.withStateManager
                  (StateManager.mk "IDLE"
                     (StateManager.listeners (VoiceEngine.stateManager e))
                     (StateManager.debugMode (VoiceEngine.stateManager e))) e
           /\ notifications w w'
              = map (notification "LISTENING" "IDLE")
                    (StateManager.listeners (VoiceEngine.stateManager e))
      else e' = e /\ notifications w w' = []).
Proof.
  intros e w.
  assert (H0 : (forall f, In f (StateManager.listeners (VoiceEngine.stateManager e)) -> safe w f)).
  { intros f _ history args. reflexivity. }
  split; [exact H0|].
  exact (recognition_end_returns_to_idle_from_listening e w H0).
Defined.

(** [results_outside_listening_are_not_delivered] at a concrete input. *)
Lemma results_outside_listening_are_not_delivered_witness :
  let text := "hola" in
  let confidence := (9 # 10)%Q in
  let e := fst (runActions holaTurn (exampleEngine true 0 quiet)) in
  let w := snd (runActions holaTurn (exampleEngine true 0 quiet)) in
  (StateManager.currentState (VoiceEngine.stateManager e) <> "LISTENING")
  /\
  (let '(r, e', w') := VoiceEngine.recognition_onresult text confidence e w in
   r = Normal tt
   /\ VoiceEngine.stateManager e' = VoiceEngine.stateManager e
   /\ extends w w'
   /\ calls (emitted w w') = []
   /\ VoiceEngine.lastTranscript e' = trim text
   /\ VoiceEngine.onTranscriptCallback e' = VoiceEngine.onTranscriptCallback e).
Proof.
  intros text confidence e w.
  assert (H0 : StateManager.currentState (VoiceEngine.stateManager e) <> "LISTENING").
  { vm_compute. discriminate. }
  split; [exact H0|].
  exact (results_outside_listening_are_not_delivered text confidence e w H0).
Defined.

(** [speak_renders_in_the_language_asked_for] at a concrete input. *)
Lemma speak_renders_in_the_language_asked_for_witness :
  let text := "Muy bien" in
  let lang := Some "es-MX" in
  let e := fst (runActions [StartListening; RecognitionResult "hola" (9 # 10)]
      (exampleEngine true 0 quiet)) in
  let w := snd (runActions [StartListening; RecognitionResult "hola" (9 # 10)]
      (exampleEngine true 0 quiet)) in
  (StateManager.currentState (VoiceEngine.stateManager e) = "PROCESSING")
  /\
  (VoiceEngine.synthesisAvailable e = true)
  /\
  ((forall f, In f (StateManager.listeners (VoiceEngine.stateManager e)) -> safe w f))
  /\
  (let '(r, e', w') := VoiceEngine.speak text lang e w in
   r = Normal Pending
   /\ e' = VoiceEngine.withStateManager
             (StateManager.mk "SPEAKING"
                (StateManager.listeners (VoiceEngine.stateManager e))
                (StateManager.debugMode (VoiceEngine.stateManager e))) e
   /\ render w' = Rendering
   /\ (VoiceEngine.recognition e = true -> capture w' <> Capturing)
   /\ notifications w w'
      = map (notification "PROCESSING" "SPEAKING")
            (StateManager.listeners (VoiceEngine.stateManager e))
   /\ exists before,
        emitted w w'
        = before
            ++ [SynthesisSpeak text
                  match lang with
                  | Some l => if String.eqb l EmptyString
                              then VoiceEngine.synthesisLang e else l
                  | None => VoiceEngine.synthesisLang e
                  end]
        /\ Forall notSpeak before).
Proof.
  intros text lang e w.
  assert (H0 : StateManager.currentState (VoiceEngine.stateManager e) = "PROCESSING").
  { reflexivity. }
  assert (H1 : VoiceEngine.synthesisAvailable e = true).
  { reflexivity. }
  assert (H2 : (forall f, In f (StateManager.listeners (VoiceEngine.stateManager e)) -> safe w f)).
  { intros f _ history args. reflexivity. }
  split; [exact H0|].
  split; [exact H1|].
  split; [exact H2|].
  exact (speak_renders_in_the_language_asked_for text lang e w H0 H1 H2).
Defined.

(** [the_phase_is_always_one_of_the_four] at a concrete input. *)
Lemma the_phase_is_always_one_of_the_four_witness :
  let s := runActions [StartListening; RecognitionResult "hola" (9 # 10)]
      (exampleEngine true 0 quiet) in
  (reachable s)
  /\
  (exists p, phase s = phaseName p).
Proof.
  intros s.
  assert (H0 : reachable s).
  { unfold s, exampleEngine.
    apply reachable_runActions;
      [apply reachable_runActions; [apply reachable_new; reflexivity|]|];
      vm_compute; reflexivity. }
  split; [exact H0|].
  exact (the_phase_is_always_one_of_the_four s H0).
Defined.


(** [checkAgainstExpected_offers_the_closest_phrase] at a concrete input. *)
Lemma checkAgainstExpected_offers_the_closest_phrase_witness :
  let toLowerCase := asciiLowerCase in
  let this := LanguageEngine.mk en es [] in
  let draw := 4%nat in
  let input := "buenos tardes" in
  let expectedPhrases := LessonEngine.getLessonPhrases (snd exampleLessonEngine) in
  let response := responseOf
      (LanguageEngine.checkAgainstExpected asciiLowerCase (LanguageEngine.mk en es [])
         4 "buenos tardes" (LessonEngine.getLessonPhrases (snd exampleLessonEngine))) in
  (LanguageEngine.checkAgainstExpected toLowerCase this draw input expectedPhrases
     = Normal response)
  /\
  (let lang := LanguageEngine.learningLanguage this in
   let similarity target :=
     LanguageEngine.calculateSimilarity input (toLowerCase target) in
   LanguageEngine.type response = "practice"
   /\ match LanguageEngine.correction response with
      | Some correction =>
          (5 # 10 < similarity correction)%Q
          /\ (exists phrase,
                In phrase expectedPhrases /\ prop phrase lang = Some correction)
          /\ forall phrase target,
               In phrase expectedPhrases -> prop phrase lang = Some target ->
               (similarity target <= similarity correction)%Q
      | None =>
          forall phrase target,
            In phrase expectedPhrases -> prop phrase lang = Some target ->
            (similarity target <= 5 # 10)%Q
      end).
Proof.
  intros toLowerCase this draw input expectedPhrases response.
  assert (H0 : LanguageEngine.checkAgainstExpected toLowerCase this draw input expectedPhrases = Normal response).
  { vm_compute. reflexivity. }
  split; [exact H0|].
  exact (checkAgainstExpected_offers_the_closest_phrase toLowerCase this draw input expectedPhrases response H0).
Defined.

(** [an_expected_phrase_said_exactly_is_perfect] at a concrete input. *)
Lemma an_expected_phrase_said_exactly_is_perfect_witness :
  let toLowerCase := asciiLowerCase in
  let this := LanguageEngine.mk en es [] in
  let draw := 4%nat in
  let input := "hola" in
  let expectedPhrases := LessonEngine.getLessonPhrases (snd exampleLessonEngine) in
  ((forall phrase, In phrase expectedPhrases ->
                     prop phrase (LanguageEngine.learningLanguage this) <> None))
  /\
  ((exists phrase target,
         In phrase expectedPhrases
         /\ prop phrase (LanguageEngine.learningLanguage this) = Some target
         /\ toLowerCase target = input))
  /\
  (exists phrase correction,
     In phrase expectedPhrases
     /\ prop phrase (LanguageEngine.learningLanguage this) = Some correction
     /\ (LanguageEngine.calculateSimilarity input (toLowerCase correction) == 1)%Q
     /\ LanguageEngine.checkAgainstExpected toLowerCase this draw input expectedPhrases
        = Normal
            (LanguageEngine.mkResponse
               (Some correction)
               (Some ("Perfect! That's how you say " ++ dquote
                        ++ show (ownProp phrase "text") ++ dquote ++ " in "
                        ++ LanguageEngine.getLanguageName
                             (LanguageEngine.learningLanguage this) ++ ".")%string)
               (LanguageEngine.getRandomEncouragement this draw)
               "practice" None)).
Proof.
  intros toLowerCase this draw input expectedPhrases.
  assert (H0 : (forall phrase, In phrase expectedPhrases -> prop phrase (LanguageEngine.learningLanguage this) <> None)).
  { intros phrase Hin. vm_compute in Hin.
    repeat (destruct Hin as [<-|Hin]; [discriminate|]). destruct Hin. }
  assert (H1 : (exists phrase target, In phrase expectedPhrases /\ prop phrase (LanguageEngine.learningLanguage this) = Some target /\ toLowerCase target = input)).
  { eexists; eexists. split; [left; reflexivity|]. split; reflexivity. }
  split; [exact H0|].
  split; [exact H1|].
  exact (an_expected_phrase_said_exactly_is_perfect toLowerCase this draw input expectedPhrases H0 H1).
Defined.

(** [analyzeAndRespond_throws_without_a_translation] at a concrete input. *)
Lemma analyzeAndRespond_throws_without_a_translation_witness :
  let toLowerCase := asciiLowerCase in
  let encouragementDraw := 4%nat in
  let promptDraw := 1%nat in
  let userInput := "Hello" in
  let context := LessonEngine.getContext (snd exampleLessonEngine) in
  let this := LanguageEngine.mk es en [] in
  let w := freshWorld 0 quiet in
  let expectedPhrases := LessonEngine.getLessonPhrases (snd exampleLessonEngine) in
  (LanguageEngine.expectedPhrases context = Some expectedPhrases)
  /\
  ((exists phrase,
         In phrase expectedPhrases
         /\ prop phrase (LanguageEngine.learningLanguage this) = None))
  /\
  (fst (fst (LanguageEngine.analyzeAndRespond toLowerCase encouragementDraw promptDraw
               userInput context this w))
   = Abrupt (VError "TypeError"
               "Cannot read properties of undefined (reading 'toLowerCase')")).
Proof.
  intros toLowerCase encouragementDraw promptDraw userInput context this w expectedPhrases.
  assert (H0 : LanguageEngine.expectedPhrases context = Some expectedPhrases).
  { reflexivity. }
  assert (H1 : (exists phrase, In phrase expectedPhrases /\ prop phrase (LanguageEngine.learningLanguage this) = None)).
  { eexists. split; [left; reflexivity|reflexivity]. }
  split; [exact H0|].
  split; [exact H1|].
  exact (analyzeAndRespond_throws_without_a_translation toLowerCase encouragementDraw promptDraw userInput context this w expectedPhrases H0 H1).
Defined.


(** [getNextPhrase_goes_round_the_lesson] at a concrete input. *)
Lemma getNextPhrase_goes_round_the_lesson_witness :
  let n := 5%nat in
  let heap := fst exampleLessonEngine in
  let this := snd exampleLessonEngine in
  let w := freshWorld 0 quiet in
  let lesson := LessonEngine.mkLesson "Greetings" "*" "Let's practice greetings."
      (LessonEngine.getLessonPhrases (snd exampleLessonEngine)) ["Say hello!"; "Say goodbye!"] in
  (getProp (LessonEngine.lessons this) (LessonEngine.currentLesson this) = Some lesson)
  /\
  ((LessonEngine.currentPhraseIndex this
      < List.length (LessonEngine.phrases lesson))%nat)
  /\
  (let phrases := LessonEngine.phrases lesson in
   let i := LessonEngine.currentPhraseIndex this in
   nextPhrases n (heap, this, w)
   = map (fun k => Normal (Just (nth ((i + k) mod List.length phrases) phrases [])))
         (seq 0 n)
   /\ Nat.iter n (after LessonEngine.getNextPhrase) (heap, this, w)
      = (heap,
         LessonEngine.mk (LessonEngine.lessons this) (LessonEngine.currentLesson this)
           ((i + n) mod List.length phrases)%nat
           (LessonEngine.practiceAttempts this) (LessonEngine.lessonProgress this),
         w)
   /\ Nat.iter (List.length phrases) (after LessonEngine.getNextPhrase) (heap, this, w)
      = (heap, this, w)).
Proof.
  intros n heap this w lesson.
  assert (H0 : getProp (LessonEngine.lessons this) (LessonEngine.currentLesson this) = Some lesson).
  { reflexivity. }
  assert (H1 : (LessonEngine.currentPhraseIndex this < List.length (LessonEngine.phrases lesson))%nat).
  { vm_compute. lia. }
  split; [exact H0|].
  split; [exact H1|].
  exact (getNextPhrase_goes_round_the_lesson n heap this w lesson H0 H1).
Defined.

(** [recordAttempt_counts_the_successes] at a concrete input. *)
Lemma recordAttempt_counts_the_successes_witness :
  let outcomes := [true; false; true; true; true] in
  let s := exampleLessonEngine in
  let w := freshWorld 0 quiet in
  let p := LessonEngine.mkProgress false false 0 3 None in
  (allocated s)
  /\
  (progressOf s (LessonEngine.currentLesson (snd s)) = Some p)
  /\
  (let s' := fst (recordAttempts outcomes (s, w)) in
   let successes := count_occ bool_dec outcomes true in
   snd s'
   = LessonEngine.mk (LessonEngine.lessons (snd s)) (LessonEngine.currentLesson (snd s))
       (LessonEngine.currentPhraseIndex (snd s))
       (LessonEngine.practiceAttempts (snd s) + List.length outcomes)
       (LessonEngine.lessonProgress (snd s))
   /\ progressOf s' (LessonEngine.currentLesson (snd s))
      = Some (LessonEngine.mkProgress
                (LessonEngine.started p)
                (LessonEngine.completed p
                 || ((0 <? successes)
                     && (LessonEngine.totalPhrases p
                         <=? LessonEngine.phrasesCompleted p + successes))%nat)
                (LessonEngine.phrasesCompleted p + successes)
                (LessonEngine.totalPhrases p)
                (LessonEngine.lastAccessed p))
   /\ forall other,
        keyName other <> keyName (LessonEngine.currentLesson (snd s)) ->
        progressOf s' other = progressOf s other).
Proof.
  intros outcomes s w p.
  assert (H0 : allocated s).
  { vm_compute. lia. }
  assert (H1 : progressOf s (LessonEngine.currentLesson (snd s)) = Some p).
  { reflexivity. }
  split; [exact H0|].
  split; [exact H1|].
  exact (recordAttempt_counts_the_successes outcomes s w p H0 H1).
Defined.

(** [importProgress_after_resetAllProgress_restores] at a concrete input. *)
Lemma importProgress_after_resetAllProgress_restores_witness :
  let s := fst (recordAttempts [true; true] (exampleLessonEngine, freshWorld 0 quiet)) in
  let w := freshWorld 9000 quiet in
  (allocated s)
  /\
  (let '(r0, _, _) := LessonEngine.exportProgress s w in
   exists data,
     r0 = Normal data
     /\ let '(r1, s1, w1) := LessonEngine.resetAllProgress s w in
        r1 = Normal tt
        /\ snd s1 = LessonEngine.mk (LessonEngine.lessons (snd s))
                      (LessonEngine.currentLesson (snd s)) 0 0 (List.length (fst s))
        /\ (forall lessonKey,
               progressOf s1 lessonKey
               = option_map LessonEngine.untouched
                   (getProp (LessonEngine.lessons (snd s)) lessonKey))
        /\ let '(r2, s2, w2) := LessonEngine.importProgress data s1 w1 in
           r2 = Normal tt
           /\ LessonEngine.lessonProgress (snd s2) = LessonEngine.lessonProgress (snd s)
           /\ progressObject s2 = progressObject s).
Proof.
  intros s w.
  assert (H0 : allocated s).
  { vm_compute. lia. }
  split; [exact H0|].
  exact (importProgress_after_resetAllProgress_restores s w H0).
Defined.

(** [handleTranscript_stalls_without_a_translation] at a concrete input. *)
Lemma handleTranscript_stalls_without_a_translation_witness :
  let toLowerCase := asciiLowerCase in
  let encouragementDraw := 4%nat in
  let promptDraw := 1%nat in
  let transcript := "hello" in
  let confidence := (9 # 10)%Q in
  let app := fst (exampleApplication en) in
  let w := snd (exampleApplication en) in
  let lesson := LessonEngine.mkLesson "Greetings" "*" "Let's practice greetings."
      (LessonEngine.getLessonPhrases (snd exampleLessonEngine)) ["Say hello!"; "Say goodbye!"] in
  (getProp (LessonEngine.lessons (Application.lessonEngine app))
             (LessonEngine.currentLesson (Application.lessonEngine app))
     = Some lesson)
  /\
  ((exists phrase,
         In phrase (LessonEngine.phrases lesson)
         /\ prop phrase (LanguageEngine.learningLanguage (Application.languageEngine app))
            = None))
  /\
  (let '(r, app', w') :=
     Application.handleTranscript toLowerCase encouragementDraw promptDraw transcript
       confidence app w in
   r = Abrupt (VError "TypeError"
                 "Cannot read properties of undefined (reading 'toLowerCase')")
   /\ Application.voiceEngine app' = Application.voiceEngine app
   /\ Application.lessonEngine app' = Application.lessonEngine app
   /\ Application.heap app' = Application.heap app
   /\ filter isCapabilityCall (emitted w w') = []
   /\ calls (emitted w w') = []).
Proof.
  intros toLowerCase encouragementDraw promptDraw transcript confidence app w lesson.
  assert (H0 : getProp (LessonEngine.lessons (Application.lessonEngine app)) (LessonEngine.currentLesson (Application.lessonEngine app)) = Some lesson).
  { reflexivity. }
  assert (H1 : (exists phrase, In phrase (LessonEngine.phrases lesson) /\ prop phrase (LanguageEngine.learningLanguage (Application.languageEngine app)) = None)).
  { eexists. split; [left; reflexivity|reflexivity]. }
  split; [exact H0|].
  split; [exact H1|].
  exact (handleTranscript_stalls_without_a_translation toLowerCase encouragementDraw promptDraw transcript confidence app w lesson H0 H1).
Defined.

(** [handleTranscript_speaks_the_formatted_response] at a concrete input. *)
Lemma handleTranscript_speaks_the_formatted_response_witness :
  let toLowerCase := asciiLowerCase in
  let encouragementDraw := 4%nat in
  let promptDraw := 1%nat in
  let transcript := "Hola" in
  let confidence := (9 # 10)%Q in
  let app := fst (exampleApplication es) in
  let w := snd (exampleApplication es) in
  let response := responseOf
      (fst (fst (LanguageEngine.analyzeAndRespond asciiLowerCase 4 1 "Hola"
                   (LessonEngine.getContext (snd exampleLessonEngine))
                   (LanguageEngine.mk en es []) (snd (exampleApplication es))))) in
  (StateManager.currentState (VoiceEngine.stateManager (Application.voiceEngine app))
     = "PROCESSING")
  /\
  (VoiceEngine.synthesisAvailable (Application.voiceEngine app) = true)
  /\
  ((forall f,
         In f (StateManager.listeners
                 (VoiceEngine.stateManager (Application.voiceEngine app))) ->
         safe w f))
  /\
  (progressOf (Application.heap app, Application.lessonEngine app)
                (LessonEngine.currentLesson (Application.lessonEngine app)) <> None)
  /\
  (fst (fst (LanguageEngine.analyzeAndRespond toLowerCase encouragementDraw promptDraw
                 transcript (LessonEngine.getContext (Application.lessonEngine app))
                 (Application.languageEngine app) w))
     = Normal response)
  /\
  (let '(r, app', w') :=
     Application.handleTranscript toLowerCase encouragementDraw promptDraw transcript
       confidence app w in
   r = Normal tt
   /\ phase (Application.voiceEngine app', w') = "SPEAKING"
   /\ render w' = Rendering
   /\ (exists before,
         emitted w w'
         = before
             ++ [SynthesisSpeak (LanguageEngine.formatResponse response)
                   (VoiceEngine.synthesisLang (Application.voiceEngine app))]
         /\ Forall notSpeak before)
   /\ LessonEngine.practiceAttempts (Application.lessonEngine app')
      = (LessonEngine.practiceAttempts (Application.lessonEngine app) + 1)%nat
   /\ LanguageEngine.conversationHistory (Application.languageEngine app')
      = LanguageEngine.conversationHistory (Application.languageEngine app)
          ++ [LanguageEngine.mkEntry (trim (toLowerCase transcript)) (clock w)]).
Proof.
  intros toLowerCase encouragementDraw promptDraw transcript confidence app w response.
  assert (H0 : StateManager.currentState (VoiceEngine.stateManager (Application.voiceEngine app)) = "PROCESSING").
  { reflexivity. }
  assert (H1 : VoiceEngine.synthesisAvailable (Application.voiceEngine app) = true).
  { reflexivity. }
  assert (H2 : (forall f, In f (StateManager.listeners (VoiceEngine.stateManager (Application.voiceEngine app))) -> safe w f)).
  { intros f _ history args. reflexivity. }
  assert (H3 : progressOf (Application.heap app, Application.lessonEngine app) (LessonEngine.currentLesson (Application.lessonEngine app)) <> None).
  { vm_compute. discriminate. }
  assert (H4 : fst (fst (LanguageEngine.analyzeAndRespond toLowerCase encouragementDraw promptDraw transcript (LessonEngine.getContext (Application.lessonEngine app)) (Application.languageEngine app) w)) = Normal response).
  { vm_compute. reflexivity. }
  split; [exact H0|].
  split; [exact H1|].
  split; [exact H2|].
  split; [exact H3|].
  split; [exact H4|].
  exact (handleTranscript_speaks_the_formatted_response toLowerCase encouragementDraw promptDraw transcript confidence app w response H0 H1 H2 H3 H4).
Defined.

